(** * convid: a shallow embedding of [convid/convid.py]

    The script is a linear workflow around three external collaborators:
    the file system, the terminal and the ffmpeg executable.  The embedding
    keeps that shape:

    - Python [str] values are lists of Unicode code points ([N]);
    - [os.path] is written out for both flavours the script can run on
      ([posixpath] and [ntpath]), following CPython's library sources;
    - the file system is a finite map from path strings to nodes, and every
      operation the script performs on it is recorded in a trace of events;
    - [json.dump] and [json.load] are written out (encoder with
      [ensure_ascii], decoder for the whole grammar);
    - the script's functions ([get_convid_config_dir_file],
      [get_convid_configs], [configure_ffmpeg], [convid]) are state-passing
      programs over that world, with Python's exceptions and [sys.exit] as
      outcomes. *)

From Stdlib Require Import NArith ZArith Lia List String Ascii Bool.
From stdpp Require Import base option list gmap.

Local Open Scope Z_scope.

#[local] Set Warnings "-register-all".

(** ** Python strings *)

Abbreviation str := (list N).

Definition u (s : string) : str := map N_of_ascii (list_ascii_of_string s).

Definition ord (c : string) : N :=
  match u c with
  | x :: _ => x
  | [] => 0%N
  end.

Module PyStr.

Definition startswith (s pre : str) : bool :=
  bool_decide (take (length pre) s = pre).

Definition endswith (s suf : str) : bool :=
  bool_decide (drop (length s - length suf) s = suf) && (length suf <=? length s)%nat.

(** [s[:i]], [s[i:]] and [s[i:j]] for non-negative indices. *)
Definition upto (s : str) (i : Z) : str := take (Z.to_nat i) s.
Definition from (s : str) (i : Z) : str := drop (Z.to_nat i) s.
Definition slice (s : str) (i j : Z) : str := take (Z.to_nat j - Z.to_nat i)%nat (drop (Z.to_nat i) s).

Fixpoint rfind_from (c : N) (s : str) (i last : Z) : Z :=
  match s with
  | [] => last
  | x :: r => rfind_from c r (i + 1) (if (x =? c)%N then i else last)
  end.

(** [s.rfind(c)] for a one-character needle: the last index, or -1. *)
Definition rfind (c : N) (s : str) : Z := rfind_from c s 0 (-1).

Fixpoint find_from (c : N) (s : str) (i : Z) : Z :=
  match s with
  | [] => -1
  | x :: r => if (x =? c)%N then i else find_from c r (i + 1)
  end.

(** [s.find(c, start)] for a one-character needle. *)
Definition find (c : N) (s : str) (start : Z) : Z :=
  find_from c (from s start) start.

(** [s.replace(a, b)] for one-character [a] and [b]. *)
Definition replace (a b : N) (s : str) : str :=
  map (fun x => if (x =? a)%N then b else x) s.

(** [s.split(c)]: never empty, ["a//b"] gives three pieces. *)
Fixpoint split (c : N) (s : str) : list str :=
  match s with
  | [] => [[]]
  | x :: r =>
      if (x =? c)%N then [] :: split c r
      else match split c r with
           | [] => [[x]]
           | w :: ws => (x :: w) :: ws
           end
  end.

(** [sep.join(parts)]. *)
Fixpoint join (sep : str) (parts : list str) : str :=
  match parts with
  | [] => []
  | [w] => w
  | w :: ws => w ++ sep ++ join sep ws
  end.

(** [s.lower()] on the ASCII letters; the script reaches it only through
    [ntpath.join] when the joined component carries a drive, which its
    two literal components never do. *)
Definition lower (s : str) : str :=
  map (fun x => if ((65 <=? x) && (x <=? 90))%N then (x + 32)%N else x) s.

End PyStr.

(** ** [os.path] *)

Module GenericPath.
Import PyStr.

(** The [while] loop of [genericpath._splitext]: it looks for a character
    of the file name, before the last dot, that is not a dot. *)
Fixpoint splitext_loop (p : str) (extsep : N) (dotIndex filenameIndex : Z) (n : nat)
  : str * str :=
  match n with
  | O => (p, [])
  | S n' =>
      if bool_decide (slice p filenameIndex (filenameIndex + 1) ≠ [extsep])
      then (upto p dotIndex, from p dotIndex)
      else splitext_loop p extsep dotIndex (filenameIndex + 1) n'
  end.

Definition sep_index (p : str) (sep : N) (altsep : option N) : Z :=
  let sepIndex := rfind sep p in
  match altsep with
  | Some a => Z.max sepIndex (rfind a p)
  | None => sepIndex
  end.

Definition _splitext (p : str) (sep : N) (altsep : option N) (extsep : N) : str * str :=
  let sepIndex := sep_index p sep altsep in
  let dotIndex := rfind extsep p in
  if dotIndex >? sepIndex then
    let filenameIndex := sepIndex + 1 in
    splitext_loop p extsep dotIndex filenameIndex (Z.to_nat (dotIndex - filenameIndex))
  else (p, []).

(** The last component of [p]: what follows its last separator. *)
Definition final_component (p : str) (sep : N) (altsep : option N) : str :=
  from p (sep_index p sep altsep + 1).

End GenericPath.

Module PosixPath.
Import PyStr.

Definition sep : N := ord "/".

Definition isabs (s : str) : bool := startswith s [sep].

(** [posixpath.join(a, b)]. *)
Definition join (a b : str) : str :=
  if startswith b [sep] then b
  else if bool_decide (a = []) || endswith a [sep] then a ++ b
  else a ++ [sep] ++ b.

Definition splitext (p : str) : str * str :=
  GenericPath._splitext p sep None (ord ".").

Definition normpath_step (initial_slashes : nat) (new_comps : list str) (comp : str)
  : list str :=
  if bool_decide (comp = []) || bool_decide (comp = u ".") then new_comps
  else if bool_decide (comp ≠ u "..")
          || (bool_decide (initial_slashes = O) && bool_decide (new_comps = []))
          || (bool_decide (new_comps ≠ []) && bool_decide (last new_comps = Some (u "..")))
       then new_comps ++ [comp]
       else if bool_decide (new_comps ≠ []) then removelast new_comps
            else new_comps.

Definition normpath (path : str) : str :=
  if bool_decide (path = []) then u "." else
  let initial_slashes :=
    if startswith path [sep] then
      if startswith path [sep; sep] && negb (startswith path [sep; sep; sep])
      then 2%nat else 1%nat
    else 0%nat in
  let comps := PyStr.split sep path in
  let comps := fold_left (normpath_step initial_slashes) comps [] in
  let path := PyStr.join [sep] comps in
  let path := repeat sep initial_slashes ++ path in
  if bool_decide (path = []) then u "." else path.

Definition abspath (cwd path : str) : str :=
  normpath (if isabs path then path else join cwd path).

(** [posixpath.dirname]: everything up to the last separator, with the
    trailing separators dropped unless nothing else is left. *)
Fixpoint rstrip (c : N) (s : str) : str :=
  match s with
  | [] => []
  | x :: r =>
      match rstrip c r with
      | [] => if (x =? c)%N then [] else [x]
      | r' => x :: r'
      end
  end.

Definition dirname (p : str) : str :=
  let i := rfind sep p + 1 in
  let head := upto p i in
  if bool_decide (head ≠ []) && bool_decide (head ≠ repeat sep (length head))
  then rstrip sep head
  else head.

End PosixPath.

Module NtPath.
Import PyStr.

Definition sep : N := ord "\".
Definition altsep : N := ord "/".
Definition colon : N := ord ":".

Definition is_sep (c : N) : bool := (c =? sep)%N || (c =? altsep)%N.

(** [ntpath.splitdrive] as CPython 3.7 to 3.10 define it: a UNC share or
    a drive letter with its colon is the drive, the rest is the path.
    Later versions split some paths that start with a separator in another
    way; on a path that starts with any other character they agree with
    this definition. *)
Definition splitdrive (p : str) : str * str :=
  if (2 <=? length p)%nat then
    let normp := replace altsep sep p in
    if bool_decide (slice normp 0 2 = [sep; sep]) && bool_decide (slice normp 2 3 ≠ [sep])
    then
      let index := find sep normp 2 in
      if index =? -1 then ([], p) else
      let index2 := find sep normp (index + 1) in
      if index2 =? index + 1 then ([], p) else
      let index2 := if index2 =? -1 then Z.of_nat (length p) else index2 in
      (upto p index2, from p index2)
    else if bool_decide (slice normp 1 2 = [colon]) then (upto p 2, from p 2)
    else ([], p)
  else ([], p).

(** [ntpath.join(path, p)]. *)
Definition join (path p : str) : str :=
  let '(result_drive, result_path) := splitdrive path in
  let '(p_drive, p_path) := splitdrive p in
  let '(result_drive, result_path) :=
    if match p_path with c :: _ => is_sep c | [] => false end then
      (* the second path is absolute *)
      (if bool_decide (p_drive ≠ []) || bool_decide (result_drive = [])
       then p_drive else result_drive, p_path)
    else if bool_decide (p_drive ≠ []) && bool_decide (p_drive ≠ result_drive)
            && bool_decide (lower p_drive ≠ lower result_drive)
    then (* different drives: the first path is ignored *)
      (p_drive, p_path)
    else
      let result_drive :=
        if bool_decide (p_drive ≠ []) && bool_decide (p_drive ≠ result_drive)
        then p_drive else result_drive in
      (* the second path is relative to the first *)
      let result_path :=
        if match last result_path with Some c => negb (is_sep c) | None => false end
        then result_path ++ [sep] else result_path in
      (result_drive, result_path ++ p_path) in
  (* a separator between a UNC drive and a relative path *)
  if match result_path with c :: _ => negb (is_sep c) | [] => false end
     && match last result_drive with Some c => negb (c =? colon)%N | None => false end
  then result_drive ++ [sep] ++ result_path
  else result_drive ++ result_path.

Definition splitext (p : str) : str * str :=
  GenericPath._splitext p sep (Some altsep) (ord ".").

(** [ntpath.split(p)[0]], which is [ntpath.dirname]. *)
Fixpoint rstrip_seps (s : str) : str :=
  match s with
  | [] => []
  | x :: r =>
      match rstrip_seps r with
      | [] => if is_sep x then [] else [x]
      | r' => x :: r'
      end
  end.

Fixpoint head_end (s : str) : nat :=
  match s with
  | [] => O
  | x :: r =>
      match head_end r with
      | O => if is_sep x then 1%nat else O
      | S k => S (S k)
      end
  end.

Definition dirname (p : str) : str :=
  let '(d, p) := splitdrive p in
  let head := take (head_end p) p in
  let head := match rstrip_seps head with [] => head | h => h end in
  d ++ head.

End NtPath.

(** ** [json]: the encoder and the decoder of the standard library *)

Module Json.
Import PyStr.

Definition dquote : N := 34.
Definition backslash : N := ord "\".

(** *** What the script hands to [json.dump]

    The script builds these objects itself: a string, a dictionary with
    string keys, or (by the call in [get_convid_configs]) an open file. *)
Inductive pyobj :=
| PStr (s : str)
| PDict (items : list (str * pyobj))
| PFile (path : str).

Definition hex_digit (d : N) : N := (if d <? 10 then 48 + d else 87 + d)%N.

(** ['{0:04x}'.format(n)] for [n < 0x10000]. *)
Definition hex4 (n : N) : str :=
  [hex_digit (n / 4096 mod 16); hex_digit (n / 256 mod 16);
   hex_digit (n / 16 mod 16); hex_digit (n mod 16)]%N.

Definition u_escape (n : N) : str := [backslash; ord "u"] ++ hex4 n.

(** The replacement function of [py_encode_basestring_ascii]: the short
    escapes of [ESCAPE_DCT], the printable ASCII range untouched, and
    [\uXXXX] (a surrogate pair above the basic plane) for the rest. *)
Definition escape_char (c : N) : str :=
  (if c =? backslash then [backslash; backslash]
   else if c =? dquote then [backslash; dquote]
   else if c =? 8 then [backslash; ord "b"]
   else if c =? 12 then [backslash; ord "f"]
   else if c =? 10 then [backslash; ord "n"]
   else if c =? 13 then [backslash; ord "r"]
   else if c =? 9 then [backslash; ord "t"]
   else if (32 <=? c) && (c <=? 126) then [c]
   else if c <? 0x10000 then u_escape c
   else
     let n := c - 0x10000 in
     let s1 := N.lor 0xd800 (N.land (N.shiftr n 10) 0x3ff) in
     let s2 := N.lor 0xdc00 (N.land n 0x3ff) in
     u_escape s1 ++ u_escape s2)%N.

Definition encode_basestring_ascii (s : str) : str :=
  [dquote] ++ concat (map escape_char s) ++ [dquote].

(** [JSONEncoder.iterencode] with the default separators: the text of the
    chunks yielded, and whether the generator ran to its end ([false]: it
    raised [TypeError] at an object that is not serializable).  The script
    calls it on a dictionary of one string and on a file; the recursion
    limit, which stops the encoder on a deeply nested object, is left out. *)
Fixpoint iterencode (o : pyobj) : str * bool :=
  match o with
  | PStr s => (encode_basestring_ascii s, true)
  | PFile _ => ([], false)
  | PDict [] => (u "{}", true)
  | PDict items =>
      let fix iterencode_items (first : bool) (items : list (str * pyobj)) : str * bool :=
        match items with
        | [] => (u "}", true)
        | (key, value) :: rest =>
            let head :=
              (if first then [] else u ", ") ++ encode_basestring_ascii key ++ u ": " in
            let '(cv, okv) := iterencode value in
            if okv then
              let '(cr, okr) := iterencode_items false rest in
              (head ++ cv ++ cr, okr)
            else (head ++ cv, false)
        end in
      let '(c, ok) := iterencode_items true items in
      (u "{" ++ c, ok)
  end.

(** *** What [json.load] returns

    Numbers are kept as their lexeme: the script never computes with
    one. *)
Inductive value :=
| JNull
| JBool (b : bool)
| JNum (lexeme : str)
| JStr (s : str)
| JArr (items : list value)
| JObj (pairs : list (str * value)).

(** [dict(pairs)]: a repeated key keeps its first place and its last
    value. *)
Fixpoint dict_set (k : str) (v : value) (d : list (str * value)) : list (str * value) :=
  match d with
  | [] => [(k, v)]
  | (k', v') :: r => if bool_decide (k' = k) then (k, v) :: r else (k', v') :: dict_set k v r
  end.

Definition dict_of_pairs (pairs : list (str * value)) : list (str * value) :=
  fold_left (fun d kv => dict_set (fst kv) (snd kv) d) pairs [].

Fixpoint dict_lookup (k : str) (d : list (str * value)) : option value :=
  match d with
  | [] => None
  | (k', v) :: r => if bool_decide (k' = k) then Some v else dict_lookup k r
  end.

Definition is_ws (c : N) : bool := ((c =? 32) || (c =? 9) || (c =? 10) || (c =? 13))%N.

Fixpoint skip_ws (s : str) : str :=
  match s with
  | c :: r => if is_ws c then skip_ws r else s
  | [] => []
  end.

Definition hex_val (c : N) : option N :=
  (if (48 <=? c) && (c <=? 57) then Some (c - 48)
   else if (97 <=? c) && (c <=? 102) then Some (c - 87)
   else if (65 <=? c) && (c <=? 70) then Some (c - 55)
   else None)%N.

(** [_decode_uXXXX], on the text after the [u]: four hexadecimal digits,
    as the accelerated scanner reads them. *)
Definition decode_uXXXX (s : str) : option (N * str) :=
  match s with
  | a :: b :: c :: d :: rest =>
      match hex_val a, hex_val b, hex_val c, hex_val d with
      | Some a, Some b, Some c, Some d => Some ((((a * 16 + b) * 16 + c) * 16 + d)%N, rest)
      | _, _, _, _ => None
      end
  | _ => None
  end.

(** The [BACKSLASH] table. *)
Definition unescape (esc : N) : option N :=
  (if esc =? dquote then Some dquote
   else if esc =? backslash then Some backslash
   else if esc =? ord "/" then Some (ord "/")
   else if esc =? ord "b" then Some 8
   else if esc =? ord "f" then Some 12
   else if esc =? ord "n" then Some 10
   else if esc =? ord "r" then Some 13
   else if esc =? ord "t" then Some 9
   else None)%N.

Definition is_high_surrogate (c : N) : bool := ((0xd800 <=? c) && (c <=? 0xdbff))%N.
Definition is_low_surrogate (c : N) : bool := ((0xdc00 <=? c) && (c <=? 0xdfff))%N.

Definition join_surrogates (uni uni2 : N) : N :=
  (0x10000 + N.lor (N.shiftl (uni - 0xd800) 10) (uni2 - 0xdc00))%N.

Definition push (c : N) (r : option (str * str)) : option (str * str) :=
  match r with
  | Some (cs, rest) => Some (c :: cs, rest)
  | None => None
  end.

(** [scanstring] in strict mode, on the text after the opening quote: the
    decoded string and the text after the closing quote; [None] stands
    for [JSONDecodeError]. *)
Fixpoint scanstring (fuel : nat) (s : str) : option (str * str) :=
  match fuel with
  | O => None
  | S fuel =>
      match s with
      | [] => None
      | c :: rest =>
          if (c =? dquote)%N then Some ([], rest)
          else if (c =? backslash)%N then
            match rest with
            | [] => None
            | esc :: rest =>
                if (esc =? ord "u")%N then
                  match decode_uXXXX rest with
                  | None => None
                  | Some (uni, rest) =>
                      if is_high_surrogate uni && startswith rest [backslash; ord "u"] then
                        match decode_uXXXX (drop 2 rest) with
                        | None => None
                        | Some (uni2, rest2) =>
                            if is_low_surrogate uni2
                            then push (join_surrogates uni uni2) (scanstring fuel rest2)
                            else push uni (scanstring fuel rest)
                        end
                      else push uni (scanstring fuel rest)
                  end
                else
                  match unescape esc with
                  | None => None
                  | Some ch => push ch (scanstring fuel rest)
                  end
            end
          else if (c <? 32)%N then None
          else push c (scanstring fuel rest)
      end
  end.

Definition is_digit (c : N) : bool := ((48 <=? c) && (c <=? 57))%N.

Fixpoint span_digits (s : str) : str * str :=
  match s with
  | c :: r => if is_digit c then let '(d, r') := span_digits r in (c :: d, r') else ([], s)
  | [] => ([], [])
  end.

(** [NUMBER_RE.match]: an integer part, then a fraction and an exponent
    where they are complete. *)
Definition match_number (s : str) : option (str * str) :=
  let '(sign, s1) :=
    match s with
    | c :: r => if (c =? ord "-")%N then ([c], r) else ([], s)
    | [] => ([], s)
    end in
  let int_part :=
    match s1 with
    | c :: r =>
        if (c =? ord "0")%N then Some ([c], r)
        else if is_digit c then let '(d, r') := span_digits r in Some (c :: d, r')
        else None
    | [] => None
    end in
  match int_part with
  | None => None
  | Some (int, s2) =>
      let '(frac, s3) :=
        match s2 with
        | c :: r =>
            if (c =? ord ".")%N then
              match span_digits r with
              | ([], _) => ([], s2)
              | (d, r') => (c :: d, r')
              end
            else ([], s2)
        | [] => ([], s2)
        end in
      let '(exp, s4) :=
        match s3 with
        | c :: r =>
            if ((c =? ord "e") || (c =? ord "E"))%N then
              let '(esign, r1) :=
                match r with
                | c' :: r' =>
                    if ((c' =? ord "-") || (c' =? ord "+"))%N then ([c'], r') else ([], r)
                | [] => ([], r)
                end in
              match span_digits r1 with
              | ([], _) => ([], s3)
              | (d, r2) => (c :: esign ++ d, r2)
              end
            else ([], s3)
        | [] => ([], s3)
        end in
      Some (sign ++ int ++ frac ++ exp, s4)
  end.

Definition literal (s : str) (word : string) (v : value) : option (value * str) :=
  if startswith s (u word) then Some (v, drop (length (u word)) s) else None.

(** [scan_once], [JSONObject] and [JSONArray]; the two loops are entered
    after the opening quote of a key and at the start of an element. *)
Fixpoint scan_once (fuel : nat) (s : str) : option (value * str) :=
  match fuel with
  | O => None
  | S fuel =>
      match s with
      | [] => None
      | nextchar :: rest =>
          if (nextchar =? dquote)%N then
            match scanstring (S (length rest)) rest with
            | Some (str, rest') => Some (JStr str, rest')
            | None => None
            end
          else if (nextchar =? ord "{")%N then
            match skip_ws rest with
            | c :: r =>
                if (c =? ord "}")%N then Some (JObj [], r)
                else if (c =? dquote)%N then object_loop fuel r []
                else None
            | [] => None
            end
          else if (nextchar =? ord "[")%N then
            match skip_ws rest with
            | c :: r =>
                if (c =? ord "]")%N then Some (JArr [], r)
                else array_loop fuel (c :: r) []
            | [] => None
            end
          else if startswith s (u "null") then literal s "null" JNull
          else if startswith s (u "true") then literal s "true" (JBool true)
          else if startswith s (u "false") then literal s "false" (JBool false)
          else
            match match_number s with
            | Some (lexeme, rest') => Some (JNum lexeme, rest')
            | None =>
                if startswith s (u "NaN") then literal s "NaN" (JNum (u "NaN"))
                else if startswith s (u "Infinity")
                then literal s "Infinity" (JNum (u "Infinity"))
                else literal s "-Infinity" (JNum (u "-Infinity"))
            end
      end
  end
with object_loop (fuel : nat) (s : str) (pairs : list (str * value)) : option (value * str) :=
  match fuel with
  | O => None
  | S fuel =>
      match scanstring (S (length s)) s with
      | None => None
      | Some (key, s) =>
          match skip_ws s with
          | colon :: s =>
              if negb (colon =? ord ":")%N then None else
              match scan_once fuel (skip_ws s) with
              | None => None
              | Some (v, s) =>
                  let pairs := pairs ++ [(key, v)] in
                  match skip_ws s with
                  | nextchar :: s =>
                      if (nextchar =? ord "}")%N then Some (JObj (dict_of_pairs pairs), s)
                      else if negb (nextchar =? ord ",")%N then None
                      else
                        match skip_ws s with
                        | q :: s => if (q =? dquote)%N then object_loop fuel s pairs else None
                        | [] => None
                        end
                  | [] => None
                  end
              end
          | [] => None
          end
      end
  end
with array_loop (fuel : nat) (s : str) (values : list value) : option (value * str) :=
  match fuel with
  | O => None
  | S fuel =>
      match scan_once fuel s with
      | None => None
      | Some (v, s) =>
          let values := values ++ [v] in
          match skip_ws s with
          | nextchar :: s =>
              if (nextchar =? ord "]")%N then Some (JArr values, s)
              else if negb (nextchar =? ord ",")%N then None
              else array_loop fuel (skip_ws s) values
          | [] => None
          end
      end
  end.

(** [JSONDecoder.decode]: one value between optional white space, and
    nothing after it. *)
Definition loads (s : str) : option value :=
  let s := skip_ws s in
  match scan_once (S (length s)) s with
  | Some (v, rest) => if bool_decide (skip_ws rest = []) then Some v else None
  | None => None
  end.

End Json.

Import Json.

Definition sample_text : str :=
  [123; 34; 97; 34; 58; 32; 91; 49; 44; 32; 45; 50; 46; 53; 101; 51; 44; 32; 110; 117; 108;
   108; 44; 32; 116; 114; 117; 101; 93; 44; 32; 34; 98; 34; 58; 32; 123; 125; 44; 32; 34;
   97; 34; 58; 32; 34; 120; 92; 110; 92; 117; 48; 48; 101; 57; 34; 125; 32]%N.

(** ** The world the script runs in *)

Inductive os_name_t := Posix | Nt.

(** The process environment: [os.name], [os.environ], the working directory
    as [os.getcwd()] returns it, and [ntpath.abspath], which defers to the
    Win32 [GetFullPathName] and is kept as it is given. *)
Record environment := {
  os_name : os_name_t;
  environ : gmap str str;
  getcwd : str;
  nt_abspath : str -> str
}.

Record perm := { p_read : bool; p_write : bool; p_exec : bool }.

Inductive node :=
| File (mode : perm) (content : str)
| Dir.

(** A file system is a finite map from path strings to nodes.  A path is
    looked up as the string it is; a new entry needs its parent directory
    ([dirname], or the working directory when that is empty).  Files are
    text files, their content a Python [str]. *)
Abbreviation filesystem := (gmap str node).

(** Python exceptions, all subclasses of [Exception]. *)
Inductive exn :=
| FileNotFoundError
| NotADirectoryError
| IsADirectoryError
| PermissionError
| FileExistsError
| TypeError
| AttributeError
| JSONDecodeError
| FfmpegError.

(** What [convid] prints through [echo] (the lines of [vecho] are left
    out), and what click prints on its own. *)
Inductive message :=
| MsgStarting
| MsgNotExist (video : str)
| MsgNotFile (video : str)
| MsgNotReadable (video : str)
| MsgConversionStarting
| MsgSuccess (new_file : str)
| MsgMisconfigured (ex : exn)
| MsgConversionFailed (ex : exn)
| MsgRemoved
| MsgRemoveFailed (ex : exn)
| MsgAborted
| MsgBadParameter (value : str)
| MsgMissingArgument (name : str).

Inductive event :=
| EvEcho (m : message)
| EvConfirm (answer : option bool)
| EvExists (path : str) (r : bool)
| EvIsFile (path : str) (r : bool)
| EvIsDir (path : str) (r : bool)
| EvAccessR (path : str) (r : bool)
| EvOpenRead (path : str) (r : option exn)
| EvOpenWrite (path : str) (r : option exn)
| EvWrite (path : str) (data : str)
| EvMkdir (path : str) (r : option exn)
| EvRemove (path : str) (r : option exn)
| EvRun (cmd : value) (input output : str) (quiet : bool) (r : option exn).

(** How a piece of the script stops other than by returning: an exception,
    [sys.exit], click's [ctx.exit] and click's [Abort]. *)
Inductive signal :=
| Raise (e : exn)
| SysExit (code : Z)
| CtxExit (code : Z)
| Abort.

Inductive outcome (A : Type) :=
| Return (a : A)
| Stop (s : signal).
Arguments Return {A} a.
Arguments Stop {A} s.

(** Programs thread the file system and emit events. *)
Definition M (A : Type) : Type := filesystem -> outcome A * filesystem * list event.

Definition ret {A} (a : A) : M A := fun fs => (Return a, fs, []).

Definition stop {A} (s : signal) : M A := fun fs => (Stop s, fs, []).

Definition bind {A B} (m : M A) (k : A -> M B) : M B :=
  fun fs =>
    match m fs with
    | (Return a, fs1, t1) => let '(o, fs2, t2) := k a fs1 in (o, fs2, t1 ++ t2)
    | (Stop s, fs1, t1) => (Stop s, fs1, t1)
    end.

Definition emit (ev : event) : M unit := fun fs => (Return tt, fs, [ev]).

(** [try: body except ...: handler]: the handler says which exceptions it
    takes. *)
Definition try_except {A} (body : M A) (handler : exn -> option (M A)) : M A :=
  fun fs =>
    match body fs with
    | (Stop (Raise e), fs1, t1) =>
        match handler e with
        | Some h => let '(o, fs2, t2) := h fs1 in (o, fs2, t1 ++ t2)
        | None => (Stop (Raise e), fs1, t1)
        end
    | r => r
    end.

Declare Scope prog_scope.
Delimit Scope prog_scope with prog.
Notation "'let*' x := m 'in' k" := (bind m (fun x => k))
  (at level 10, x pattern, m at level 100, k at level 200) : prog_scope.
Local Open Scope prog_scope.

Definition echo (m : message) : M unit := emit (EvEcho m).

Definition sys_exit {A} (code : Z) : M A := stop (SysExit code).

Module Os.

Section Calls.
Variable env : environment.

Definition path_join (a b : str) : str :=
  match os_name env with
  | Posix => PosixPath.join a b
  | Nt => NtPath.join a b
  end.

Definition path_splitext (p : str) : str * str :=
  match os_name env with
  | Posix => PosixPath.splitext p
  | Nt => NtPath.splitext p
  end.

Definition path_abspath (p : str) : str :=
  match os_name env with
  | Posix => PosixPath.abspath (getcwd env) p
  | Nt => nt_abspath env p
  end.

Definition path_dirname (p : str) : str :=
  match os_name env with
  | Posix => PosixPath.dirname p
  | Nt => NtPath.dirname p
  end.

(** The last component of a path, by the separators of the platform. *)
Definition path_final_component (p : str) : str :=
  match os_name env with
  | Posix => GenericPath.final_component p PosixPath.sep None
  | Nt => GenericPath.final_component p NtPath.sep (Some NtPath.altsep)
  end.

Definition environ_get (name fallback : str) : str :=
  default fallback (environ env !! name).

(** Why a path whose entry is missing cannot be created or opened. *)
Definition parent_error (fs : filesystem) (path : str) : option exn :=
  let parent := path_dirname path in
  if bool_decide (parent = []) then None
  else match fs !! parent with
       | Some Dir => None
       | Some (File _ _) => Some NotADirectoryError
       | None => Some FileNotFoundError
       end.

Definition path_exists (path : str) : M bool :=
  fun fs => let r := bool_decide (is_Some (fs !! path)) in (Return r, fs, [EvExists path r]).

Definition path_isfile (path : str) : M bool :=
  fun fs =>
    let r := match fs !! path with Some (File _ _) => true | _ => false end in
    (Return r, fs, [EvIsFile path r]).

Definition path_isdir (path : str) : M bool :=
  fun fs =>
    let r := match fs !! path with Some Dir => true | _ => false end in
    (Return r, fs, [EvIsDir path r]).

(** [os.access(path, os.R_OK)]. *)
Definition access_r (path : str) : M bool :=
  fun fs =>
    let r := match fs !! path with
             | Some (File mode _) => p_read mode
             | Some Dir => true
             | None => false
             end in
    (Return r, fs, [EvAccessR path r]).

(** [open(path).read()]. *)
Definition open_read (path : str) : M str :=
  fun fs =>
    match fs !! path with
    | Some (File mode content) =>
        if p_read mode then (Return content, fs, [EvOpenRead path None])
        else (Stop (Raise PermissionError), fs, [EvOpenRead path (Some PermissionError)])
    | Some Dir =>
        (Stop (Raise IsADirectoryError), fs, [EvOpenRead path (Some IsADirectoryError)])
    | None =>
        let e := default FileNotFoundError (parent_error fs path) in
        (Stop (Raise e), fs, [EvOpenRead path (Some e)])
    end.

Definition new_file_mode : perm := {| p_read := true; p_write := true; p_exec := false |}.

(** [open(path, "w")]: the file is created, or emptied, at once; the
    handle is the path. *)
Definition open_write (path : str) : M str :=
  fun fs =>
    match fs !! path with
    | Some (File mode _) =>
        if p_write mode
        then (Return path, <[path := File mode []]> fs, [EvOpenWrite path None])
        else (Stop (Raise PermissionError), fs, [EvOpenWrite path (Some PermissionError)])
    | Some Dir =>
        (Stop (Raise IsADirectoryError), fs, [EvOpenWrite path (Some IsADirectoryError)])
    | None =>
        match parent_error fs path with
        | None =>
            (Return path, <[path := File new_file_mode []]> fs, [EvOpenWrite path None])
        | Some e => (Stop (Raise e), fs, [EvOpenWrite path (Some e)])
        end
    end.

(** [fp.write(data)] on a handle opened for writing. *)
Definition file_write (path data : str) : M unit :=
  fun fs =>
    (Return tt,
     alter (fun n => match n with File mode c => File mode (c ++ data) | Dir => Dir end)
           path fs,
     [EvWrite path data]).

Definition mkdir (path : str) : M unit :=
  fun fs =>
    match fs !! path with
    | Some _ => (Stop (Raise FileExistsError), fs, [EvMkdir path (Some FileExistsError)])
    | None =>
        match parent_error fs path with
        | None => (Return tt, <[path := Dir]> fs, [EvMkdir path None])
        | Some e => (Stop (Raise e), fs, [EvMkdir path (Some e)])
        end
    end.

(** [os.remove(path)]. *)
Definition remove (path : str) : M unit :=
  fun fs =>
    match fs !! path with
    | Some (File _ _) => (Return tt, delete path fs, [EvRemove path None])
    | Some Dir =>
        let e := match os_name env with Posix => IsADirectoryError | Nt => PermissionError end in
        (Stop (Raise e), fs, [EvRemove path (Some e)])
    | None => (Stop (Raise FileNotFoundError), fs, [EvRemove path (Some FileNotFoundError)])
    end.

End Calls.

End Os.

(** [json.dump(obj, fp)]: every chunk the encoder yields is written to
    [fp] before the next one is computed, so the text that precedes an
    object that is not serializable reaches the file, and a [fp] without
    [write] fails at the first chunk. *)
Definition json_dump (obj fp : pyobj) : M unit :=
  let '(text, ok) := iterencode obj in
  let finish : M unit := if ok then ret tt else stop (Raise TypeError) in
  if bool_decide (text = []) then finish
  else match fp with
       | PFile path => let* _ := Os.file_write path text in finish
       | _ => stop (Raise AttributeError)
       end.

(** [json.load(fp)] on the text read from [fp]: the value the grammar of
    the decoder gives the text.  The limits the interpreter adds to the
    grammar are left out (the recursion limit on a deeply nested document,
    the digit limit of [int] on a very long integer): there [json.load]
    raises where [loads] has a value. *)
Definition json_load (text : str) : M value :=
  match loads text with
  | Some v => ret v
  | None => stop (Raise JSONDecodeError)
  end.

(** ** The script *)

(** The command line after click has parsed it: the two positional
    arguments, the two flags and the value of [--ffmpeg], where given.  A
    command line that click's parser refuses (an unknown option, an option
    without its value, an argument too many) and the options [--help] and
    [--version] end before any of the script runs; they have no [cli_args]. *)
Record cli_args := {
  arg_video : option str;
  arg_ext : option str;
  opt_remove : bool;
  opt_verbose : bool;
  opt_ffmpeg : option str
}.

(** How the process ends: an exit status, or an exception nobody caught
    (the interpreter prints the traceback and the status is 1). *)
Inductive termination :=
| Exited (code : Z)
| Uncaught (e : exn).

Section Script.

Variable env : environment.

(** The ffmpeg executable is a black box: given the command, the input
    and output paths and the quiet flag, it leaves a file system and
    either succeeds or makes [ffmpeg.run] raise. *)
Variable run_tool : value -> str -> str -> bool -> filesystem -> option exn * filesystem.

Definition get_convid_config_dir_file : str * str :=
  let home_dir :=
    match os_name env with
    | Nt => Os.environ_get env (u "USERPROFILE") (u "C:\Users")
    | Posix => Os.environ_get env (u "HOME") (u "/home")
    end in
  let convid_config_dir := Os.path_join env home_dir (u ".config") in
  let convid_config_file := Os.path_join env convid_config_dir (u "convid.json") in
  (convid_config_dir, convid_config_file).

Definition get_convid_configs : M value :=
  let '(convid_config_dir, convid_config_file) := get_convid_config_dir_file in
  try_except
    (let* text := Os.open_read env convid_config_file in
     json_load text)
    (fun e =>
       match e with
       | FileNotFoundError =>
           Some
             ((* Create config directory if it doesn't exist *)
              let* is_dir := Os.path_isdir convid_config_dir in
              let* _ := if negb is_dir then Os.mkdir env convid_config_dir else ret tt in
              (* Create an empty file *)
              let config := PDict [] in
              let* out_conf_file := Os.open_write env convid_config_file in
              let* _ := json_dump (PFile out_conf_file) config in
              (* out_conf_file.close(); return config *)
              ret (JObj []))
       | _ => None
       end).

(** [ctx.exit()]. *)
Definition ctx_exit {A} : M A := stop (CtxExit 0).

Definition configure_ffmpeg (resilient_parsing : bool) (value : option str) : M unit :=
  match value with
  | None => ret tt
  | Some value =>
      if bool_decide (value = []) || resilient_parsing then ret tt
      else
        let config := PDict [(u "ffmpeg", PStr value)] in
        let '(_, convid_config_file) := get_convid_config_dir_file in
        let* out_conf_file := Os.open_write env convid_config_file in
        let* _ := json_dump config (PFile out_conf_file) in
        (* out_conf_file.close() *)
        ctx_exit
  end.

(** [ext] with its leading dot (lines 122-123). *)
Definition normalize_ext (ext : str) : str :=
  if negb (PyStr.startswith ext (u ".")) then u "." ++ ext else ext.

(** The new file name (lines 124 and 144). *)
Definition derive_target (f ext : str) : str :=
  let '(name, old_ext) := Os.path_splitext env f in
  name ++ ext.

(** [click.confirm(..., default=False)]: the user's decision, or [Abort]
    when the input ends or is interrupted. *)
Definition confirm (answer : option bool) : M bool :=
  let* _ := emit (EvConfirm answer) in
  match answer with
  | Some b => ret b
  | None => stop Abort
  end.

(** [config.get(key, fallback)]: only a dictionary has [get]. *)
Definition config_get (config : value) (key : str) (fallback : value) : M value :=
  match config with
  | JObj d => ret (default fallback (dict_lookup key d))
  | _ => stop (Raise AttributeError)
  end.

(** [ffmpeg.input(f).output(new_file).run(cmd=..., quiet=...)]. *)
Definition ffmpeg_run (cmd : value) (input output : str) (quiet : bool) : M unit :=
  fun fs =>
    let '(r, fs') := run_tool cmd input output quiet fs in
    (match r with None => Return tt | Some e => Stop (Raise e) end,
     fs', [EvRun cmd input output quiet r]).

(** The body of [convid], block by block as its comments divide it; an
    early [sys.exit] or [Abort] ends the blocks that follow. *)

(** "Check video file" (lines 104-118). *)
Definition check_video_file (video f : str) : M unit :=
  let* found := Os.path_exists f in
  if negb found then
    let* _ := echo (MsgNotExist video) in sys_exit 1
  else
  let* is_file := Os.path_isfile f in
  if negb is_file then
    let* _ := echo (MsgNotFile video) in sys_exit 1
  else
  let* readable := Os.access_r f in
  if negb readable then
    let* _ := echo (MsgNotReadable video) in sys_exit 1
  else ret tt.

(** The comparison of the extensions (lines 126-140). *)
Definition check_extension (ext old_ext : str) (answer : option bool) : M unit :=
  if bool_decide (old_ext = ext) then
    let* proceed := confirm answer in
    if negb proceed then stop Abort else ret tt
  else ret tt.

(** "Try to convert video" (lines 152-180). *)
Definition convert_video (f new_file : str) (verbose : bool) : M unit :=
  try_except
    (let* config := get_convid_configs in
     let* ffmpeg_executable := config_get config (u "ffmpeg") (JStr (u "ffmpeg")) in
     let* _ := ffmpeg_run ffmpeg_executable f new_file (if verbose then false else true) in
     echo (MsgSuccess new_file))
    (fun ex =>
       match ex with
       | AttributeError => Some (let* _ := echo (MsgMisconfigured ex) in sys_exit 1)
       | _ => Some (let* _ := echo (MsgConversionFailed ex) in sys_exit 1)
       end).

(** "Check if old video should be remove" (lines 184-192). *)
Definition remove_old_video (f : str) (remove : bool) : M unit :=
  if remove then
    try_except
      (let* _ := Os.remove env f in echo MsgRemoved)
      (fun ex => Some (let* _ := echo (MsgRemoveFailed ex) in sys_exit 1))
  else ret tt.

Definition convid (video ext : str) (remove verbose : bool) (_ffmpeg : option str)
    (answer : option bool) : M unit :=
  let* _ := echo MsgStarting in
  (* Get absolute path *)
  let f := Os.path_abspath env video in
  let* _ := check_video_file video f in
  (* Check extension and add initial . if missing *)
  let ext := normalize_ext ext in
  let '(name, old_ext) := Os.path_splitext env f in
  let* _ := check_extension ext old_ext answer in
  (* Generate new file name *)
  let new_file := name ++ ext in
  let* _ := echo MsgConversionStarting in
  let* _ := convert_video f new_file verbose in
  let* _ := remove_old_video f remove in
  sys_exit 0.

(** [click.Path(exists=True, dir_okay=False, executable=True)], which is
    also [readable] by default. *)
Definition click_path_ok (value : str) (fs : filesystem) : bool :=
  match fs !! value with
  | Some (File mode _) => p_read mode && p_exec mode
  | _ => false
  end.

(** A usage error: click prints it and exits with status 2. *)
Definition usage_error {A} (m : message) : M A :=
  let* _ := echo m in sys_exit 2.

(** The eager [--ffmpeg] option: its value is checked and its callback
    runs before the other parameters are looked at; without the option
    the callback is called with [None]. *)
Definition process_ffmpeg_option (args : cli_args) : M unit :=
  match opt_ffmpeg args with
  | Some value =>
      fun fs =>
        if click_path_ok value fs then configure_ffmpeg false (Some value) fs
        else usage_error (MsgBadParameter value) fs
  | None => configure_ffmpeg false None
  end.

(** The required arguments, then the body. *)
Definition call_body (args : cli_args) (answer : option bool) : M unit :=
  match arg_video args with
  | None => usage_error (MsgMissingArgument (u "VIDEO"))
  | Some video =>
      match arg_ext args with
      | None => usage_error (MsgMissingArgument (u "EXT"))
      | Some ext =>
          convid video ext (opt_remove args) (opt_verbose args) (opt_ffmpeg args) answer
      end
  end.

(** The command as click runs it. *)
Definition invoke (args : cli_args) (answer : option bool) : M unit :=
  let* _ := process_ffmpeg_option args in
  call_body args answer.

(** Standalone mode: click turns [ctx.exit] and [Abort] into exit
    statuses; [sys.exit] and an exception it does not know pass through. *)
Definition standalone (r : outcome unit * filesystem * list event)
  : termination * filesystem * list event :=
  match r with
  | (Return _, fs', t) => (Exited 0, fs', t)
  | (Stop (SysExit code), fs', t) => (Exited code, fs', t)
  | (Stop (CtxExit code), fs', t) => (Exited code, fs', t)
  | (Stop Abort, fs', t) => (Exited 1, fs', t ++ [EvEcho MsgAborted])
  | (Stop (Raise e), fs', t) => (Uncaught e, fs', t)
  end.

(** [convid()] as the script calls it. *)
Definition main (args : cli_args) (answer : option bool) (fs : filesystem)
  : termination * filesystem * list event :=
  standalone (invoke args answer fs).

End Script.

(** ** Events and runs *)

Definition is_remove (ev : event) : bool :=
  match ev with EvRemove _ _ => true | _ => false end.

Definition is_run (ev : event) : bool :=
  match ev with EvRun _ _ _ _ _ => true | _ => false end.

(** The events [get_convid_configs] and [configure_ffmpeg] may emit: calls
    on the configuration file and on its directory. *)
Definition config_event (env : environment) (ev : event) : Prop :=
  match ev with
  | EvOpenRead p _ | EvOpenWrite p _ | EvWrite p _ => p = (get_convid_config_dir_file env).2
  | EvIsDir p _ | EvMkdir p _ => p = (get_convid_config_dir_file env).1
  | _ => False
  end.

(** The ways a call of [convid] can go, each with the events it leaves. *)
Section Runs.

Variable env : environment.
Variable run_tool : value -> str -> str -> bool -> filesystem -> option exn * filesystem.
Variables (video ext : str) (remove verbose : bool) (answer : option bool).
Variable fs : filesystem.

Let f := Os.path_abspath env video.
Let new_file := derive_target env f (normalize_ext ext).
Let quiet := if verbose then false else true.

Definition checked : list event :=
  [EvEcho MsgStarting; EvExists f true; EvIsFile f true; EvAccessR f true].

Inductive rejected : list event -> Prop :=
| RejNotExist :
    fs !! f = None -> rejected [EvExists f false; EvEcho (MsgNotExist video)]
| RejNotFile :
    fs !! f = Some Dir ->
    rejected [EvExists f true; EvIsFile f false; EvEcho (MsgNotFile video)]
| RejNotReadable mode c :
    fs !! f = Some (File mode c) -> p_read mode = false ->
    rejected [EvExists f true; EvIsFile f true; EvAccessR f false;
              EvEcho (MsgNotReadable video)].

Definition accepted : Prop :=
  exists mode c, fs !! f = Some (File mode c) /\ p_read mode = true.

Definition same_extension : Prop :=
  (Os.path_splitext env f).2 = normalize_ext ext.

(** The events up to the conversion: the checks, and the confirmation
    where one was asked for and given. *)
Inductive prepared : list event -> Prop :=
| PrepDirect :
    accepted -> ~ same_extension ->
    prepared (checked ++ [EvEcho MsgConversionStarting])
| PrepConfirmed :
    accepted -> same_extension -> answer = Some true ->
    prepared (checked ++ [EvConfirm (Some true); EvEcho MsgConversionStarting]).

(** The executable the conversion is run with. *)
Definition executable (d : list (str * value)) : value :=
  default (JStr (u "ffmpeg")) (dict_lookup (u "ffmpeg") d).

(** What the two [except] clauses of the conversion print. *)
Definition failure_message (e : exn) : message :=
  match e with
  | AttributeError => MsgMisconfigured e
  | _ => MsgConversionFailed e
  end.

Inductive convid_run : outcome unit -> filesystem -> list event -> Prop :=
| RunRejected t :
    rejected t -> convid_run (Stop (SysExit 1)) fs (EvEcho MsgStarting :: t)
| RunAborted :
    accepted -> same_extension -> answer ≠ Some true ->
    convid_run (Stop Abort) fs (checked ++ [EvConfirm answer])
| RunConfigRaised pre e fs1 tc :
    prepared pre ->
    get_convid_configs env fs = (Stop (Raise e), fs1, tc) ->
    convid_run (Stop (SysExit 1)) fs1
      (pre ++ tc ++ [EvEcho (failure_message e)])
| RunConfigNoDict pre config fs1 tc :
    prepared pre ->
    get_convid_configs env fs = (Return config, fs1, tc) ->
    (forall d, config ≠ JObj d) ->
    convid_run (Stop (SysExit 1)) fs1 (pre ++ tc ++ [EvEcho (MsgMisconfigured AttributeError)])
| RunToolFailed pre d fs1 tc e fs2 :
    prepared pre ->
    get_convid_configs env fs = (Return (JObj d), fs1, tc) ->
    run_tool (executable d) f new_file quiet fs1 = (Some e, fs2) ->
    convid_run (Stop (SysExit 1)) fs2
      (pre ++ tc ++ [EvRun (executable d) f new_file quiet (Some e);
                     EvEcho (failure_message e)])
| RunConverted pre d fs1 tc fs2 :
    prepared pre ->
    get_convid_configs env fs = (Return (JObj d), fs1, tc) ->
    run_tool (executable d) f new_file quiet fs1 = (None, fs2) ->
    remove = false ->
    convid_run (Stop (SysExit 0)) fs2
      (pre ++ tc ++ [EvRun (executable d) f new_file quiet None; EvEcho (MsgSuccess new_file)])
| RunRemoved pre d fs1 tc fs2 mode c :
    prepared pre ->
    get_convid_configs env fs = (Return (JObj d), fs1, tc) ->
    run_tool (executable d) f new_file quiet fs1 = (None, fs2) ->
    remove = true ->
    fs2 !! f = Some (File mode c) ->
    convid_run (Stop (SysExit 0)) (delete f fs2)
      (pre ++ tc ++ [EvRun (executable d) f new_file quiet None; EvEcho (MsgSuccess new_file);
                     EvRemove f None; EvEcho MsgRemoved])
| RunRemoveFailed pre d fs1 tc fs2 e :
    prepared pre ->
    get_convid_configs env fs = (Return (JObj d), fs1, tc) ->
    run_tool (executable d) f new_file quiet fs1 = (None, fs2) ->
    remove = true ->
    (forall mode c, fs2 !! f ≠ Some (File mode c)) ->
    convid_run (Stop (SysExit 1)) fs2
      (pre ++ tc ++ [EvRun (executable d) f new_file quiet None; EvEcho (MsgSuccess new_file);
                     EvRemove f (Some e); EvEcho (MsgRemoveFailed e)]).

End Runs.

(** A conversion step or a removal. *)
Definition is_step (ev : event) : bool := is_run ev || is_remove ev.

(** Events that are neither. *)
Definition quiet (t : list event) : Prop := Forall (fun ev => is_step ev = false) t.

(** The tool is run on [f] to produce [new_file]. *)
Definition run_targets (f new_file : str) (ev : event) : Prop :=
  match ev with
  | EvRun _ input output _ _ => input = f /\ output = new_file
  | _ => True
  end.

(** A file is opened or written at [file] only. *)
Definition opens_only (file : str) (ev : event) : Prop :=
  match ev with
  | EvOpenRead p _ | EvOpenWrite p _ | EvWrite p _ => p = file
  | _ => True
  end.

(** ** Strings without a split surrogate pair

    The strings of code points (all below 0x110000) in which no high
    surrogate is directly followed by a low one.  This is a condition on a
    [str], not a property of every [str]: [chr(0xD83D) + chr(0xDE00)] is a
    [str] of two code points that does not meet it.  It is the condition
    under which [json.load] gives back the string [json.dump] was given. *)
Fixpoint no_surrogate_pair (s : str) : bool :=
  match s with
  | [] => true
  | c :: r =>
      (c <? 0x110000)%N
      && negb (is_high_surrogate c && match r with c2 :: _ => is_low_surrogate c2 | [] => false end)
      && no_surrogate_pair r
  end.

(** The two halves of a code point above the basic plane. *)
Definition high_half (c : N) : N := N.lor 0xd800 (N.land (N.shiftr (c - 0x10000) 10) 0x3ff).
Definition low_half (c : N) : N := N.lor 0xdc00 (N.land (c - 0x10000) 0x3ff).

Definition u_prefix : str := [backslash; ord "u"].

(** What may follow the escape of a high surrogate: anything but the escape
    of a low one. *)
Definition no_low_escape (tail : str) : Prop :=
  PyStr.startswith tail u_prefix = false
  \/ exists uni2 rest2, decode_uXXXX (drop 2 tail) = Some (uni2, rest2)
                        /\ is_low_surrogate uni2 = false.

(** The text [configure_ffmpeg] writes for the executable path [p]. *)
Definition config_text (p : str) : str :=
  u "{" ++ dquote :: u "ffmpeg" ++ dquote :: u ": " ++ dquote
    :: concat (map escape_char p) ++ [dquote; ord "}"].

(** ** A concrete machine to run the script on *)

Module Demo.

Definition env : environment :=
  {| os_name := Posix;
     environ := {[ u "HOME" := u "/home/me" ]};
     getcwd := u "/home/me/videos";
     nt_abspath := fun p => p |}.

Definition rw : perm := {| p_read := true; p_write := true; p_exec := false |}.
Definition rx : perm := {| p_read := true; p_write := false; p_exec := true |}.

(** A home directory that has never seen the tool. *)
Definition fresh : filesystem :=
  list_to_map
    [(u "/", Dir); (u "/home", Dir); (u "/home/me", Dir); (u "/home/me/videos", Dir);
     (u "/home/me/videos/clip.mov", File rw (u "MOV"));
     (u "/usr/bin/ffmpeg", File rx (u "ELF"))].

(** The same home once [~/.config] exists. *)
Definition with_config_dir : filesystem := <[u "/home/me/.config" := Dir]> fresh.

(** The same machine seen from another working directory. *)
Definition env_elsewhere : environment :=
  {| os_name := Posix;
     environ := {[ u "HOME" := u "/home/me" ]};
     getcwd := u "/tmp";
     nt_abspath := fun p => p |}.

(** A Windows machine, and a POSIX one whose [HOME] is the empty string. *)
Definition env_windows : environment :=
  {| os_name := Nt;
     environ := {[ u "USERPROFILE" := u "D:\Users\me" ]};
     getcwd := u "D:\Users\me\videos";
     nt_abspath := fun p => p |}.

Definition env_no_home : environment :=
  {| os_name := Posix;
     environ := {[ u "HOME" := [] ]};
     getcwd := u "/srv";
     nt_abspath := fun p => p |}.

(** The home once the executable has been configured. *)
Definition configured : filesystem :=
  <[u "/home/me/.config/convid.json" := File rw (config_text (u "/usr/bin/ffmpeg"))]>
    with_config_dir.

(** [convid clip.mov mp4 -rm] and [convid --ffmpeg /usr/bin/ffmpeg]. *)
Definition convert_and_remove : cli_args :=
  {| arg_video := Some (u "clip.mov"); arg_ext := Some (u "mp4"); opt_remove := true;
     opt_verbose := false; opt_ffmpeg := None |}.

Definition set_executable : cli_args :=
  {| arg_video := None; arg_ext := None; opt_remove := false; opt_verbose := false;
     opt_ffmpeg := Some (u "/usr/bin/ffmpeg") |}.

(** A tool that writes its output file and succeeds. *)
Definition tool_ok (cmd : value) (input output : str) (quiet : bool) (fs : filesystem)
  : option exn * filesystem :=
  (None, <[output := File rw (u "MP4")]> fs).

(** A tool that exits with a failure. *)
Definition tool_fails (cmd : value) (input output : str) (quiet : bool) (fs : filesystem)
  : option exn * filesystem :=
  (Some FfmpegError, fs).

End Demo.

(** ** Notions the properties are stated with *)

(** The exception [open] raises on what is at the path of the
    configuration file, if it raises one. *)
Definition open_error (n : node) : option exn :=
  match n with
  | File mode _ => if p_read mode then None else Some PermissionError
  | Dir => Some IsADirectoryError
  end.

(** The printable ASCII characters. *)
Definition printable (c : N) : bool := ((32 <=? c) && (c <=? 126))%N.

(** A path that [os.path.join] puts a separator after: it is not empty
    and does not end in one. *)
Definition open_ended (is_sep : N -> bool) (path : str) : bool :=
  match last path with
  | Some x => negb (is_sep x)
  | None => false
  end.

(** ** A working directory that is gone

    [getcwd] is what [os.getcwd()] returns, so an [environment] describes
    a process whose working directory exists, and [convid] and [main] are
    the script in such a process.  In a process whose working directory has
    been removed, [os.getcwd()] raises [FileNotFoundError]:
    [posixpath.abspath] calls it for a relative path, at line 101, outside
    every [try]. *)
Section Removed.

Variable env : environment.
Variable run_tool : value -> str -> str -> bool -> filesystem -> option exn * filesystem.

(** Whether line 101 raises. *)
Definition abspath_fails (cwd_gone : bool) (video : str) : bool :=
  cwd_gone && match os_name env with
              | Posix => negb (PosixPath.isabs video)
              | Nt => false
              end.

Definition convid_at (cwd_gone : bool) (video ext : str) (remove verbose : bool)
    (_ffmpeg : option str) (answer : option bool) : M unit :=
  if abspath_fails cwd_gone video
  then let* _ := echo MsgStarting in stop (Raise FileNotFoundError)
  else convid env run_tool video ext remove verbose _ffmpeg answer.

Definition call_body_at (cwd_gone : bool) (args : cli_args) (answer : option bool) : M unit :=
  match arg_video args, arg_ext args with
  | Some video, Some ext =>
      convid_at cwd_gone video ext (opt_remove args) (opt_verbose args) (opt_ffmpeg args) answer
  | _, _ => call_body env run_tool args answer
  end.

Definition main_at (cwd_gone : bool) (args : cli_args) (answer : option bool)
    (fs : filesystem) : termination * filesystem * list event :=
  standalone ((let* _ := process_ffmpeg_option env args in
               call_body_at cwd_gone args answer) fs).

End Removed.

(** A component that is kept: it has a character and no slash. *)
Definition kept (w : str) : Prop := w ≠ [] /\ (PosixPath.sep ∉ w).

(** The number of slashes [posixpath.normpath] keeps at the start of a
    path: POSIX lets two leading slashes mean something of their own. *)
Definition initial_slashes (path : str) : nat :=
  if PyStr.startswith path [PosixPath.sep] then
    if PyStr.startswith path [PosixPath.sep; PosixPath.sep]
       && negb (PyStr.startswith path [PosixPath.sep; PosixPath.sep; PosixPath.sep])
    then 2%nat else 1%nat
  else 0%nat.

(** The components [posixpath.normpath] keeps. *)
Definition normal_components (path : str) : list str :=
  fold_left (PosixPath.normpath_step (initial_slashes path))
    (PyStr.split PosixPath.sep path) [].

(** A path as [os.getcwd] returns it: absolute and normalized. *)
Definition is_cwd (path : str) : Prop :=
  PosixPath.isabs path = true /\ PosixPath.normpath path = path.

(** A file name: not empty, without a slash, and neither "." nor "..". *)
Definition plain_name (name : str) : Prop :=
  name ≠ [] /\ (PosixPath.sep ∉ name) /\ name ≠ u "." /\ name ≠ u "..".

(** The components of a normalized path: each is kept and is not ".",
    and ".." stands only at the start, and only in a relative path. *)
Definition normalized (k : nat) (comps : list str) : Prop :=
  Forall kept comps
  /\ Forall (fun w => w ≠ u ".") comps
  /\ exists n rest,
       comps = replicate n (u "..") ++ rest
       /\ Forall (fun w => w ≠ u "..") rest
       /\ (k ≠ O -> n = O).

(** ** Who writes *)

Definition is_write (ev : event) : bool :=
  match ev with EvWrite _ _ => true | _ => false end.

(** ** Objects that [json.dump] accepts

    What [json.load] returns for the text of an object: strings are
    themselves and a dictionary is the dictionary of what its values
    load as. *)
Fixpoint to_value (o : pyobj) : value :=
  match o with
  | PStr s => JStr s
  | PDict items => JObj (map (fun kv => (kv.1, to_value kv.2)) items)
  | PFile _ => JNull
  end.

(** Strings and dictionaries of them, all the way down: the keys of a
    dictionary are distinct, as those of a [dict] are, no file is among
    the values, and no string has a high surrogate directly followed by a
    low one. *)
Fixpoint serializable (o : pyobj) : Prop :=
  match o with
  | PStr s => no_surrogate_pair s = true
  | PDict items =>
      NoDup (map fst items)
      /\ fold_right (fun kv rest => no_surrogate_pair kv.1 = true /\ serializable kv.2 /\ rest)
           True items
  | PFile _ => False
  end.

(** The text of the items of a dictionary, from the encoded values. *)
Fixpoint items_text (first : bool) (items : list (str * str)) : str :=
  match items with
  | [] => u "}"
  | (key, text) :: rest =>
      (if first then [] else u ", ") ++ encode_basestring_ascii key ++ u ": " ++ text
        ++ items_text false rest
  end.

(** ** The narration of [--verbose]

    [vecho] prints a line when the flag is set.  The lines go to the same
    terminal as those of [echo], so the narrated script records both in
    one sequence: the events of the script, and the lines of [vecho] with
    their text. *)

Inductive line :=
| Event (ev : event)
| Narrated (message : str).

Definition V (A : Type) : Type := filesystem -> outcome A * filesystem * list line.

Definition vret {A} (a : A) : V A := fun fs => (Return a, fs, []).

Definition vstop {A} (s : signal) : V A := fun fs => (Stop s, fs, []).

Definition vbind {A B} (m : V A) (k : A -> V B) : V B :=
  fun fs =>
    match m fs with
    | (Return a, fs1, t1) => let '(o, fs2, t2) := k a fs1 in (o, fs2, t1 ++ t2)
    | (Stop s, fs1, t1) => (Stop s, fs1, t1)
    end.

Definition vtry_except {A} (body : V A) (handler : exn -> option (V A)) : V A :=
  fun fs =>
    match body fs with
    | (Stop (Raise e), fs1, t1) =>
        match handler e with
        | Some h => let '(o, fs2, t2) := h fs1 in (o, fs2, t1 ++ t2)
        | None => (Stop (Raise e), fs1, t1)
        end
    | r => r
    end.

(** A piece of the script that does not narrate. *)
Definition lift {A} (m : M A) : V A :=
  fun fs => let '(o, fs', t) := m fs in (o, fs', map Event t).

(** The events among the lines, and a narrated run without its
    narration. *)
Definition events (t : list line) : list event :=
  omap (fun l => match l with Event ev => Some ev | Narrated _ => None end) t.

Definition unnarrated {A} (r : outcome A * filesystem * list line)
  : outcome A * filesystem * list event :=
  (r.1.1, r.1.2, events r.2).

Declare Scope narr_scope.
Delimit Scope narr_scope with narr.
Notation "'let*' x := m 'in' k" := (vbind m (fun x => k))
  (at level 10, x pattern, m at level 100, k at level 200) : narr_scope.

(** [str(b)] for a [bool], as an f-string formats it. *)
Definition py_bool (b : bool) : str := if b then u "True" else u "False".

Section Narration.

Local Open Scope narr_scope.

Variable env : environment.
Variable run_tool : value -> str -> str -> bool -> filesystem -> option exn * filesystem.

(** [traceback.format_exc()] in the handler of an exception. *)
Variable format_exc : exn -> str.

Definition vecho (message : str) (verbose : bool) : V unit :=
  fun fs => (Return tt, fs, if verbose then [Narrated message] else []).

(** "Check video file" (lines 104-118). *)
Definition narrated_check_video_file (video f : str) (verbose : bool) : V unit :=
  let* _ := vecho (u "[*] Check if video " ++ video ++ u " exists") verbose in
  let* found := lift (Os.path_exists f) in
  if negb found then
    let* _ := lift (echo (MsgNotExist video)) in lift (sys_exit 1)
  else
  let* _ := vecho (u "[*] Check if video " ++ video ++ u " is file") verbose in
  let* is_file := lift (Os.path_isfile f) in
  if negb is_file then
    let* _ := lift (echo (MsgNotFile video)) in lift (sys_exit 1)
  else
  let* _ := vecho (u "[*] Check if video " ++ video ++ u " is readable") verbose in
  let* readable := lift (Os.access_r f) in
  if negb readable then
    let* _ := lift (echo (MsgNotReadable video)) in lift (sys_exit 1)
  else vret tt.

(** The comparison of the extensions (lines 125-140). *)
Definition narrated_check_extension (ext old_ext : str) (answer : option bool)
    (verbose : bool) : V unit :=
  let* _ := vecho (u "[*] Checking extensions new " ++ ext ++ u " and old " ++ old_ext)
              verbose in
  if bool_decide (old_ext = ext) then
    let* _ := vecho (u "[*] New extension is equal to old extension. Ask user to continue")
                verbose in
    let* proceed := lift (confirm answer) in
    let* _ := vecho (u "[*] User decided to " ++ py_bool proceed) verbose in
    if negb proceed then vstop Abort else vret tt
  else vret tt.

(** The two handlers of the conversion (lines 163-180). *)
Definition narrated_conversion_failure (ex : exn) (verbose : bool) : V unit :=
  let* _ := vecho (u "[!!] An error occurred:") verbose in
  let* _ := vecho (format_exc ex) verbose in
  let* _ := lift (echo (match ex with
                        | AttributeError => MsgMisconfigured ex
                        | _ => MsgConversionFailed ex
                        end)) in
  lift (sys_exit 1).

(** "Try to convert video" (lines 152-180). *)
Definition narrated_convert_video (f new_file : str) (verbose : bool) : V unit :=
  vtry_except
    (let* _ := vecho (u "[*] Convertion is starting, see ya!") verbose in
     let* config := lift (get_convid_configs env) in
     let* ffmpeg_executable := lift (config_get config (u "ffmpeg") (JStr (u "ffmpeg"))) in
     let* _ := lift (ffmpeg_run run_tool ffmpeg_executable f new_file
                       (if verbose then false else true)) in
     lift (echo (MsgSuccess new_file)))
    (fun ex => Some (narrated_conversion_failure ex verbose)).

(** "Check if old video should be remove" (lines 183-192). *)
Definition narrated_remove_old_video (f : str) (remove verbose : bool) : V unit :=
  let* _ := vecho (u "[*] Should old video be removed? "
                   ++ (if remove then u "YES" else u "NO")) verbose in
  if remove then
    vtry_except
      (let* _ := lift (Os.remove env f) in lift (echo MsgRemoved))
      (fun ex =>
         Some (let* _ := vecho (u "[*] An error occurred while removing old file:") verbose in
               let* _ := vecho (format_exc ex) verbose in
               let* _ := lift (echo (MsgRemoveFailed ex)) in
               lift (sys_exit 1)))
  else vret tt.

(** The recap that opens a narrated run (lines 95-102). *)
Definition recap (video ext : str) (remove : bool) : list str :=
  [u "[*] Video: " ++ video;
   u "[*] Extension: " ++ ext;
   u "[*] Remove: " ++ py_bool remove;
   u "[*] Start video file checks";
   u "[*] Video absolute path: " ++ Os.path_abspath env video].

(** [convid], line by line. *)
Definition narrated_convid (video ext : str) (remove verbose : bool) (_ffmpeg : option str)
    (answer : option bool) : V unit :=
  let* _ := lift (echo MsgStarting) in
  (* Options and argument recap *)
  let* _ := vecho (u "[*] Video: " ++ video) verbose in
  let* _ := vecho (u "[*] Extension: " ++ ext) verbose in
  let* _ := vecho (u "[*] Remove: " ++ py_bool remove) verbose in
  (* Get absolute path *)
  let* _ := vecho (u "[*] Start video file checks") verbose in
  let f := Os.path_abspath env video in
  let* _ := vecho (u "[*] Video absolute path: " ++ f) verbose in
  let* _ := narrated_check_video_file video f verbose in
  (* Check extension and add initial . if missing *)
  let* _ := vecho (u "[*] Cleaning extension") verbose in
  let ext := normalize_ext ext in
  let '(name, old_ext) := Os.path_splitext env f in
  let* _ := narrated_check_extension ext old_ext answer verbose in
  (* Generate new file name *)
  let* _ := vecho (u "[*] Elaborate new name") verbose in
  let new_file := name ++ ext in
  let* _ := vecho (u "[*] New file name: " ++ new_file) verbose in
  let* _ := lift (echo MsgConversionStarting) in
  let* _ := narrated_convert_video f new_file verbose in
  let* _ := narrated_remove_old_video f remove verbose in
  let* _ := vecho (u "[*] Thank you and have a nice day :)") verbose in
  lift (sys_exit 0).

End Narration.

(** The narrated program [v] is the program [m] with narration: without
    the narrated lines a run of [v] is the run of [m], and when the flag is
    off there are no narrated lines. *)
Definition narrates {A} (verbose : bool) (v : V A) (m : M A) : Prop :=
  forall fs,
    unnarrated (v fs) = m fs
    /\ (verbose = false -> (v fs).2 = map Event (m fs).2).

(** ** Proof automation *)

Ltac divmod_lia := zify; Z.to_euclidean_division_equations; lia.

Ltac bool_cases :=
  repeat match goal with
    | |- context [(?a <=? ?b)%N] => destruct (N.leb_spec a b); try lia
    | |- context [(?a <? ?b)%N] => destruct (N.ltb_spec a b); try lia
    | |- context [(?a =? ?b)%N] => destruct (N.eqb_spec a b); try lia
    end; simpl.

Ltac case_scrutinee :=
  match goal with
  | |- context [match ?x with _ => _ end] =>
      lazymatch x with
      | context [match _ with _ => _ end] => fail
      | _ => destruct x eqn:?
      end
  end.

Ltac split_list E :=
  lazymatch type of E with
  | [] = ?t1 ++ _ :: _ => by destruct t1
  | _ :: _ = ?t1 ++ _ :: _ =>
      let x := fresh "x" in
      destruct t1 as [|x t1]; cbn in E;
      [ try discriminate E | injection E as <- E; split_list E ]
  end.

(** * Properties *)

(** ** The library models on concrete inputs *)

Example posix_join_ex1 : PosixPath.join (u "/home/me") (u ".config") = u "/home/me/.config".
Proof. reflexivity. Qed.

Example posix_join_ex2 : PosixPath.join (u "/") (u ".config") = u "/.config".
Proof. reflexivity. Qed.

Example posix_splitext_ex1 :
  PosixPath.splitext (u "/a/b/video.mov") = (u "/a/b/video", u ".mov").
Proof. reflexivity. Qed.

Example posix_splitext_ex2 : PosixPath.splitext (u "/a.b/.bashrc") = (u "/a.b/.bashrc", []).
Proof. reflexivity. Qed.

Example posix_splitext_ex3 : PosixPath.splitext (u "/a/..x.tar.gz") = (u "/a/..x.tar", u ".gz").
Proof. reflexivity. Qed.

Example posix_abspath_ex1 :
  PosixPath.abspath (u "/home/me") (u "../you/./v.mov") = u "/home/you/v.mov".
Proof. reflexivity. Qed.

Example posix_abspath_ex2 : PosixPath.abspath (u "/home/me") (u "//x//y/") = u "//x/y".
Proof. reflexivity. Qed.

Example posix_dirname_ex1 : PosixPath.dirname (u "/home/me/.config") = u "/home/me".
Proof. reflexivity. Qed.

Example posix_dirname_ex2 : PosixPath.dirname (u "/x") = u "/".
Proof. reflexivity. Qed.

Example nt_join_ex1 :
  NtPath.join (u "C:\Users\me") (u ".config") = u "C:\Users\me\.config".
Proof. reflexivity. Qed.

Example nt_join_ex2 : NtPath.join (u "C:") (u ".config") = u "C:.config".
Proof. reflexivity. Qed.

Example nt_join_ex3 :
  NtPath.join (u "\\srv\share") (u ".config") = u "\\srv\share\.config".
Proof. reflexivity. Qed.

Example nt_join_ex4 : NtPath.join (u "C:/Users/me/") (u ".config") = u "C:/Users/me/.config".
Proof. reflexivity. Qed.

Example nt_splitext_ex1 :
  NtPath.splitext (u "C:\v.d/clip.mov") = (u "C:\v.d/clip", u ".mov").
Proof. reflexivity. Qed.

Example nt_dirname_ex1 : NtPath.dirname (u "C:\Users\me\.config") = u "C:\Users\me".
Proof. reflexivity. Qed.

Example nt_dirname_ex2 : NtPath.dirname (u "C:\x") = u "C:\".
Proof. reflexivity. Qed.

Example loads_ex1 :
  loads sample_text
  = Some (JObj [(u "a", JStr [120; 10; 233]%N); (u "b", JObj [])]).
Proof. reflexivity. Qed.

Example loads_ex2 : loads [] = None.
Proof. reflexivity. Qed.

Example loads_ex3 : loads (u "{} x") = None.
Proof. reflexivity. Qed.

Example loads_ex4 : loads (u "[1.5, 2e, 3]") = None.
Proof. reflexivity. Qed.

Example iterencode_ex1 :
  iterencode (PDict [(u "ffmpeg", PStr ([47; 233; 128512; 34]%N))])
  = (u "{" ++ [34%N] ++ u "ffmpeg" ++ [34%N] ++ u ": " ++ [34%N]
       ++ u "/\u00e9\ud83d\ude00\" ++ [34%N; 34%N] ++ u "}", true).
Proof. reflexivity. Qed.

Example iterencode_ex2 : iterencode (PFile (u "/x")) = ([], false).
Proof. reflexivity. Qed.

Example demo_config_paths :
  get_convid_config_dir_file Demo.env = (u "/home/me/.config", u "/home/me/.config/convid.json").
Proof. reflexivity. Qed.

(** ** The JSON round trip *)

Import PyStr.

Lemma land_shiftl_low h l : (l < 1024)%N -> N.land (N.shiftl h 10) l = 0%N.
Proof.
  intros Hl. apply N.bits_inj_0. intros i. rewrite N.land_spec.
  destruct (N.lt_ge_cases i 10) as [Hi|Hi].
  - by rewrite N.shiftl_spec_low.
  - rewrite (N.bits_above_log2 l i), andb_false_r; [done|].
    destruct (N.eq_dec l 0%N) as [->|]; [simpl; lia|].
    apply N.log2_lt_pow2; [lia|]. eapply N.lt_le_trans; [apply Hl|].
    change 1024%N with (2 ^ 10)%N. by apply N.pow_le_mono_r.
Qed.

Lemma lor_shiftl_low h l : (l < 1024 -> N.lor (N.shiftl h 10) l = h * 1024 + l)%N.
Proof.
  intros Hl. rewrite <- N.lxor_lor, <- N.add_nocarry_lxor by by apply land_shiftl_low.
  by rewrite N.shiftl_mul_pow2.
Qed.

Lemma hex_val_digit d : (d < 16)%N -> hex_val (hex_digit d) = Some d.
Proof.
  intros Hd. unfold hex_val, hex_digit. bool_cases; f_equal; lia.
Qed.

Lemma hex4_sum n :
  (n < 65536 ->
   ((n / 4096 mod 16 * 16 + n / 256 mod 16) * 16 + n / 16 mod 16) * 16 + n mod 16 = n)%N.
Proof. intros. divmod_lia. Qed.

Lemma decode_hex4 n rest : (n < 65536)%N -> decode_uXXXX (hex4 n ++ rest) = Some (n, rest).
Proof.
  intros Hn. unfold hex4. simpl.
  rewrite !hex_val_digit by (apply N.mod_lt; lia).
  by rewrite hex4_sum.
Qed.

Lemma high_half_eq c :
  (0x10000 <= c < 0x110000 -> high_half c = 0xd800 + (c - 0x10000) / 1024)%N.
Proof.
  intros Hc. unfold high_half.
  change 0xd800%N with (N.shiftl 54 10). change 0x3ff%N with (N.ones 10).
  rewrite N.land_ones, N.shiftr_div_pow2. change (2 ^ 10)%N with 1024%N.
  rewrite lor_shiftl_low by (apply N.mod_lt; lia).
  change (N.shiftl 54 10) with 0xd800%N.
  rewrite N.mod_small; divmod_lia.
Qed.

Lemma low_half_eq c :
  (0x10000 <= c -> low_half c = 0xdc00 + (c - 0x10000) mod 1024)%N.
Proof.
  intros Hc. unfold low_half.
  change 0xdc00%N with (N.shiftl 55 10). change 0x3ff%N with (N.ones 10).
  rewrite N.land_ones. change (2 ^ 10)%N with 1024%N.
  rewrite lor_shiftl_low by (apply N.mod_lt; lia).
  change (N.shiftl 55 10) with 0xdc00%N. lia.
Qed.

Lemma join_halves c :
  (0x10000 <= c < 0x110000)%N -> join_surrogates (high_half c) (low_half c) = c.
Proof.
  intros Hc. unfold join_surrogates.
  rewrite high_half_eq, low_half_eq by lia.
  replace (0xd800 + (c - 0x10000) / 1024 - 0xd800)%N with ((c - 0x10000) / 1024)%N by divmod_lia.
  replace (0xdc00 + (c - 0x10000) mod 1024 - 0xdc00)%N with ((c - 0x10000) mod 1024)%N by divmod_lia.
  rewrite lor_shiftl_low by (apply N.mod_lt; lia).
  divmod_lia.
Qed.

Lemma high_half_range c :
  (0x10000 <= c < 0x110000)%N -> (0xd800 <= high_half c <= 0xdbff)%N.
Proof.
  intros Hc. rewrite high_half_eq by done. divmod_lia.
Qed.

Lemma low_half_range c : (0x10000 <= c)%N -> (0xdc00 <= low_half c <= 0xdfff)%N.
Proof.
  intros Hc. rewrite low_half_eq by done. divmod_lia.
Qed.

Lemma startswith_u_prefix tail : startswith (backslash :: ord "u" :: tail) u_prefix = true.
Proof. unfold startswith, u_prefix. cbn. by apply bool_decide_eq_true. Qed.

Lemma scanstring_u_escape fuel uni tail :
  (uni < 65536)%N ->
  (is_high_surrogate uni = true -> no_low_escape tail) ->
  scanstring (S fuel) (u_escape uni ++ tail) = push uni (scanstring fuel tail).
Proof.
  intros Huni Hsafe. unfold u_escape. cbn [app scanstring].
  change (backslash =? dquote)%N with false. change (backslash =? backslash)%N with true.
  change (ord "u" =? ord "u")%N with true. cbv iota.
  rewrite decode_hex4 by done.
  destruct (is_high_surrogate uni) eqn:Hhigh; [|done].
  unfold no_low_escape, u_prefix in Hsafe. cbn [andb].
  destruct (Hsafe eq_refl) as [-> | (uni2 & rest2 & -> & ->)]; [done|].
  by destruct (startswith _ _).
Qed.

Lemma scanstring_pair fuel c tail :
  (0x10000 <= c < 0x110000)%N ->
  scanstring (S fuel) (u_escape (high_half c) ++ u_escape (low_half c) ++ tail)
  = push c (scanstring fuel tail).
Proof.
  intros Hc. pose proof (high_half_range c Hc). pose proof (low_half_range c (proj1 Hc)).
  unfold u_escape at 1. cbn [app scanstring].
  change (backslash =? dquote)%N with false. change (backslash =? backslash)%N with true.
  change (ord "u" =? ord "u")%N with true. cbv iota.
  rewrite decode_hex4 by lia.
  replace (is_high_surrogate (high_half c)) with true
    by (unfold is_high_surrogate; bool_cases; done).
  unfold u_escape. cbn [app]. rewrite startswith_u_prefix. cbn [andb skipn]. rewrite drop_0. rewrite decode_hex4 by lia.
  replace (is_low_surrogate (low_half c)) with true
    by (unfold is_low_surrogate; bool_cases; done).
  by rewrite join_halves.
Qed.

Lemma scanstring_short fuel esc ch tail :
  esc ≠ ord "u" -> unescape esc = Some ch ->
  scanstring (S fuel) (backslash :: esc :: tail) = push ch (scanstring fuel tail).
Proof.
  intros Hesc Hch. cbn [scanstring].
  change (backslash =? dquote)%N with false. change (backslash =? backslash)%N with true.
  cbv iota. destruct (N.eqb_spec esc (ord "u")); [done|]. by rewrite Hch.
Qed.

Lemma scanstring_plain fuel c tail :
  c ≠ dquote -> c ≠ backslash -> (32 <= c)%N ->
  scanstring (S fuel) (c :: tail) = push c (scanstring fuel tail).
Proof.
  intros H1 H2 H3. cbn [scanstring].
  destruct (N.eqb_spec c dquote); [done|]. destruct (N.eqb_spec c backslash); [done|].
  destruct (N.ltb_spec c 32); [lia|done].
Qed.

Lemma escape_char_cases c :
  (c < 0x110000)%N ->
  (exists esc, escape_char c = [backslash; esc] /\ esc ≠ ord "u" /\ unescape esc = Some c)
  \/ (escape_char c = [c] /\ c ≠ dquote /\ c ≠ backslash /\ (32 <= c)%N)
  \/ (escape_char c = u_escape c /\ (c < 65536)%N)
  \/ (escape_char c = u_escape (high_half c) ++ u_escape (low_half c) /\ (0x10000 <= c)%N).
Proof.
  intros Hc. unfold escape_char.
  destruct (N.eqb_spec c backslash) as [->|]; [left; eexists; repeat split; done|].
  destruct (N.eqb_spec c dquote) as [->|]; [left; eexists; repeat split; done|].
  destruct (N.eqb_spec c 8) as [->|]; [left; eexists; repeat split; done|].
  destruct (N.eqb_spec c 12) as [->|]; [left; eexists; repeat split; done|].
  destruct (N.eqb_spec c 10) as [->|]; [left; eexists; repeat split; done|].
  destruct (N.eqb_spec c 13) as [->|]; [left; eexists; repeat split; done|].
  destruct (N.eqb_spec c 9) as [->|]; [left; eexists; repeat split; done|].
  destruct (N.leb_spec 32 c); destruct (N.leb_spec c 126); simpl;
    try (right; left; done);
    (destruct (N.ltb_spec c 0x10000); [right; right; left; done | right; right; right; done]).
Qed.

Lemma scanstring_escape_char fuel c tail :
  (c < 0x110000)%N ->
  (is_high_surrogate c = true -> no_low_escape tail) ->
  scanstring (S fuel) (escape_char c ++ tail) = push c (scanstring fuel tail).
Proof.
  intros Hc Hsafe.
  destruct (escape_char_cases c Hc)
    as [(esc & -> & ? & ?) | [(-> & ? & ? & ?) | [(-> & ?) | (-> & ?)]]].
  - by apply scanstring_short.
  - by apply scanstring_plain.
  - by apply scanstring_u_escape.
  - rewrite <- app_assoc. by apply scanstring_pair.
Qed.

Lemma escape_char_no_low_escape c rest :
  (c < 0x110000)%N -> is_low_surrogate c = false -> no_low_escape (escape_char c ++ rest).
Proof.
  intros Hc Hlow.
  destruct (escape_char_cases c Hc)
    as [(esc & -> & ? & ?) | [(-> & ? & ? & ?) | [(-> & ?) | (-> & ?)]]].
  - left. unfold startswith. apply bool_decide_eq_false. cbn. intros [=]. done.
  - left. unfold startswith. apply bool_decide_eq_false. cbn. intros [=]. done.
  - right. exists c, rest. split; [|done]. cbn. by apply decode_hex4.
  - right. exists (high_half c), (u_escape (low_half c) ++ rest). split.
    + rewrite <- app_assoc. cbn. apply decode_hex4.
      pose proof (high_half_range c). lia.
    + pose proof (high_half_range c). unfold is_low_surrogate. bool_cases; try done; lia.
Qed.

Lemma scanstring_encoded p : forall fuel rest,
  no_surrogate_pair p = true -> (length p < fuel)%nat ->
  scanstring fuel (concat (map escape_char p) ++ dquote :: rest) = Some (p, rest).
Proof.
  induction p as [|c p IH]; intros fuel rest Hwf Hfuel;
    (destruct fuel as [|fuel]; [simpl in Hfuel; lia|]).
  - cbn. done.
  - cbn [no_surrogate_pair] in Hwf. apply andb_true_iff in Hwf as [Hwf Hp].
    apply andb_true_iff in Hwf as [Hc Hpair]. apply N.ltb_lt in Hc.
    cbn [map concat]. rewrite <- app_assoc.
    rewrite scanstring_escape_char; [|done|].
    + rewrite IH; [done|done|]. simpl in Hfuel. lia.
    + intros Hhigh. rewrite Hhigh in Hpair. destruct p as [|c2 p].
      * left. done.
      * cbn [map concat]. rewrite <- app_assoc. apply escape_char_no_low_escape.
        -- cbn [no_surrogate_pair] in Hp. apply andb_true_iff in Hp as [Hp _].
           apply andb_true_iff in Hp as [Hp _]. by apply N.ltb_lt.
        -- by destruct (is_low_surrogate c2).
Qed.

Lemma escape_char_nonempty c : (1 <= length (escape_char c))%nat.
Proof.
  unfold escape_char.
  repeat match goal with |- context [if ?b then _ else _] => destruct b end; simpl; lia.
Qed.

Lemma escaped_length p : (length p <= length (concat (map escape_char p)))%nat.
Proof.
  induction p as [|c p IH]; [done|]. cbn [map concat]. rewrite length_app.
  pose proof (escape_char_nonempty c). simpl. lia.
Qed.

Lemma iterencode_config p :
  iterencode (PDict [(u "ffmpeg", PStr p)]) = (config_text p, true).
Proof.
  cbn. unfold config_text, encode_basestring_ascii. cbn. by rewrite <- !app_assoc.
Qed.

Lemma scan_once_string fuel p rest :
  no_surrogate_pair p = true ->
  scan_once (S fuel) (dquote :: concat (map escape_char p) ++ dquote :: rest)
  = Some (JStr p, rest).
Proof.
  intros Hp. cbn [scan_once]. change (dquote =? dquote)%N with true. cbv iota.
  rewrite scanstring_encoded; [done|done|].
  rewrite length_app. pose proof (escaped_length p). lia.
Qed.

Lemma scan_once_config fuel s v :
  scan_once (S fuel) (dquote :: s) = Some (v, [ord "}"]) ->
  scan_once (S (S (S fuel))) (u "{" ++ dquote :: u "ffmpeg" ++ dquote :: u ": " ++ dquote :: s)
  = Some (JObj [(u "ffmpeg", v)], []).
Proof.
  intros Hv. 
  change (scan_once (S (S (S fuel))) (u "{" ++ dquote :: u "ffmpeg" ++ dquote :: u ": " ++ dquote :: s))
    with (match scan_once (S fuel) (dquote :: s) with
          | Some (v, s) =>
              match skip_ws s with
              | nextchar :: s =>
                  if (nextchar =? ord "}")%N
                  then Some (JObj (dict_of_pairs ([] ++ [(u "ffmpeg", v)])), s)
                  else if negb (nextchar =? ord ",")%N then None
                       else match skip_ws s with
                            | q :: s => if (q =? dquote)%N then object_loop (S fuel) s ([] ++ [(u "ffmpeg", v)]) else None
                            | [] => None
                            end
              | [] => None
              end
          | None => None
          end).
  rewrite Hv. reflexivity.
Qed.


(** ** The fuel of the decoder

    The decoder's loops are bounded by a counter.  The bound never decides
    a result: the string scanner gives the same answer with any counter
    beyond the length of its input, and a value that some counter parses is
    parsed with any counter that is at least the number of characters it
    takes, which the length of the text is. *)

Lemma skip_ws_length s : (length (skip_ws s) <= length s)%nat.
Proof. induction s as [|c s IH]; cbn; [lia|]. destruct (is_ws c); cbn; lia. Qed.

Lemma decode_uXXXX_length s n rest :
  decode_uXXXX s = Some (n, rest) -> length s = (4 + length rest)%nat.
Proof.
  unfold decode_uXXXX. destruct s as [|a [|b [|c [|d r]]]]; try done.
  destruct (hex_val a), (hex_val b), (hex_val c), (hex_val d); try done.
  by intros [= _ <-].
Qed.

Lemma push_some c r x rest :
  push c r = Some (x, rest) -> exists cs, r = Some (cs, rest) /\ x = c :: cs.
Proof. destruct r as [[cs rest']|]; [|done]. intros [= <- <-]. eauto. Qed.

Lemma scanstring_rest fuel : forall s x rest,
  scanstring fuel s = Some (x, rest) -> (length rest < length s)%nat.
Proof.
  induction fuel as [|fuel IH]; [done|]. intros [|c s] x rest; [done|]. cbn [scanstring].
  destruct (c =? dquote)%N; [intros [= _ <-]; cbn; lia|].
  destruct (c =? backslash)%N.
  - destruct s as [|esc s]; [done|]. destruct (esc =? ord "u")%N.
    + destruct (decode_uXXXX s) as [[uni s1]|] eqn:Hu; [|done].
      apply decode_uXXXX_length in Hu. destruct (_ && _).
      * destruct (decode_uXXXX (drop 2 s1)) as [[uni2 s2]|] eqn:Hu2; [|done].
        apply decode_uXXXX_length in Hu2. rewrite length_drop in Hu2.
        destruct (is_low_surrogate uni2); intros (cs & H%IH & _)%push_some; cbn; lia.
      * intros (cs & H%IH & _)%push_some. cbn. lia.
    + destruct (unescape esc); [|done]. intros (cs & H%IH & _)%push_some. cbn. lia.
  - destruct (c <? 32)%N; [done|]. intros (cs & H%IH & _)%push_some. cbn. lia.
Qed.

Lemma scanstring_fuel n : forall m s,
  (length s < n)%nat -> (length s < m)%nat -> scanstring n s = scanstring m s.
Proof.
  induction n as [|n IH]; [lia|]. intros [|m] [|c s] Hn Hm; try done; [cbn in Hm; lia|].
  cbn [length] in Hn, Hm. cbn [scanstring].
  destruct (c =? dquote)%N; [done|].
  destruct (c =? backslash)%N.
  - destruct s as [|esc s]; [done|]. cbn [length] in Hn, Hm. destruct (esc =? ord "u")%N.
    + destruct (decode_uXXXX s) as [[uni s1]|] eqn:Hu; [|done].
      apply decode_uXXXX_length in Hu. destruct (_ && _).
      * destruct (decode_uXXXX (drop 2 s1)) as [[uni2 s2]|] eqn:Hu2; [|done].
        apply decode_uXXXX_length in Hu2. rewrite length_drop in Hu2.
        destruct (is_low_surrogate uni2); f_equal; apply IH; lia.
      * f_equal. apply IH; lia.
    + destruct (unescape esc); [|done]. f_equal. apply IH; lia.
  - destruct (c <? 32)%N; [done|]. f_equal. apply IH; lia.
Qed.

Lemma span_digits_length s d r : span_digits s = (d, r) -> length s = (length d + length r)%nat.
Proof.
  revert d r. induction s as [|c s IH]; intros d r; cbn.
  - by intros [= <- <-].
  - destruct (is_digit c); [|by intros [= <- <-]].
    destruct (span_digits s) as [d' r']. intros [= <- <-]. cbn. by rewrite (IH d' r').
Qed.

Lemma match_number_rest s lexeme rest :
  match_number s = Some (lexeme, rest) -> (length rest < length s)%nat.
Proof.
  unfold match_number.
  set (signed := match s with
                 | c :: r => if (c =? ord "-")%N then ([c], r) else ([], s)
                 | [] => ([], s)
                 end).
  assert (Hs1 : (length signed.2 <= length s)%nat).
  { subst signed. destruct s as [|c r]; [done|]. destruct (c =? ord "-")%N; cbn; lia. }
  destruct signed as [sign s1]. cbn [snd] in Hs1.
  destruct s1 as [|c r]; [done|].
  assert (Hint : forall int s2,
    (if (c =? ord "0")%N then Some ([c], r)
     else if is_digit c then let '(d, r') := span_digits r in Some (c :: d, r') else None)
    = Some (int, s2) -> (length s2 < length (c :: r))%nat).
  { intros int s2. destruct (c =? ord "0")%N; [intros [= _ <-]; cbn; lia|].
    destruct (is_digit c); [|done]. destruct (span_digits r) as [d r'] eqn:Hd.
    apply span_digits_length in Hd. intros [= _ <-]. cbn. lia. }
  destruct (if (c =? ord "0")%N then _ else _) as [[int s2]|]; [|done].
  specialize (Hint _ _ eq_refl).
  set (fraction := match s2 with
                   | c0 :: r0 =>
                       if (c0 =? ord ".")%N
                       then match span_digits r0 with
                            | ([], _) => ([], s2)
                            | (d, r') => (c0 :: d, r')
                            end
                       else ([], s2)
                   | [] => ([], s2)
                   end).
  assert (Hs3 : (length fraction.2 <= length s2)%nat).
  { subst fraction. destruct s2 as [|c0 r0]; [done|]. destruct (c0 =? ord ".")%N; [|done].
    destruct (span_digits r0) as [[|x d] r'] eqn:Hd; [done|].
    apply span_digits_length in Hd. cbn in *. lia. }
  destruct fraction as [frac s3]. cbn [snd] in Hs3.
  set (exponent := match s3 with
                   | c0 :: r0 =>
                       if ((c0 =? ord "e") || (c0 =? ord "E"))%N
                       then
                         let '(esign, r1) :=
                           match r0 with
                           | c' :: r' =>
                               if ((c' =? ord "-") || (c' =? ord "+"))%N
                               then ([c'], r') else ([], r0)
                           | [] => ([], r0)
                           end in
                         match span_digits r1 with
                         | ([], _) => ([], s3)
                         | (d, r2) => (c0 :: esign ++ d, r2)
                         end
                       else ([], s3)
                   | [] => ([], s3)
                   end).
  assert (Hs4 : (length exponent.2 <= length s3)%nat).
  { subst exponent. destruct s3 as [|c0 r0]; [done|]. destruct (_ || _); [|done].
    assert (Hr1 : (length (match r0 with
                           | c' :: r' =>
                               if ((c' =? ord "-") || (c' =? ord "+"))%N
                               then ([c'], r') else ([], r0)
                           | [] => ([], r0)
                           end).2 <= length r0)%nat).
    { destruct r0 as [|c' r']; [done|]. destruct (_ || _); cbn; lia. }
    destruct (match r0 with [] => _ | _ => _ end) as [esign r1]. cbn [snd] in Hr1.
    destruct (span_digits r1) as [[|x d] r2] eqn:Hd; [done|].
    apply span_digits_length in Hd. cbn in *. lia. }
  destruct exponent as [exp s4]. cbn [snd] in Hs4.
  intros [= _ <-]. lia.
Qed.

Lemma literal_rest s word v v' rest :
  u word ≠ [] -> literal s word v = Some (v', rest) -> (length rest < length s)%nat.
Proof.
  intros Hw. unfold literal, startswith. case_bool_decide as H; [|done].
  intros [= _ <-]. rewrite length_drop.
  apply (f_equal length) in H. rewrite length_take in H.
  destruct (u word); [done|]. cbn [length] in *. lia.
Qed.

Ltac skip_ws_cons H :=
  match type of H with
  | skip_ws ?s = _ :: _ =>
      let L := fresh "Hlen" in
      pose proof (skip_ws_length s) as L; rewrite H in L; cbn [length] in L
  end.

Lemma scan_once_consumes m :
  (forall s v rest, scan_once m s = Some (v, rest) ->
     (length rest < length s)%nat /\
     forall n, (length s - length rest <= n)%nat -> scan_once n s = Some (v, rest)) /\
  (forall s pairs v rest, object_loop m s pairs = Some (v, rest) ->
     (length rest < length s)%nat /\
     forall n, (length s - length rest <= n)%nat -> object_loop n s pairs = Some (v, rest)) /\
  (forall s values v rest, array_loop m s values = Some (v, rest) ->
     (length rest < length s)%nat /\
     forall n, (length s - length rest <= n)%nat -> array_loop n s values = Some (v, rest)).
Proof.
  induction m as [|m (IH1 & IH2 & IH3)]; [done|]. split_and!.
  - intros [|nextchar rest0] v rest; [done|].
    set (s := nextchar :: rest0).
    cut (scan_once (S m) s = Some (v, rest) ->
         (length rest < length s)%nat /\
         forall n, (length s - length rest - 1 <= n)%nat ->
                   scan_once (S n) s = Some (v, rest)).
    { intros H [Hl Hn]%H. split; [done|]. intros [|n] ?; [lia|]. apply Hn. lia. }
    subst s. cbn [scan_once].
    destruct (nextchar =? dquote)%N.
    { destruct (scanstring _ rest0) as [[str rest']|] eqn:Hs; [|done].
      apply scanstring_rest in Hs. intros [= <- <-]. split; [cbn; lia|done]. }
    destruct (nextchar =? ord "{")%N.
    { destruct (skip_ws rest0) as [|c r] eqn:Hw; [done|]. skip_ws_cons Hw.
      destruct (c =? ord "}")%N; [intros [= <- <-]; split; [cbn; lia|done]|].
      destruct (c =? dquote)%N; [|done].
      intros [Hr Hn]%IH2. split; [cbn; lia|]. intros n ?. apply Hn. cbn in *. lia. }
    destruct (nextchar =? ord "[")%N.
    { destruct (skip_ws rest0) as [|c r] eqn:Hw; [done|]. skip_ws_cons Hw.
      destruct (c =? ord "]")%N; [intros [= <- <-]; split; [cbn; lia|done]|].
      intros [Hr Hn]%IH3. cbn [length] in *. split; [lia|]. intros n ?. apply Hn. lia. }
    destruct (startswith _ (u "null"));
      [intros H; split; [|done]; eapply literal_rest; [|exact H]; by vm_compute|].
    destruct (startswith _ (u "true"));
      [intros H; split; [|done]; eapply literal_rest; [|exact H]; by vm_compute|].
    destruct (startswith _ (u "false"));
      [intros H; split; [|done]; eapply literal_rest; [|exact H]; by vm_compute|].
    destruct (match_number _) as [[lexeme rest']|] eqn:Hm.
    { apply match_number_rest in Hm. by intros [= <- <-]. }
    destruct (startswith _ (u "NaN"));
      [intros H; split; [|done]; eapply literal_rest; [|exact H]; by vm_compute|].
    destruct (startswith _ (u "Infinity"));
      intros H; (split; [|done]); (eapply literal_rest; [|exact H]); by vm_compute.
  - intros s pairs v rest.
    cut (object_loop (S m) s pairs = Some (v, rest) ->
         (length rest < length s)%nat /\
         forall n, (length s - length rest - 1 <= n)%nat ->
                   object_loop (S n) s pairs = Some (v, rest)).
    { intros H [Hl Hn]%H. split; [done|]. intros [|n] ?; [lia|]. apply Hn. lia. }
    cbn [object_loop].
    destruct (scanstring _ s) as [[key s1]|] eqn:Hs; [|done]. apply scanstring_rest in Hs.
    destruct (skip_ws s1) as [|colon s2] eqn:Hw1; [done|]. skip_ws_cons Hw1.
    destruct (negb _); [done|].
    pose proof (skip_ws_length s2) as Hlen2.
    destruct (scan_once m (skip_ws s2)) as [[v1 s3]|] eqn:Hv; [|done].
    apply IH1 in Hv as [Hl3 Hn3]. cbn zeta.
    destruct (skip_ws s3) as [|nextchar s4] eqn:Hw3; [done|]. skip_ws_cons Hw3.
    destruct (nextchar =? ord "}")%N eqn:Hc1.
    { intros [= <- <-]. split; [lia|]. intros n ?.
      rewrite Hn3 by lia. by rewrite Hw3, Hc1. }
    destruct (negb (nextchar =? ord ",")%N) eqn:Hc2; [done|].
    destruct (skip_ws s4) as [|q s5] eqn:Hw4; [done|]. skip_ws_cons Hw4.
    destruct (q =? dquote)%N eqn:Hc3; [|done].
    intros [Hl5 Hn5]%IH2. split; [lia|]. intros n ?.
    rewrite Hn3 by lia. rewrite Hw3, Hc1, Hc2, Hw4, Hc3. apply Hn5. lia.
  - intros s values v rest.
    cut (array_loop (S m) s values = Some (v, rest) ->
         (length rest < length s)%nat /\
         forall n, (length s - length rest - 1 <= n)%nat ->
                   array_loop (S n) s values = Some (v, rest)).
    { intros H [Hl Hn]%H. split; [done|]. intros [|n] ?; [lia|]. apply Hn. lia. }
    cbn [array_loop].
    destruct (scan_once m s) as [[v1 s1]|] eqn:Hv; [|done].
    apply IH1 in Hv as [Hl1 Hn1]. cbn zeta.
    destruct (skip_ws s1) as [|nextchar s2] eqn:Hw1; [done|]. skip_ws_cons Hw1.
    destruct (nextchar =? ord "]")%N eqn:Hc1.
    { intros [= <- <-]. split; [lia|]. intros n ?.
      rewrite Hn1 by lia. by rewrite Hw1, Hc1. }
    destruct (negb (nextchar =? ord ",")%N) eqn:Hc2; [done|].
    pose proof (skip_ws_length s2) as Hlen2.
    intros [Hl3 Hn3]%IH3. split; [lia|]. intros n ?.
    rewrite Hn1 by lia. rewrite Hw1, Hc1, Hc2. apply Hn3. lia.
Qed.

(** Whatever counter parses a value, the counter [loads] takes parses it
    too, and to the same value. *)
Lemma scan_once_fuel m s v rest :
  scan_once m s = Some (v, rest) -> scan_once (S (length s)) s = Some (v, rest).
Proof.
  intros [Hl Hn]%(proj1 (scan_once_consumes m)). apply Hn. lia.
Qed.

Lemma loads_fuel m s v rest :
  scan_once m (skip_ws s) = Some (v, rest) -> skip_ws rest = [] -> loads s = Some v.
Proof.
  intros H%scan_once_fuel Hrest. unfold loads. rewrite H.
  by rewrite bool_decide_true.
Qed.

(** ** The runs of the script *)

Lemma bind_return {A B} (m : M A) (k : A -> M B) fs a fs1 t1 :
  m fs = (Return a, fs1, t1) ->
  bind m k fs = ((k a fs1).1.1, (k a fs1).1.2, t1 ++ (k a fs1).2).
Proof. intros E. unfold bind. rewrite E. by destruct (k a fs1) as [[? ?] ?]. Qed.

Lemma bind_stop {A B} (m : M A) (k : A -> M B) fs s fs1 t1 :
  m fs = (Stop s, fs1, t1) -> bind m k fs = (Stop s, fs1, t1).
Proof. intros E. unfold bind. by rewrite E. Qed.

Lemma get_convid_configs_events env fs :
  Forall (config_event env) (get_convid_configs env fs).2
  /\ (forall s, (get_convid_configs env fs).1.1 = Stop s -> exists e, s = Raise e).
Proof.
  unfold get_convid_configs.
  destruct (get_convid_config_dir_file env) as [d f] eqn:Hdf.
  assert (Hd : d = (get_convid_config_dir_file env).1) by by rewrite Hdf.
  assert (Hf : f = (get_convid_config_dir_file env).2) by by rewrite Hdf.
  clear Hdf.
  unfold try_except, bind, Os.open_read, json_load, Os.path_isdir, Os.mkdir, Os.open_write,
    json_dump, ret, stop.
  cbn [iterencode]. rewrite bool_decide_true by done.
  repeat case_scrutinee; cbn.
  all: split; [repeat constructor; done | intros s [=]; eauto].
Qed.

Section RunLemmas.

Variable env : environment.
Variable run_tool : value -> str -> str -> bool -> filesystem -> option exn * filesystem.

Lemma check_video_file_cases video fs :
  let f := Os.path_abspath env video in
  (accepted env video fs
   /\ check_video_file video f fs
      = (Return tt, fs, [EvExists f true; EvIsFile f true; EvAccessR f true]))
  \/ (exists t, rejected env video fs t
                /\ check_video_file video f fs = (Stop (SysExit 1), fs, t)).
Proof.
  intros f. unfold accepted. fold f.
  unfold check_video_file, bind, Os.path_exists, Os.path_isfile, Os.access_r,
    echo, emit, sys_exit, stop, ret.
  destruct (fs !! f) as [[mode c|]|] eqn:Hf; cbn; rewrite ?Hf; cbn; rewrite ?Hf; cbn.
  - destruct (p_read mode) eqn:Hr; cbn.
    + left. split; [eauto|done].
    + right. eexists. split; [by eapply RejNotReadable|done].
  - right. eexists. split; [by apply RejNotFile|done].
  - right. eexists. split; [by apply RejNotExist|done].
Qed.

Lemma check_extension_cases ext old_ext answer fs :
  (old_ext ≠ ext /\ check_extension ext old_ext answer fs = (Return tt, fs, []))
  \/ (old_ext = ext /\ answer = Some true
      /\ check_extension ext old_ext answer fs = (Return tt, fs, [EvConfirm (Some true)]))
  \/ (old_ext = ext /\ answer ≠ Some true
      /\ check_extension ext old_ext answer fs = (Stop Abort, fs, [EvConfirm answer])).
Proof.
  unfold check_extension, confirm, bind, emit, ret, stop.
  case_bool_decide; [|by left]. right.
  destruct answer as [[]|]; cbn; [left | right | right]; done.
Qed.

Lemma convert_video_cases (f new_file : str) (verbose : bool) (fs : filesystem) :
  let quiet := if verbose then false else true in
  (exists e fs1 tc,
      get_convid_configs env fs = (Stop (Raise e), fs1, tc)
      /\ convert_video env run_tool f new_file verbose fs
         = (Stop (SysExit 1), fs1, tc ++ [EvEcho (failure_message e)]))
  \/ (exists config fs1 tc,
         get_convid_configs env fs = (Return config, fs1, tc)
         /\ (forall d, config ≠ JObj d)
         /\ convert_video env run_tool f new_file verbose fs
            = (Stop (SysExit 1), fs1, tc ++ [EvEcho (MsgMisconfigured AttributeError)]))
  \/ (exists d fs1 tc e fs2,
         get_convid_configs env fs = (Return (JObj d), fs1, tc)
         /\ run_tool (executable d) f new_file quiet fs1 = (Some e, fs2)
         /\ convert_video env run_tool f new_file verbose fs
            = (Stop (SysExit 1), fs2,
               tc ++ [EvRun (executable d) f new_file quiet (Some e);
                      EvEcho (failure_message e)]))
  \/ (exists d fs1 tc fs2,
         get_convid_configs env fs = (Return (JObj d), fs1, tc)
         /\ run_tool (executable d) f new_file quiet fs1 = (None, fs2)
         /\ convert_video env run_tool f new_file verbose fs
            = (Return tt, fs2,
               tc ++ [EvRun (executable d) f new_file quiet None;
                      EvEcho (MsgSuccess new_file)])).
Proof.
  intros quiet. unfold convert_video, try_except, bind.
  destruct (get_convid_configs_events env fs) as [_ Hsig].
  destruct (get_convid_configs env fs) as [[[config|s] fs1] tc]; cbn [fst snd] in Hsig.
  2:{ destruct (Hsig s eq_refl) as [e ->]. left. exists e, fs1, tc. split; [done|].
      destruct e; cbn; by rewrite ?app_nil_r. }
  right. destruct config as [| | | | |d].
  1-5: left; eexists _, fs1, tc; (split; [done|]); (split; [done|]); cbn;
       by rewrite ?app_nil_r.
  right. unfold config_get, ret, ffmpeg_run. fold quiet. fold (executable d).
  destruct (run_tool (executable d) f new_file quiet fs1) as [[e|] fs2] eqn:Htool.
  - left. exists d, fs1, tc, e, fs2. split; [done|]. split; [done|].
    destruct e; cbn; by rewrite <- ?app_assoc.
  - right. exists d, fs1, tc, fs2. split; [done|]. split; [done|]. cbn. done.
Qed.

Lemma remove_old_video_cases f remove fs :
  (remove = false /\ remove_old_video env f remove fs = (Return tt, fs, []))
  \/ (exists mode c, remove = true /\ fs !! f = Some (File mode c)
        /\ remove_old_video env f remove fs
           = (Return tt, delete f fs, [EvRemove f None; EvEcho MsgRemoved]))
  \/ (exists e, remove = true /\ (forall mode c, fs !! f ≠ Some (File mode c))
        /\ remove_old_video env f remove fs
           = (Stop (SysExit 1), fs, [EvRemove f (Some e); EvEcho (MsgRemoveFailed e)])).
Proof.
  unfold remove_old_video, try_except, bind, Os.remove, echo, emit, sys_exit, stop.
  destruct remove; [|by left]. right.
  destruct (fs !! f) as [[mode c|]|] eqn:Hf; cbn.
  - left. eauto.
  - right. eexists. split; [done|]. split; [done|]. done.
  - right. eexists. split; [done|]. split; [done|]. done.
Qed.

Lemma convid_run_conversion video ext remove verbose answer fs pre :
  let f := Os.path_abspath env video in
  let new_file := derive_target env f (normalize_ext ext) in
  let r := bind (convert_video env run_tool f new_file verbose)
             (fun _ => bind (remove_old_video env f remove) (fun _ => sys_exit 0)) fs in
  prepared env video ext answer fs pre ->
  convid_run env run_tool video ext remove verbose answer fs r.1.1 r.1.2 (pre ++ r.2).
Proof.
  intros f new_file r Hprep. subst r.
  destruct (convert_video_cases f new_file verbose fs)
    as [(e & fs1 & tc & Hcfg & Hconv)
       | [(config & fs1 & tc & Hcfg & Hnd & Hconv)
         | [(d & fs1 & tc & e & fs2 & Hcfg & Htool & Hconv)
           | (d & fs1 & tc & fs2 & Hcfg & Htool & Hconv)]]].
  - rewrite (bind_stop _ _ _ _ _ _ Hconv). cbn [fst snd]. by eapply RunConfigRaised.
  - rewrite (bind_stop _ _ _ _ _ _ Hconv). cbn [fst snd]. by eapply RunConfigNoDict.
  - rewrite (bind_stop _ _ _ _ _ _ Hconv). cbn [fst snd]. by eapply RunToolFailed.
  - rewrite (bind_return _ _ _ _ _ _ Hconv). cbn [fst snd].
    destruct (remove_old_video_cases f remove fs2)
      as [[Hrm Hrem] | [(mode & c & Hrm & Hf & Hrem) | (e & Hrm & Hf & Hrem)]].
    + rewrite (bind_return _ _ _ _ _ _ Hrem). cbn [fst snd sys_exit stop].
      rewrite !app_nil_r. by eapply RunConverted.
    + rewrite (bind_return _ _ _ _ _ _ Hrem). cbn [fst snd sys_exit stop].
      rewrite app_nil_r, <- app_assoc. cbn [app]. by eapply RunRemoved.
    + rewrite (bind_stop _ _ _ _ _ _ Hrem). cbn [fst snd].
      rewrite <- app_assoc. cbn [app]. by eapply RunRemoveFailed.
Qed.

Theorem convid_runs video ext remove verbose ff answer fs :
  let r := convid env run_tool video ext remove verbose ff answer fs in
  convid_run env run_tool video ext remove verbose answer fs r.1.1 r.1.2 r.2.
Proof.
  intros r. subst r. unfold convid.
  set (f := Os.path_abspath env video).
  rewrite (bind_return (echo MsgStarting) _ fs tt fs [EvEcho MsgStarting]) by done.
  cbn [fst snd].
  destruct (check_video_file_cases video fs) as [[Hacc Hcheck] | (t & Hrej & Hcheck)];
    fold f in Hcheck.
  2:{ rewrite (bind_stop _ _ _ _ _ _ Hcheck). cbn. by apply RunRejected. }
  rewrite (bind_return _ _ _ _ _ _ Hcheck). cbn [fst snd].
  assert (Hext : same_extension env video ext
                 <-> (Os.path_splitext env f).2 = normalize_ext ext) by done.
  assert (Hnew : derive_target env f (normalize_ext ext)
                 = (Os.path_splitext env f).1 ++ normalize_ext ext).
  { unfold derive_target. by destruct (Os.path_splitext env f). }
  destruct (Os.path_splitext env f) as [name old_ext]. cbn [fst snd] in *.
  rewrite <- Hnew.
  destruct (check_extension_cases (normalize_ext ext) old_ext answer fs)
    as [[Hne Hce] | [(Heq & Hans & Hce) | (Heq & Hans & Hce)]].
  - rewrite (bind_return _ _ _ _ _ _ Hce). cbn [fst snd].
    rewrite (bind_return (echo MsgConversionStarting) _ fs tt fs
               [EvEcho MsgConversionStarting]) by done.
    cbn [fst snd].
    apply (convid_run_conversion video ext remove verbose answer fs
             (checked env video ++ [EvEcho MsgConversionStarting])).
    apply PrepDirect; tauto.
  - rewrite (bind_return _ _ _ _ _ _ Hce). cbn [fst snd].
    rewrite (bind_return (echo MsgConversionStarting) _ fs tt fs
               [EvEcho MsgConversionStarting]) by done.
    cbn [fst snd].
    apply (convid_run_conversion video ext remove verbose answer fs
             (checked env video ++ [EvConfirm (Some true); EvEcho MsgConversionStarting])).
    apply PrepConfirmed; tauto.
  - rewrite (bind_stop _ _ _ _ _ _ Hce). cbn.
    apply (RunAborted env run_tool video ext remove verbose answer fs); tauto.
Qed.

End RunLemmas.

(** ** Extensions and target names *)

Import GenericPath.

Lemma rfind_from_spec c s : forall i last,
  rfind_from c s i last = last
  \/ exists k : nat, rfind_from c s i last = i + Z.of_nat k /\ s !! k = Some c.
Proof.
  induction s as [|x r IH]; intros i last; simpl; [by left|].
  destruct (IH (i + 1) (if (x =? c)%N then i else last)) as [E | (k & E & Hk)].
  - rewrite E. destruct (N.eqb_spec x c) as [->|]; [right; exists O | by left].
    split; [lia | done].
  - right. exists (S k). split; [lia | done].
Qed.

Lemma rfind_spec c s :
  rfind c s = -1 \/ exists k : nat, rfind c s = Z.of_nat k /\ s !! k = Some c.
Proof.
  unfold rfind. destruct (rfind_from_spec c s 0 (-1)) as [E | (k & E & Hk)]; [by left|].
  right. exists k. split; [lia | done].
Qed.

Lemma rfind_lower c s : -1 <= rfind c s.
Proof. destruct (rfind_spec c s) as [-> | (k & -> & _)]; lia. Qed.

Lemma sep_index_lower p sep altsep : -1 <= sep_index p sep altsep.
Proof.
  unfold sep_index. pose proof (rfind_lower sep p).
  destruct altsep; lia.
Qed.

Lemma splitext_loop_concat n : forall p e d i,
  (splitext_loop p e d i n).1 ++ (splitext_loop p e d i n).2 = p.
Proof.
  induction n as [|n IH]; intros p e d i; simpl.
  - apply app_nil_r.
  - case_bool_decide; simpl; [apply take_drop | apply IH].
Qed.

Lemma _splitext_concat p sep altsep e :
  (_splitext p sep altsep e).1 ++ (_splitext p sep altsep e).2 = p.
Proof.
  unfold _splitext. destruct (_ >? _); [apply splitext_loop_concat | apply app_nil_r].
Qed.

Lemma _splitext_no_dot p sep altsep e :
  e ∉ final_component p sep altsep -> _splitext p sep altsep e = (p, []).
Proof.
  intros Hno. unfold _splitext.
  destruct (Z.gtb_spec (rfind e p) (sep_index p sep altsep)) as [Hgt|]; [|done].
  exfalso. apply Hno. pose proof (sep_index_lower p sep altsep).
  destruct (rfind_spec e p) as [E | (k & E & Hk)]; [lia|].
  unfold final_component, from. apply list_elem_of_lookup.
  exists (k - Z.to_nat (sep_index p sep altsep + 1))%nat.
  rewrite lookup_drop. rewrite <- Hk. f_equal. lia.
Qed.

Lemma path_splitext_concat env f :
  (Os.path_splitext env f).1 ++ (Os.path_splitext env f).2 = f.
Proof. unfold Os.path_splitext. destruct (os_name env); apply _splitext_concat. Qed.

Lemma derive_target_eq env f ext :
  derive_target env f ext = (Os.path_splitext env f).1 ++ ext.
Proof. unfold derive_target. by destruct (Os.path_splitext env f). Qed.

(** C6. Normalizing an extension twice gives what normalizing it once
    gives, for every extension string; "mp4" and ".mp4" both normalize to
    ".mp4". *)
Theorem normalize_ext_idempotent (ext : str) :
  normalize_ext (normalize_ext ext) = normalize_ext ext
  /\ normalize_ext (u "mp4") = u ".mp4"
  /\ normalize_ext (u ".mp4") = u ".mp4".
Proof.
  split; [|by split].
  unfold normalize_ext. destruct (startswith ext (u ".")) eqn:Hdot; cbn [negb].
  - by rewrite Hdot.
  - replace (startswith (u "." ++ ext) (u ".")) with true; [done|].
    symmetry. unfold startswith. by apply bool_decide_eq_true.
Qed.

(** ** Steps and quiet events *)

Lemma quiet_app q1 q2 : quiet q1 -> quiet q2 -> quiet (q1 ++ q2).
Proof. apply Forall_app_2. Qed.

Lemma quiet_elem q tail ev :
  quiet q -> is_step ev = true -> ev ∈ q ++ tail -> ev ∈ tail.
Proof.
  intros Hq Hev [Hin|Hin]%elem_of_app; [|done].
  rewrite (proj1 (Forall_forall _ _) Hq ev Hin) in Hev. done.
Qed.

Lemma quiet_split q : forall tail t1 ev t2,
  quiet q -> is_step ev = true -> q ++ tail = t1 ++ ev :: t2 ->
  exists t1', t1 = q ++ t1' /\ tail = t1' ++ ev :: t2.
Proof.
  induction q as [|x q IH]; intros tail t1 ev t2 Hq Hev E.
  - exists t1. done.
  - apply Forall_cons in Hq as [Hx Hq]. destruct t1 as [|y t1]; cbn in E.
    + injection E as -> _. congruence.
    + injection E as -> E. destruct (IH _ _ _ _ Hq Hev E) as (t1' & -> & ->).
      exists t1'. done.
Qed.

Lemma config_events_quiet env t : Forall (config_event env) t -> quiet t.
Proof. intros H. eapply Forall_impl; [exact H|]. by intros []. Qed.

Lemma get_convid_configs_quiet env fs o fs1 tc :
  get_convid_configs env fs = (o, fs1, tc) -> quiet tc.
Proof.
  intros E. apply (config_events_quiet env).
  pose proof (proj1 (get_convid_configs_events env fs)) as H. by rewrite E in H.
Qed.

Lemma rejected_quiet env video fs t : rejected env video fs t -> quiet t.
Proof. destruct 1; repeat constructor. Qed.

Lemma checked_quiet env video : quiet (checked env video).
Proof. repeat constructor. Qed.

Lemma prepared_form env video ext answer fs pre :
  prepared env video ext answer fs pre ->
  quiet pre /\ exists rest, pre = checked env video ++ rest.
Proof. destruct 1; (split; [repeat constructor | eauto]). Qed.

Section Summary.

Variable env : environment.
Variable run_tool : value -> str -> str -> bool -> filesystem -> option exn * filesystem.
Variables (video ext : str) (remove verbose : bool) (answer : option bool).
Variable fs : filesystem.

Let f := Os.path_abspath env video.
Let new_file := derive_target env f (normalize_ext ext).
Let quiet_flag := if verbose then false else true.

(** Every run of [convid] is a stretch of quiet events, in which the
    checks come first, followed by one of four endings. *)
Lemma convid_run_summary o fs' t :
  convid_run env run_tool video ext remove verbose answer fs o fs' t ->
  quiet t
  \/ exists q cmd, quiet q /\ EvExists f true ∈ q /\
       ((exists e fs1 m,
            t = q ++ [EvRun cmd f new_file quiet_flag (Some e); EvEcho m]
            /\ o = Stop (SysExit 1)
            /\ run_tool cmd f new_file quiet_flag fs1 = (Some e, fs'))
        \/ (exists m,
               t = q ++ [EvRun cmd f new_file quiet_flag None; EvEcho m]
               /\ o = Stop (SysExit 0) /\ remove = false)
        \/ (exists m r m',
               t = q ++ [EvRun cmd f new_file quiet_flag None; EvEcho m;
                         EvRemove f r; EvEcho m']
               /\ o = Stop (SysExit (match r with Some _ => 1 | None => 0 end)) /\ remove = true)).
Proof.
  assert (Hpre : forall pre o1 fs1 tc,
             prepared env video ext answer fs pre ->
             get_convid_configs env fs = (o1, fs1, tc) ->
             quiet (pre ++ tc) /\ EvExists f true ∈ pre ++ tc).
  { intros pre o1 fs1 tc [Hq [rest ->]]%prepared_form Hcfg%get_convid_configs_quiet.
    split; [by apply quiet_app|]. apply elem_of_app. left. apply elem_of_app. left.
    unfold checked. rewrite !elem_of_cons. auto. }
  destruct 1 as [t Hrej | Hacc Hsame Hans
                 | pre e fs1 tc Hprep Hcfg | pre config fs1 tc Hprep Hcfg Hnd
                 | pre d fs1 tc e fs2 Hprep Hcfg Htool
                 | pre d fs1 tc fs2 Hprep Hcfg Htool Hrm
                 | pre d fs1 tc fs2 mode c Hprep Hcfg Htool Hrm Hf
                 | pre d fs1 tc fs2 e Hprep Hcfg Htool Hrm Hf].
  - left. constructor; [done|]. by eapply rejected_quiet.
  - left. apply quiet_app; [apply checked_quiet | repeat constructor].
  - left. destruct (Hpre _ _ _ _ Hprep Hcfg) as [Hq _].
    rewrite app_assoc. apply quiet_app; [done | repeat constructor].
  - left. destruct (Hpre _ _ _ _ Hprep Hcfg) as [Hq _].
    rewrite app_assoc. apply quiet_app; [done | repeat constructor].
  - right. destruct (Hpre _ _ _ _ Hprep Hcfg) as [Hq Hin].
    exists (pre ++ tc), (executable d). split; [done|]. split; [done|].
    left. exists e, fs1, (failure_message e). by rewrite <- app_assoc.
  - right. destruct (Hpre _ _ _ _ Hprep Hcfg) as [Hq Hin].
    exists (pre ++ tc), (executable d). split; [done|]. split; [done|].
    right. left. eexists. by rewrite <- app_assoc.
  - right. destruct (Hpre _ _ _ _ Hprep Hcfg) as [Hq Hin].
    exists (pre ++ tc), (executable d). split; [done|]. split; [done|].
    right. right. exists (MsgSuccess new_file), None, MsgRemoved. by rewrite <- app_assoc.
  - right. destruct (Hpre _ _ _ _ Hprep Hcfg) as [Hq Hin].
    exists (pre ++ tc), (executable d). split; [done|]. split; [done|].
    right. right. exists (MsgSuccess new_file), (Some e), (MsgRemoveFailed e).
    by rewrite <- app_assoc.
Qed.

End Summary.

(** ** The command line *)

Section Command.

Variable env : environment.
Variable run_tool : value -> str -> str -> bool -> filesystem -> option exn * filesystem.

Lemma bind_ret_l {A B} (a : A) (k : A -> M B) fs : bind (ret a) k fs = k a fs.
Proof. unfold bind, ret. by destruct (k a fs) as [[? ?] ?]. Qed.

(** Without [--ffmpeg] the command is the body. *)
Lemma main_plain video ext remove verbose answer fs :
  main env run_tool
    {| arg_video := Some video; arg_ext := Some ext; opt_remove := remove;
       opt_verbose := verbose; opt_ffmpeg := None |} answer fs
  = standalone (convid env run_tool video ext remove verbose None answer fs).
Proof.
  unfold main, invoke. f_equal.
  rewrite (bind_return (process_ffmpeg_option env _) _ fs tt fs []) by done.
  unfold call_body. cbn [arg_video arg_ext opt_remove opt_verbose opt_ffmpeg app].
  by destruct (convid _ _ _ _ _ _ _ _ _) as [[? ?] ?].
Qed.

Lemma configure_ffmpeg_cases rp value fs :
  configure_ffmpeg env rp value fs = (Return tt, fs, [])
  \/ exists s fs1 t, configure_ffmpeg env rp value fs = (Stop s, fs1, t) /\ quiet t.
Proof.
  unfold configure_ffmpeg. destruct value as [value|]; [|by left].
  destruct (_ || _); [by left|]. right.
  destruct (get_convid_config_dir_file env) as [d f].
  unfold bind, Os.open_write, json_dump, Os.file_write, ctx_exit, stop, ret.
  destruct (iterencode _) as [text ok].
  repeat case_scrutinee; cbn; eexists _, _, _; (split; [done|]); repeat constructor.
Qed.

Lemma process_ffmpeg_option_cases args fs :
  process_ffmpeg_option env args fs = (Return tt, fs, [])
  \/ exists s fs1 t, process_ffmpeg_option env args fs = (Stop s, fs1, t) /\ quiet t.
Proof.
  unfold process_ffmpeg_option. destruct (opt_ffmpeg args) as [value|].
  - destruct (click_path_ok value fs); [apply configure_ffmpeg_cases|].
    right. eexists _, _, _. split; [done|]. repeat constructor.
  - apply configure_ffmpeg_cases.
Qed.

(** The command either never reaches the body, and then leaves quiet
    events and does not return, or is the body. *)
Lemma invoke_cases args answer fs :
  (quiet (invoke env run_tool args answer fs).2
   /\ exists s, (invoke env run_tool args answer fs).1.1 = Stop s)
  \/ exists video ext,
       invoke env run_tool args answer fs
       = convid env run_tool video ext (opt_remove args) (opt_verbose args)
           (opt_ffmpeg args) answer fs.
Proof.
  unfold invoke.
  destruct (process_ffmpeg_option_cases args fs) as [E | (s & fs1 & t & E & Hq)].
  - rewrite (bind_return _ _ _ _ _ _ E). cbn [app]. unfold call_body.
    destruct (arg_video args) as [video|]; [|left; split; [repeat constructor|by eexists]].
    destruct (arg_ext args) as [ext|]; [|left; split; [repeat constructor|by eexists]].
    right. exists video, ext. by destruct (convid _ _ _ _ _ _ _ _ _) as [[? ?] ?].
  - rewrite (bind_stop _ _ _ _ _ _ E). left. split; [done|by eexists].
Qed.

End Command.

(** ** The claims about the workflow *)

Lemma standalone_trace r :
  (standalone r).2 = r.2 \/ (standalone r).2 = r.2 ++ [EvEcho MsgAborted].
Proof. destruct r as [[[?|[]] ?] ?]; cbn; auto. Qed.

Lemma standalone_quiet r : quiet r.2 -> quiet (standalone r).2.
Proof.
  intros Hq. destruct (standalone_trace r) as [-> | ->]; [done|].
  apply quiet_app; [done | repeat constructor].
Qed.

Lemma quiet_no_step t ev : quiet t -> ev ∈ t -> is_step ev = false.
Proof. intros Hq Hin. exact (proj1 (Forall_forall _ _) Hq ev Hin). Qed.

Lemma accepted_not_rejected env video fs t :
  accepted env video fs -> rejected env video fs t -> False.
Proof. intros (mode & c & Hf & Hr). destruct 1; congruence. Qed.

Lemma prepared_accepted env video ext answer fs pre :
  prepared env video ext answer fs pre -> accepted env video fs.
Proof. by destruct 1. Qed.

(** C5. When the resolved source path does not exist, [convid] reports
    it and exits with status 1 after the existence check alone: the file
    system is untouched and the tool is not run.  On every file system, the
    tool runs only after the existence check has succeeded. *)
Theorem missing_video_rejected env run_tool video ext remove verbose ff answer fs0 :
  let f := Os.path_abspath env video in
  let report := [EvEcho MsgStarting; EvExists f false; EvEcho (MsgNotExist video)] in
  fs0 !! f = None ->
  convid env run_tool video ext remove verbose ff answer fs0 = (Stop (SysExit 1), fs0, report)
  /\ main env run_tool
       {| arg_video := Some video; arg_ext := Some ext; opt_remove := remove;
          opt_verbose := verbose; opt_ffmpeg := None |} answer fs0
     = (Exited 1, fs0, report)
  /\ forall fs t1 ev t2,
       is_run ev = true ->
       (convid env run_tool video ext remove verbose ff answer fs).2 = t1 ++ ev :: t2 ->
       EvExists f true ∈ t1.
Proof.
  intros f report Hf. unfold f in Hf.
  assert (Hrun : forall ff', convid env run_tool video ext remove verbose ff' answer fs0
                 = (Stop (SysExit 1), fs0, report)).
  { intros ff'. pose proof (convid_runs env run_tool video ext remove verbose ff' answer fs0) as H.
    cbn zeta in H. destruct (convid _ _ _ _ _ _ _ _ _) as [[o fs'] t]. cbn [fst snd] in H.
    assert (Hna : ~ accepted env video fs0) by (intros (mode & c & Hf' & _); congruence).
    destruct H as [t Hrej | | | | | | | ];
      try (exfalso; apply Hna; done || by eapply prepared_accepted).
    subst report f. destruct Hrej; done || congruence. }
  split; [apply Hrun|]. split; [by rewrite main_plain, Hrun|].
  intros fs t1 ev t2 Hev E.
  pose proof (convid_runs env run_tool video ext remove verbose ff answer fs) as H.
  cbn zeta in H. apply convid_run_summary in H. rewrite E in H.
  assert (Hstep : is_step ev = true) by (unfold is_step; by rewrite Hev).
  destruct H as [Hq | (q & cmd & Hq & Hin & H)].
  - assert (is_step ev = false) by (eapply quiet_no_step; [done|]; apply elem_of_app; right; left). congruence.
  - assert (exists tail, t1 ++ ev :: t2 = q ++ tail) as [tail Etail].
    { destruct H as [(? & ? & ? & -> & _) | [(? & -> & _) | (? & ? & ? & -> & _)]]; eauto. }
    symmetry in Etail. destruct (quiet_split _ _ _ _ _ Hq Hstep Etail) as (t1' & -> & _).
    apply elem_of_app. by left.
Qed.

(** C3. When the source file passes the checks and its extension equals
    the normalized target extension, [convid] asks for confirmation right
    after the checks; when the user declines, it raises [Abort], which is
    not the [sys.exit(1)] of the errors: the file system is unchanged, and
    nothing is converted, opened or removed.  Click reports the abort and
    ends the process with status 1. *)
Theorem declined_confirmation_aborts env run_tool video ext remove verbose ff answer fs :
  accepted env video fs ->
  same_extension env video ext ->
  let r := convid env run_tool video ext remove verbose ff answer fs in
  (exists rest, r.2 = checked env video ++ EvConfirm answer :: rest)
  /\ (answer = Some false ->
      r = (Stop Abort, fs, checked env video ++ [EvConfirm (Some false)])
      /\ r.1.1 ≠ Stop (SysExit 1)
      /\ main env run_tool
           {| arg_video := Some video; arg_ext := Some ext; opt_remove := remove;
              opt_verbose := verbose; opt_ffmpeg := None |} answer fs
         = (Exited 1, fs,
            checked env video ++ [EvConfirm (Some false); EvEcho MsgAborted])).
Proof.
  intros Hacc Hsame r.
  assert (Hrun : forall ff',
    let r' := convid env run_tool video ext remove verbose ff' answer fs in
    (exists rest, r'.2 = checked env video ++ EvConfirm answer :: rest)
    /\ (answer = Some false ->
        r' = (Stop Abort, fs, checked env video ++ [EvConfirm (Some false)]))).
  { intros ff' r'. subst r'.
    pose proof (convid_runs env run_tool video ext remove verbose ff' answer fs) as H.
    cbn zeta in H. destruct (convid _ _ _ _ _ _ _ _ _) as [[o fs'] t]. cbn [fst snd] in *.
    assert (Hprep : forall pre, prepared env video ext answer fs pre ->
              answer = Some true
              /\ pre = checked env video ++ [EvConfirm answer; EvEcho MsgConversionStarting]).
    { destruct 1 as [? Hne | ? ? ->]; [by destruct Hne | done]. }
    destruct H as [t Hrej | | pre ? ? ? Hp | pre ? ? ? Hp | pre ? ? ? ? ? Hp
                   | pre ? ? ? ? Hp | pre ? ? ? ? ? ? Hp | pre ? ? ? ? ? Hp];
      try (destruct (Hprep _ Hp) as [Hans ->]; rewrite <- app_assoc;
           split; [eauto | congruence]).
    - destruct (accepted_not_rejected _ _ _ _ Hacc Hrej).
    - split; [by exists [] | by intros ->]. }
  split; [apply Hrun|]. intros Hans.
  destruct (Hrun ff) as [_ Hr]. specialize (Hr Hans). fold r in Hr.
  split; [done|]. split; [by rewrite Hr|].
  rewrite main_plain. destruct (Hrun None) as [_ Hr']. by rewrite (Hr' Hans).
Qed.

(** C4. When a run of the tool fails, the process exits with status 1,
    nothing is removed (with the remove flag or without it) and the file
    system is left as the tool left it; and whenever a file is removed, a
    successful run of the tool comes before the removal. *)
Theorem failed_conversion_keeps_source env run_tool args answer fs :
  let r := main env run_tool args answer fs in
  (forall cmd input output quiet_flag e,
      EvRun cmd input output quiet_flag (Some e) ∈ r.2 ->
      r.1.1 = Exited 1
      /\ (forall p x, EvRemove p x ∉ r.2)
      /\ exists fs1, run_tool cmd input output quiet_flag fs1 = (Some e, r.1.2))
  /\ (forall t1 p x t2,
        r.2 = t1 ++ EvRemove p x :: t2 ->
        exists cmd input output quiet_flag, EvRun cmd input output quiet_flag None ∈ t1).
Proof.
  intros r. subst r. unfold main.
  assert (Hquiet : forall t, quiet t ->
    (forall cmd input output quiet_flag e,
        EvRun cmd input output quiet_flag (Some e) ∉ t)
    /\ (forall t1 p x t2, t ≠ t1 ++ EvRemove p x :: t2)).
  { intros t Hq. split.
    - intros ????? Hin. by apply (quiet_no_step _ _ Hq) in Hin.
    - intros t1 p x t2 ->.
      assert (Hin : EvRemove p x ∈ t1 ++ EvRemove p x :: t2)
        by (apply elem_of_app; right; left).
      by apply (quiet_no_step _ _ Hq) in Hin. }
  destruct (invoke_cases env run_tool args answer fs) as [[Hq _] | (video & ext & ->)].
  { apply standalone_quiet, Hquiet in Hq as [H1 H2]. split.
    - intros ????? Hin. by apply H1 in Hin.
    - intros ???? E. by apply H2 in E. }
  pose proof (convid_runs env run_tool video ext (opt_remove args) (opt_verbose args)
                (opt_ffmpeg args) answer fs) as H.
  cbn zeta in H. apply convid_run_summary in H.
  destruct (convid _ _ _ _ _ _ _ _ _) as [[o fs'] t]. cbn [fst snd] in H.
  destruct H as [Hq | (q & cmd0 & Hq & _ & H)].
  { apply (standalone_quiet (o, fs', t)), Hquiet in Hq as [H1 H2]. split.
    - intros ????? Hin. by apply H1 in Hin.
    - intros ???? E. by apply H2 in E. }
  destruct H as [(e0 & fs1 & m & -> & -> & Htool)
                | [(m & -> & -> & _) | (m & x0 & m' & -> & -> & _)]];
    cbn [standalone fst snd]; split.
  - intros cmd input output quiet_flag e Hin.
    apply quiet_elem in Hin; [|done..]. rewrite !elem_of_cons in Hin.
    destruct Hin as [[= -> -> -> -> ->] | [[=] | Hin]]; [|by apply elem_of_nil in Hin].
    split; [done|]. split; [|by exists fs1].
    intros p x Hin. apply quiet_elem in Hin; [|done..]. rewrite !elem_of_cons in Hin.
    destruct Hin as [[=] | [[=] | Hin]]. by apply elem_of_nil in Hin.
  - intros t1 p x t2 E. destruct (quiet_split q _ t1 (EvRemove p x) t2 Hq eq_refl E) as (t1' & -> & E').
    split_list E'.
  - intros cmd input output quiet_flag e Hin.
    apply quiet_elem in Hin; [|done..]. rewrite !elem_of_cons in Hin.
    destruct Hin as [[=] | [[=] | Hin]]. by apply elem_of_nil in Hin.
  - intros t1 p x t2 E. destruct (quiet_split q _ t1 (EvRemove p x) t2 Hq eq_refl E) as (t1' & -> & E').
    split_list E'.
  - intros cmd input output quiet_flag e Hin.
    apply quiet_elem in Hin; [|done..]. rewrite !elem_of_cons in Hin.
    destruct Hin as [[=] | [[=] | [[=] | [[=] | Hin]]]]. by apply elem_of_nil in Hin.
  - intros t1 p x t2 E. destruct (quiet_split q _ t1 (EvRemove p x) t2 Hq eq_refl E) as (t1' & -> & E').
    split_list E'. eexists _, _, _, _. apply elem_of_app. right. left.
Qed.


(** ** The configuration file *)

Section Configuration.

Variable env : environment.

Let dir := (get_convid_config_dir_file env).1.
Let file := (get_convid_config_dir_file env).2.

Lemma config_text_nonempty p : config_text p ≠ [].
Proof. done. Qed.

(** What a successful [--ffmpeg] leaves behind. *)
Lemma configure_ffmpeg_saved p fs fs' t :
  configure_ffmpeg env false (Some p) fs = (Stop (CtxExit 0), fs', t) ->
  p ≠ []
  /\ t = [EvOpenWrite file None; EvWrite file (config_text p)]
  /\ (forall q, q ≠ file -> fs' !! q = fs !! q)
  /\ exists mode,
       fs' !! file = Some (File mode (config_text p))
       /\ (fs !! file = None /\ mode = Os.new_file_mode
           \/ exists c, fs !! file = Some (File mode c)).
Proof.
  unfold configure_ffmpeg. subst file.
  destruct (get_convid_config_dir_file env) as [d f]. cbn [snd].
  case_bool_decide as Hp; cbn [orb]; [done|].
  unfold json_dump. rewrite iterencode_config.
  rewrite bool_decide_false by apply config_text_nonempty.
  unfold bind, Os.open_write, Os.file_write, ctx_exit, stop, ret.
  destruct (fs !! f) as [[mode c|]|] eqn:Hf.
  - destruct (p_write mode); [|done]. cbn. intros [= <- <-].
    split; [done|]. split; [done|]. split.
    + intros q Hq. by rewrite lookup_alter_ne, lookup_insert_ne.
    + exists mode. rewrite lookup_alter_eq, lookup_insert_eq. cbn. eauto.
  - done.
  - destruct (Os.parent_error env fs f); [done|]. cbn. intros [= <- <-].
    split; [done|]. split; [done|]. split.
    + intros q Hq. by rewrite lookup_alter_ne, lookup_insert_ne.
    + exists Os.new_file_mode. rewrite lookup_alter_eq, lookup_insert_eq. cbn. eauto.
Qed.

(** Loading a readable configuration file parses its text. *)
Lemma get_convid_configs_present fs mode text v :
  fs !! file = Some (File mode text) -> p_read mode = true -> loads text = Some v ->
  get_convid_configs env fs = (Return v, fs, [EvOpenRead file None]).
Proof.
  unfold get_convid_configs. subst file.
  destruct (get_convid_config_dir_file env) as [d f]. cbn [snd].
  intros Hf Hr Hv. unfold try_except, bind, Os.open_read, json_load.
  rewrite Hf, Hr, Hv. done.
Qed.

End Configuration.


Lemma outcome_eq {A} (r : A * filesystem * list event) (o : A) :
  r.1.1 = o -> r = (o, r.1.2, r.2).
Proof. destruct r as [[? ?] ?]. by intros <-. Defined.



(** C9. A source path whose last component has no dot has no extension
    to replace: the target name is the whole path followed by the
    normalized extension. *)
Theorem derive_target_without_extension env f ext :
  ord "." ∉ Os.path_final_component env f ->
  derive_target env f ext = f ++ ext.
Proof.
  unfold Os.path_final_component, derive_target, Os.path_splitext,
    PosixPath.splitext, NtPath.splitext.
  destruct (os_name env); intros Hno; by rewrite _splitext_no_dot.
Qed.

Lemma derive_target_without_extension_witness :
  (ord "." ∉ Os.path_final_component Demo.env (u "/a.b/video"))
  /\ derive_target Demo.env (u "/a.b/video") (u ".mp4") = u "/a.b/video" ++ u ".mp4".
Proof.
  assert (H : ord "." ∉ Os.path_final_component Demo.env (u "/a.b/video"))
    by (apply (bool_decide_unpack _); vm_compute; exact I).
  split; [exact H | exact (derive_target_without_extension Demo.env _ _ H)].
Defined.

Section ConfigurationPath.

Variable env : environment.

Lemma configure_ffmpeg_events rp value fs :
  Forall (config_event env) (configure_ffmpeg env rp value fs).2.
Proof.
  unfold configure_ffmpeg. destruct value as [value|]; [|constructor].
  destruct (_ || _); [constructor|].
  destruct (get_convid_config_dir_file env) as [d f] eqn:Hdf.
  assert (Hf : f = (get_convid_config_dir_file env).2) by by rewrite Hdf.
  clear Hdf.
  unfold bind, Os.open_write, json_dump, Os.file_write, ctx_exit, stop, ret.
  destruct (iterencode _) as [text ok].
  repeat case_scrutinee; cbn; repeat constructor; done.
Qed.

Lemma config_event_opens ev :
  config_event env ev -> opens_only (get_convid_config_dir_file env).2 ev.
Proof. by destruct ev. Qed.

End ConfigurationPath.

Lemma endswith_last (s : str) (c : N) : endswith s [c] = bool_decide (last s = Some c).
Proof.
  unfold endswith. destruct s as [|x s] using rev_ind; [done|].
  rewrite last_snoc, length_app. cbn [length].
  replace (length s + 1 - 1)%nat with (length s) by lia.
  rewrite drop_app_length.
  replace (1 <=? length s + 1)%nat with true by (symmetry; apply Nat.leb_le; lia).
  rewrite andb_true_r. apply bool_decide_ext. split; congruence.
Qed.

(** On POSIX, with a home directory that is not empty and does not end in
    a slash, the two paths are the home directory followed by
    "/.config" and by "/.config/convid.json". *)
Lemma posix_config_paths env :
  os_name env = Posix ->
  let home := default (u "/home") (environ env !! u "HOME") in
  home ≠ [] -> last home ≠ Some PosixPath.sep ->
  get_convid_config_dir_file env = (home ++ u "/.config", home ++ u "/.config/convid.json").
Proof.
  intros Hos home Hne Hlast.
  unfold get_convid_config_dir_file, Os.path_join, Os.environ_get. rewrite Hos. fold home.
  assert (Hdir : PosixPath.join home (u ".config") = home ++ u "/.config").
  { unfold PosixPath.join. rewrite endswith_last.
    rewrite !bool_decide_false by done. done. }
  rewrite Hdir. f_equal. unfold PosixPath.join. rewrite endswith_last.
  change (home ++ u "/.config") with (home ++ u "/.confi" ++ [ord "g"]).
  rewrite !app_assoc, last_snoc. rewrite !bool_decide_false; [|done|].
  - cbn. by rewrite <- !app_assoc.
  - by destruct home.
Qed.


(** ** Joining the configuration paths *)

Lemma last_app_u (s : str) (w : string) c :
  last (u w) = Some c -> last (s ++ u w) = Some c.
Proof.
  intros H. destruct (u w) as [|x l] eqn:E using rev_ind; [done|].
  rewrite app_assoc, last_snoc. by rewrite last_snoc in H.
Qed.

Lemma open_ended_app is_sep (s : str) (w : string) c :
  last (u w) = Some c -> open_ended is_sep (s ++ u w) = negb (is_sep c).
Proof. intros H. unfold open_ended. by rewrite (last_app_u s w c H). Qed.

(** [posixpath.join] with a relative second path. *)
Lemma posix_join_relative (a b : str) :
  startswith b [PosixPath.sep] = false ->
  PosixPath.join a b
  = a ++ (if open_ended (N.eqb (ord "/")) a then u "/" else []) ++ b.
Proof.
  intros Hb. unfold PosixPath.join, open_ended. rewrite Hb, endswith_last.
  change PosixPath.sep with (ord "/").
  destruct a as [|x a] using rev_ind; [done|]. clear IHa.
  rewrite last_snoc. rewrite (bool_decide_false (_ = [])) by (by destruct a).
  cbn [orb]. destruct (N.eqb_spec (ord "/") x) as [<-|Hx].
  - by rewrite bool_decide_true.
  - rewrite bool_decide_false by congruence. done.
Qed.

Lemma nt_splitdrive_letter c rest :
  NtPath.splitdrive (c :: NtPath.colon :: rest) = ([c; NtPath.colon], rest).
Proof.
  unfold NtPath.splitdrive. cbn [length]. change (2 <=? S (S (length rest)))%nat with true.
  cbn -[NtPath.sep NtPath.altsep NtPath.colon bool_decide].
  rewrite bool_decide_false; [|by intros [= _ ?]].
  done.
Qed.

(** [ntpath.join] of a path on a drive letter with a relative path that
    has no drive. *)
Lemma nt_join_relative c rest (p : str) :
  NtPath.splitdrive p = ([], p) ->
  match p with y :: _ => NtPath.is_sep y | [] => false end = false ->
  NtPath.join (c :: NtPath.colon :: rest) p
  = c :: NtPath.colon :: rest ++ (if open_ended NtPath.is_sep rest then u "\" else []) ++ p.
Proof.
  intros Hp Hhead. unfold NtPath.join, open_ended.
  rewrite nt_splitdrive_letter, Hp, Hhead.
  rewrite (bool_decide_false ([] ≠ [])) by (intros H; by apply H).
  cbn [andb].
  change (last [c; NtPath.colon]) with (Some NtPath.colon).
  cbn match. rewrite N.eqb_refl. cbn [negb]. rewrite andb_false_r.
  destruct (last rest) as [x|]; [destruct (NtPath.is_sep x)|]; cbn [negb];
    by rewrite <- ?app_assoc.
Qed.

(** C10. Loading and saving open and write one path and no other: the
    file [convid.json] in [.config] in the home directory, joined by
    [os.path.join], where the home directory is [USERPROFILE] (or
    "C:\Users") on Windows and [HOME] (or "/home") elsewhere; two
    environments with the same platform and the same variables compute the
    same path.  On POSIX the path is the home directory followed by
    "/.config/convid.json", without the first slash when the home directory
    is empty or ends in a slash.  On Windows, for a home directory made of a
    drive letter, a colon and a rest, it is the home directory followed by
    "\.config\convid.json", without the first backslash when the rest is
    empty or ends in a separator.  So the path is not always the home
    directory followed by "/.config/convid.json": with an empty [HOME] it
    is the relative path ".config/convid.json". *)
Theorem config_file_path env env' :
  os_name env' = os_name env ->
  environ env' = environ env ->
  let home :=
    match os_name env with
    | Nt => default (u "C:\Users") (environ env !! u "USERPROFILE")
    | Posix => default (u "/home") (environ env !! u "HOME")
    end in
  let file := (get_convid_config_dir_file env).2 in
  file = Os.path_join env (Os.path_join env home (u ".config")) (u "convid.json")
  /\ (forall fs, Forall (opens_only file) (get_convid_configs env fs).2)
  /\ (forall rp value fs, Forall (opens_only file) (configure_ffmpeg env rp value fs).2)
  /\ get_convid_config_dir_file env' = get_convid_config_dir_file env
  /\ (os_name env = Posix ->
      file = home ++ (if open_ended (N.eqb (ord "/")) home then u "/" else [])
               ++ u ".config/convid.json")
  /\ (os_name env = Nt ->
      forall c rest,
        home = c :: ord ":" :: rest -> NtPath.is_sep c = false ->
        file = home ++ (if open_ended NtPath.is_sep rest then u "\" else [])
                 ++ u ".config\convid.json").
Proof.
  intros Hos Henv home file.
  assert (Hfile : file = Os.path_join env (Os.path_join env home (u ".config"))
                           (u "convid.json")) by reflexivity.
  split; [done|]. split; [|split; [|split; [|split]]].
  - intros fs. eapply Forall_impl; [apply get_convid_configs_events|].
    intros ev Hev. by apply config_event_opens in Hev.
  - intros rp value fs. eapply Forall_impl; [apply configure_ffmpeg_events|].
    intros ev Hev. by apply config_event_opens in Hev.
  - unfold get_convid_config_dir_file, Os.environ_get, Os.path_join. by rewrite Hos, Henv.
  - intros Hp. rewrite Hfile. unfold Os.path_join. subst home. rewrite Hp.
    set (home := default _ _).
    rewrite (posix_join_relative home (u ".config")) by done.
    rewrite posix_join_relative by done.
    rewrite !app_assoc, (open_ended_app _ _ ".config" (ord "g")) by done.
    cbn [negb]. change (ord "/" =? ord "g")%N with false. cbn [negb].
    by rewrite <- !app_assoc.
  - intros Hnt c rest Hhome Hc. rewrite Hfile. unfold Os.path_join. rewrite Hnt, Hhome.
    change (ord ":") with NtPath.colon.
    rewrite (nt_join_relative c rest (u ".config")) by done.
    rewrite !app_assoc.
    rewrite (nt_join_relative c _ (u "convid.json")) by done.
    rewrite (open_ended_app _ _ ".config" (ord "g")) by done.
    cbn [negb]. change (NtPath.is_sep (ord "g")) with false. cbn [negb].
    by rewrite <- !app_assoc.
Qed.

Lemma config_file_path_witness :
  ((get_convid_config_dir_file Demo.env).2 = u "/home/me/.config/convid.json"
   /\ (forall fs, Forall (opens_only (u "/home/me/.config/convid.json"))
                    (get_convid_configs Demo.env fs).2)
   /\ (forall rp value fs, Forall (opens_only (u "/home/me/.config/convid.json"))
                             (configure_ffmpeg Demo.env rp value fs).2)
   /\ get_convid_config_dir_file Demo.env_elsewhere = get_convid_config_dir_file Demo.env)
  /\ ((get_convid_config_dir_file Demo.env_windows).2 = u "D:\Users\me\.config\convid.json"
      /\ (forall fs, Forall (opens_only (u "D:\Users\me\.config\convid.json"))
                       (get_convid_configs Demo.env_windows fs).2)
      /\ (forall rp value fs, Forall (opens_only (u "D:\Users\me\.config\convid.json"))
                                (configure_ffmpeg Demo.env_windows rp value fs).2)).
Proof.
  split.
  - destruct (config_file_path Demo.env Demo.env_elsewhere eq_refl eq_refl)
      as (_ & Hload & Hsave & Hsame & Hposix & _).
    assert (Hfile : (get_convid_config_dir_file Demo.env).2
                    = u "/home/me/.config/convid.json") by exact (Hposix eq_refl).
    split; [exact Hfile|]. split; [|split]; [| |exact Hsame].
    + intros fs. rewrite <- Hfile. apply Hload.
    + intros rp value fs. rewrite <- Hfile. apply Hsave.
  - destruct (config_file_path Demo.env_windows Demo.env_windows eq_refl eq_refl)
      as (_ & Hload & Hsave & _ & _ & Hnt).
    assert (Hfile : (get_convid_config_dir_file Demo.env_windows).2
                    = u "D:\Users\me\.config\convid.json")
      by exact (Hnt eq_refl (ord "D") (u "\Users\me") eq_refl eq_refl).
    split; [exact Hfile|]. split.
    + intros fs. rewrite <- Hfile. apply Hload.
    + intros rp value fs. rewrite <- Hfile. apply Hsave.
Defined.

(** With [HOME] set to the empty string the configuration is looked for
    in the working directory: the path is the relative ".config/convid.json",
    not "/.config/convid.json". *)
Lemma empty_home_gives_relative_path :
  get_convid_config_dir_file Demo.env_no_home = (u ".config", u ".config/convid.json")
  /\ (get_convid_config_dir_file Demo.env_no_home).2
     ≠ default (u "/home") (environ Demo.env_no_home !! u "HOME") ++ u "/.config/convid.json".
Proof. split; [reflexivity|]. vm_compute. discriminate. Qed.

Example default_config_paths :
  forall vars cwd full,
    vars !! u "HOME" = None -> vars !! u "USERPROFILE" = None ->
    get_convid_config_dir_file
      {| os_name := Posix; environ := vars; getcwd := cwd; nt_abspath := full |}
    = (u "/home/.config", u "/home/.config/convid.json")
    /\ get_convid_config_dir_file
         {| os_name := Nt; environ := vars; getcwd := cwd; nt_abspath := full |}
       = (u "C:\Users\.config", u "C:\Users\.config\convid.json").
Proof.
  intros vars cwd full H1 H2.
  unfold get_convid_config_dir_file, Os.environ_get. cbn [os_name environ].
  by rewrite H1, H2.
Qed.

(** C1.  The code departs from the claim.  When [convid.json] is absent,
    [get_convid_configs] does not return the empty mapping: it always ends
    in an exception.  Where it gets as far as the claim describes (the
    directory present or created, the file created empty), the exception is
    the [TypeError] of [json.dump], which is called with the file where the
    object belongs; with the directory in place that is the only outcome. *)
Theorem load_absent_never_returns env fs :
  let dir := (get_convid_config_dir_file env).1 in
  let file := (get_convid_config_dir_file env).2 in
  fs !! file = None ->
  exists e fs' t,
    get_convid_configs env fs = (Stop (Raise e), fs', t)
    /\ (e = TypeError ->
        fs' !! dir = Some Dir /\ fs' !! file = Some (File Os.new_file_mode []))
    /\ (fs !! dir = Some Dir -> Os.parent_error env fs file = None -> e = TypeError).
Proof.
  intros dir file. subst dir file. unfold get_convid_configs.
  destruct (get_convid_config_dir_file env) as [d f]. cbn [fst snd]. intros Hf.
  change (json_dump (PFile ?p) (PDict [])) with (@stop unit (Raise TypeError)).
  unfold try_except, bind, Os.open_read, Os.path_isdir, Os.mkdir, Os.open_write,
    Os.parent_error, ret, stop.
  rewrite Hf.
  repeat case_scrutinee; cbn in *; simplify_eq.
  all: repeat match goal with
         | H : <[_:=_]> _ !! _ = _ |- _ => rewrite lookup_insert in H; case_decide; simplify_eq
         end.
  all: eexists _, _, _; (split; [reflexivity|]); split;
    [ first [ by intros [=]
            | intros _; split; [|by apply lookup_insert_eq];
              rewrite lookup_insert_ne
                by (intros E; first [by symmetry in E | subst; congruence]);
              first [done | by apply lookup_insert_eq] ]
    | first [ done | by intros; congruence ] ].
Qed.

(** ** The [--ffmpeg] option *)

Lemma configure_ffmpeg_outcomes env p fs :
  p ≠ [] ->
  let file := (get_convid_config_dir_file env).2 in
  let r := configure_ffmpeg env false (Some p) fs in
  (exists e, r = (Stop (Raise e), fs, [EvOpenWrite file (Some e)]))
  \/ (exists fs', r = (Stop (CtxExit 0), fs',
                       [EvOpenWrite file None; EvWrite file (config_text p)])).
Proof.
  intros Hp file r. subst file r. unfold configure_ffmpeg.
  destruct (get_convid_config_dir_file env) as [d f]. cbn [snd].
  rewrite bool_decide_false by done. cbn [orb].
  unfold json_dump. rewrite iterencode_config.
  rewrite bool_decide_false by apply config_text_nonempty.
  unfold bind, Os.open_write, Os.file_write, ctx_exit, stop, ret.
  repeat case_scrutinee; cbn; eauto.
Qed.

(** With a value that click accepts, [--ffmpeg] does nothing but open and
    write the configuration file: either the file cannot be opened, and the
    exception leaves the file system as it was, or the path is saved, every
    other entry of the file system is as before, and the status is 0.  The
    body of the command is never entered. *)
Lemma ffmpeg_option_eager env run_tool args answer value fs :
  opt_ffmpeg args = Some value ->
  click_path_ok value fs = true ->
  value ≠ [] ->
  let file := (get_convid_config_dir_file env).2 in
  let r := main env run_tool args answer fs in
  (exists e, r = (Uncaught e, fs, [EvOpenWrite file (Some e)]))
  \/ (exists fs' mode,
         r = (Exited 0, fs', [EvOpenWrite file None; EvWrite file (config_text value)])
         /\ fs' !! file = Some (File mode (config_text value))
         /\ forall q, q ≠ file -> fs' !! q = fs !! q).
Proof.
  intros Hopt Hok Hval file r. subst r. unfold main, invoke.
  assert (E : process_ffmpeg_option env args fs = configure_ffmpeg env false (Some value) fs)
    by (unfold process_ffmpeg_option; by rewrite Hopt, Hok).
  destruct (configure_ffmpeg_outcomes env value fs Hval) as [[e He] | [fs' He]].
  - left. exists e. rewrite <- E in He. by rewrite (bind_stop _ _ _ _ _ _ He).
  - right. pose proof (configure_ffmpeg_saved env _ _ _ _ He) as (_ & _ & Hframe & mode & Hf & _).
    exists fs', mode. rewrite <- E in He. by rewrite (bind_stop _ _ _ _ _ _ He).
Qed.

(** C8.  The code departs from the claim where the configuration
    directory does not exist yet: [convid --ffmpeg /usr/bin/ffmpeg], with an
    executable that click accepts, in a home without [.config], writes
    nothing; [open] raises [FileNotFoundError], which nothing catches.  (The
    body of the command is not entered and the file system is unchanged.) *)
Theorem ffmpeg_option_without_config_dir run_tool answer :
  click_path_ok (u "/usr/bin/ffmpeg") Demo.fresh = true
  /\ Demo.fresh !! u "/home/me" = Some Dir
  /\ Demo.fresh !! u "/home/me/.config" = None
  /\ main Demo.env run_tool Demo.set_executable answer Demo.fresh
     = (Uncaught FileNotFoundError, Demo.fresh,
        [EvOpenWrite (u "/home/me/.config/convid.json") (Some FileNotFoundError)]).
Proof.
  assert (Hok : click_path_ok (u "/usr/bin/ffmpeg") Demo.fresh = true)
    by (vm_compute; reflexivity).
  split; [done|]. split; [vm_compute; reflexivity|]. split; [vm_compute; reflexivity|].
  assert (Hout : (main Demo.env run_tool Demo.set_executable answer Demo.fresh).1.1
                 = Uncaught FileNotFoundError) by (vm_compute; reflexivity).
  destruct (ffmpeg_option_eager Demo.env run_tool Demo.set_executable answer
              (u "/usr/bin/ffmpeg") Demo.fresh eq_refl Hok) as [[e E] | (fs' & mode & E & _)];
    [done| |]; rewrite E in Hout |- *; cbn in Hout; [|done].
  by injection Hout as ->.
Qed.

(** ** The claims on the concrete machine *)

Lemma load_absent_never_returns_witness :
  exists e fs' t,
    get_convid_configs Demo.env Demo.fresh = (Stop (Raise e), fs', t)
    /\ (e = TypeError ->
        fs' !! (get_convid_config_dir_file Demo.env).1 = Some Dir
        /\ fs' !! (get_convid_config_dir_file Demo.env).2 = Some (File Os.new_file_mode []))
    /\ (Demo.fresh !! (get_convid_config_dir_file Demo.env).1 = Some Dir ->
        Os.parent_error Demo.env Demo.fresh (get_convid_config_dir_file Demo.env).2 = None ->
        e = TypeError).
Proof. apply (load_absent_never_returns Demo.env Demo.fresh). vm_compute. reflexivity. Defined.

(** The first conversion in a fresh home: the directory and the empty file
    appear, and the configuration is not returned. *)
Example demo_load_fresh :
  let r := get_convid_configs Demo.env Demo.fresh in
  r.1.1 = Stop (Raise TypeError)
  /\ r.1.2 !! u "/home/me/.config" = Some Dir
  /\ r.1.2 !! u "/home/me/.config/convid.json" = Some (File Os.new_file_mode [])
  /\ r.2 = [EvOpenRead (u "/home/me/.config/convid.json") (Some FileNotFoundError);
            EvIsDir (u "/home/me/.config") false;
            EvMkdir (u "/home/me/.config") None;
            EvOpenWrite (u "/home/me/.config/convid.json") None].
Proof. repeat split; vm_compute; reflexivity. Qed.

(** The next one finds the empty file, which is not a JSON document. *)
Example demo_load_after_fresh :
  (get_convid_configs Demo.env (get_convid_configs Demo.env Demo.fresh).1.2).1.1
  = Stop (Raise JSONDecodeError).
Proof. vm_compute. reflexivity. Qed.

Lemma declined_confirmation_witness :
  let r := convid Demo.env Demo.tool_ok (u "clip.mov") (u "mov") true false None (Some false)
             Demo.fresh in
  (exists rest, r.2 = checked Demo.env (u "clip.mov") ++ EvConfirm (Some false) :: rest)
  /\ (Some false = Some false ->
      r = (Stop Abort, Demo.fresh, checked Demo.env (u "clip.mov") ++ [EvConfirm (Some false)])
      /\ r.1.1 ≠ Stop (SysExit 1)
      /\ main Demo.env Demo.tool_ok
           {| arg_video := Some (u "clip.mov"); arg_ext := Some (u "mov"); opt_remove := true;
              opt_verbose := false; opt_ffmpeg := None |} (Some false) Demo.fresh
         = (Exited 1, Demo.fresh,
            checked Demo.env (u "clip.mov") ++ [EvConfirm (Some false); EvEcho MsgAborted])).
Proof.
  apply (declined_confirmation_aborts Demo.env Demo.tool_ok (u "clip.mov") (u "mov") true false
           None (Some false) Demo.fresh).
  - exists Demo.rw, (u "MOV"). split; vm_compute; reflexivity.
  - vm_compute. reflexivity.
Defined.

Lemma missing_video_witness :
  let f := Os.path_abspath Demo.env (u "nothere.mov") in
  let report := [EvEcho MsgStarting; EvExists f false; EvEcho (MsgNotExist (u "nothere.mov"))] in
  convid Demo.env Demo.tool_ok (u "nothere.mov") (u "mp4") true false None None Demo.fresh
  = (Stop (SysExit 1), Demo.fresh, report)
  /\ main Demo.env Demo.tool_ok
       {| arg_video := Some (u "nothere.mov"); arg_ext := Some (u "mp4"); opt_remove := true;
          opt_verbose := false; opt_ffmpeg := None |} None Demo.fresh
     = (Exited 1, Demo.fresh, report)
  /\ forall fs t1 ev t2,
       is_run ev = true ->
       (convid Demo.env Demo.tool_ok (u "nothere.mov") (u "mp4") true false None None fs).2
       = t1 ++ ev :: t2 ->
       EvExists f true ∈ t1.
Proof.
  apply (missing_video_rejected Demo.env Demo.tool_ok (u "nothere.mov") (u "mp4") true false
           None None Demo.fresh).
  vm_compute. reflexivity.
Defined.

(** A failing tool with the remove flag set: status 1, the source file
    still there. *)
Example demo_tool_fails :
  let r := main Demo.env Demo.tool_fails Demo.convert_and_remove None Demo.configured in
  r.1.1 = Exited 1
  /\ r.1.2 !! u "/home/me/videos/clip.mov" = Some (File Demo.rw (u "MOV"))
  /\ r.2 = [EvEcho MsgStarting;
            EvExists (u "/home/me/videos/clip.mov") true;
            EvIsFile (u "/home/me/videos/clip.mov") true;
            EvAccessR (u "/home/me/videos/clip.mov") true;
            EvEcho MsgConversionStarting;
            EvOpenRead (u "/home/me/.config/convid.json") None;
            EvRun (JStr (u "/usr/bin/ffmpeg")) (u "/home/me/videos/clip.mov")
              (u "/home/me/videos/clip.mp4") true (Some FfmpegError);
            EvEcho (MsgConversionFailed FfmpegError)].
Proof. repeat split; vm_compute; reflexivity. Qed.

Lemma failed_conversion_witness :
  let r := main Demo.env Demo.tool_fails Demo.convert_and_remove None Demo.configured in
  r.1.1 = Exited 1
  /\ (forall p x, EvRemove p x ∉ r.2)
  /\ exists fs1,
       Demo.tool_fails (JStr (u "/usr/bin/ffmpeg")) (u "/home/me/videos/clip.mov")
         (u "/home/me/videos/clip.mp4") true fs1 = (Some FfmpegError, r.1.2).
Proof.
  apply (proj1 (failed_conversion_keeps_source Demo.env Demo.tool_fails Demo.convert_and_remove
                  None Demo.configured)).
  rewrite (proj2 (proj2 demo_tool_fails)). rewrite !elem_of_cons. auto 10.
Defined.

(** The two successful scenarios: the new file exists, the source file
    stays without the remove flag and goes with it, the status is 0. *)
Example demo_convert :
  let args := {| arg_video := Some (u "clip.mov"); arg_ext := Some (u "mp4");
                 opt_remove := false; opt_verbose := false; opt_ffmpeg := None |} in
  let r := main Demo.env Demo.tool_ok args None Demo.configured in
  r.1.1 = Exited 0
  /\ r.1.2 !! u "/home/me/videos/clip.mp4" = Some (File Demo.rw (u "MP4"))
  /\ r.1.2 !! u "/home/me/videos/clip.mov" = Some (File Demo.rw (u "MOV")).
Proof. repeat split; vm_compute; reflexivity. Qed.

Example demo_convert_and_remove :
  let r := main Demo.env Demo.tool_ok Demo.convert_and_remove None Demo.configured in
  r.1.1 = Exited 0
  /\ r.1.2 !! u "/home/me/videos/clip.mp4" = Some (File Demo.rw (u "MP4"))
  /\ r.1.2 !! u "/home/me/videos/clip.mov" = None.
Proof. repeat split; vm_compute; reflexivity. Qed.

(** [--ffmpeg] once the directory exists. *)
Example demo_set_executable :
  let r := main Demo.env Demo.tool_ok Demo.set_executable None Demo.with_config_dir in
  r.1.1 = Exited 0
  /\ r.1.2 !! u "/home/me/.config/convid.json"
     = Some (File Os.new_file_mode (config_text (u "/usr/bin/ffmpeg")))
  /\ r.2 = [EvOpenWrite (u "/home/me/.config/convid.json") None;
            EvWrite (u "/home/me/.config/convid.json") (config_text (u "/usr/bin/ffmpeg"))].
Proof. repeat split; vm_compute; reflexivity. Qed.

(** The comparison of the extensions is exact: "MOV" is not "mov", and no
    confirmation is asked for. *)
Example demo_case_sensitive :
  let r := main Demo.env Demo.tool_ok
             {| arg_video := Some (u "clip.mov"); arg_ext := Some (u "MOV");
                opt_remove := false; opt_verbose := false; opt_ffmpeg := None |}
             (Some false) Demo.configured in
  r.1.1 = Exited 0
  /\ r.1.2 !! u "/home/me/videos/clip.MOV" = Some (File Demo.rw (u "MP4"))
  /\ Forall (fun ev => match ev with EvConfirm _ => False | _ => True end) r.2.
Proof.
  repeat split; [vm_compute; reflexivity..|].
  assert (E : exists t, (main Demo.env Demo.tool_ok
             {| arg_video := Some (u "clip.mov"); arg_ext := Some (u "MOV");
                opt_remove := false; opt_verbose := false; opt_ffmpeg := None |}
             (Some false) Demo.configured).2 = t /\
             Forall (fun ev => match ev with EvConfirm _ => False | _ => True end) t).
  { eexists. split; [vm_compute; reflexivity|]. repeat constructor. }
  destruct E as (t & -> & H). exact H.
Qed.

(** * Further properties *)

(** ** The configuration paths, platform by platform *)

(** X1. On POSIX the configuration directory is the home directory joined
    with ".config": the home directory itself followed by "/.config",
    without the slash when the home directory ends in one, and the relative
    path ".config" when the home directory is the empty string.  The file
    is always the directory followed by "/convid.json". *)
Theorem posix_config_dir_file env :
  os_name env = Posix ->
  let home := default (u "/home") (environ env !! u "HOME") in
  let dir := if bool_decide (home = []) then u ".config"
             else if bool_decide (last home = Some (ord "/")) then home ++ u ".config"
             else home ++ u "/.config" in
  get_convid_config_dir_file env = (dir, dir ++ u "/convid.json").
Proof.
  intros Hos home dir. unfold get_convid_config_dir_file, Os.path_join, Os.environ_get.
  rewrite Hos. fold home.
  assert (Hdir : PosixPath.join home (u ".config") = dir).
  { unfold PosixPath.join, dir. rewrite endswith_last.
    change (startswith (u ".config") [PosixPath.sep]) with false. cbn [orb].
    change PosixPath.sep with (ord "/").
    destruct (bool_decide (home = [])) eqn:E1; cbn [orb].
    - apply bool_decide_eq_true in E1. by rewrite E1.
    - by destruct (bool_decide (last home = Some (ord "/"))). }
  rewrite Hdir. f_equal. unfold PosixPath.join. rewrite endswith_last.
  change (startswith (u "convid.json") [PosixPath.sep]) with false.
  assert (Hlast : last dir = Some (ord "g")).
  { unfold dir. repeat case_bool_decide; [done| |]; by apply last_app_u. }
  rewrite Hlast. rewrite (bool_decide_false (dir = [])) by (by intros E; rewrite E in Hlast).
  by rewrite bool_decide_false.
Qed.

Lemma posix_config_dir_file_witness :
  get_convid_config_dir_file Demo.env
  = (u "/home/me/.config", u "/home/me/.config" ++ u "/convid.json").
Proof. exact (posix_config_dir_file Demo.env eq_refl). Defined.

(** X2. On Windows, when the home directory is a drive letter, a colon
    and a rest (the default "C:\Users" is one), the configuration directory
    is the home directory followed by "\.config", without the backslash when
    the rest is empty or ends in a separator: for the bare drive "C:" it is
    "C:.config", a path relative to the current directory of that drive.
    The file is the directory followed by "\convid.json". *)
Theorem nt_config_dir_file env c rest :
  os_name env = Nt ->
  default (u "C:\Users") (environ env !! u "USERPROFILE") = c :: ord ":" :: rest ->
  NtPath.is_sep c = false ->
  let dir := c :: ord ":" :: rest
             ++ (if open_ended NtPath.is_sep rest then u "\" else []) ++ u ".config" in
  get_convid_config_dir_file env = (dir, dir ++ u "\convid.json").
Proof.
  intros Hos Hhome _ dir.
  unfold get_convid_config_dir_file, Os.path_join, Os.environ_get. rewrite Hos, Hhome.
  change (ord ":") with NtPath.colon in *.
  rewrite (nt_join_relative c rest (u ".config")) by done. fold dir. f_equal.
  unfold dir. rewrite !app_assoc.
  rewrite (nt_join_relative c _ (u "convid.json")) by done.
  rewrite (open_ended_app _ _ ".config" (ord "g")) by done.
  change (NtPath.is_sep (ord "g")) with false. cbn [negb].
  cbn [app]. by rewrite <- !app_assoc.
Qed.

Lemma nt_config_dir_file_witness :
  get_convid_config_dir_file Demo.env_windows
  = (u "D:\Users\me\.config", u "D:\Users\me\.config" ++ u "\convid.json")
  /\ get_convid_config_dir_file
       {| os_name := Nt; environ := {[ u "USERPROFILE" := u "C:" ]};
          getcwd := u "C:\"; nt_abspath := fun p => p |}
     = (u "C:.config", u "C:.config" ++ u "\convid.json").
Proof.
  split.
  - exact (nt_config_dir_file Demo.env_windows (ord "D") (u "\Users\me")
             eq_refl eq_refl eq_refl).
  - exact (nt_config_dir_file
             {| os_name := Nt; environ := {[ u "USERPROFILE" := u "C:" ]};
                getcwd := u "C:\"; nt_abspath := fun p => p |}
             (ord "C") [] eq_refl eq_refl eq_refl).
Defined.

(** ** What loading the configuration does to the file system *)

Section Loading.

Variable env : environment.

Let dir := (get_convid_config_dir_file env).1.
Let file := (get_convid_config_dir_file env).2.


Lemma get_convid_configs_found fs n :
  fs !! file = Some n ->
  get_convid_configs env fs
  = (match n with
     | File mode text =>
         if p_read mode
         then match loads text with
              | Some v => Return v
              | None => Stop (Raise JSONDecodeError)
              end
         else Stop (Raise PermissionError)
     | Dir => Stop (Raise IsADirectoryError)
     end, fs, [EvOpenRead file (open_error n)]).
Proof.
  unfold get_convid_configs. subst file.
  destruct (get_convid_config_dir_file env) as [d f]. cbn [snd].
  intros Hf. unfold try_except, bind, Os.open_read, json_load. rewrite Hf.
  destruct n as [mode text|]; [|done]. cbn [open_error].
  destruct (p_read mode); [|done]. by destruct (loads text).
Qed.

Lemma get_convid_configs_missing fs :
  fs !! file = None ->
  exists e fs' t,
    get_convid_configs env fs = (Stop (Raise e), fs', t)
    /\ (forall q, q ≠ dir -> q ≠ file -> fs' !! q = fs !! q)
    /\ (e = TypeError -> fs' !! file = Some (File Os.new_file_mode [])).
Proof.
  subst dir file. unfold get_convid_configs.
  destruct (get_convid_config_dir_file env) as [d f]. cbn [fst snd]. intros Hf.
  change (json_dump (PFile ?p) (PDict [])) with (@stop unit (Raise TypeError)).
  unfold try_except, bind, Os.open_read, Os.path_isdir, Os.mkdir, Os.open_write,
    Os.parent_error, ret, stop.
  rewrite Hf.
  repeat case_scrutinee; cbn in *; simplify_eq.
  all: repeat match goal with
         | H : <[_:=_]> _ !! _ = _ |- _ => rewrite lookup_insert in H; case_decide; simplify_eq
         end.
  all: eexists _, _, _; (split; [reflexivity|]); split;
    [ intros q Hd Hq; by rewrite ?lookup_insert_ne
    | first [ by intros [=] | intros _; by apply lookup_insert_eq ] ].
Qed.

(** A value is returned only when it was read from the file. *)
Lemma get_convid_configs_returns fs v fs' t :
  get_convid_configs env fs = (Return v, fs', t) ->
  fs' = fs /\ t = [EvOpenRead file None]
  /\ exists mode text,
       fs !! file = Some (File mode text) /\ p_read mode = true /\ loads text = Some v.
Proof.
  destruct (fs !! file) as [n|] eqn:Hf.
  - rewrite (get_convid_configs_found fs n Hf).
    destruct n as [mode text|]; [|done]. cbn [open_error].
    destruct (p_read mode) eqn:Hr; [|done].
    destruct (loads text) as [v'|] eqn:Hv; [|done].
    intros [= <- <- <-]. eauto 10.
  - destruct (get_convid_configs_missing fs Hf) as (e & fs1 & t1 & -> & _). done.
Qed.

Lemma get_convid_configs_frame fs q :
  q ≠ dir -> q ≠ file -> (get_convid_configs env fs).1.2 !! q = fs !! q.
Proof.
  intros Hd Hq. destruct (fs !! file) as [n|] eqn:Hf.
  - by rewrite (get_convid_configs_found fs n Hf).
  - destruct (get_convid_configs_missing fs Hf) as (e & fs1 & t1 & -> & Hfr & _).
    by apply Hfr.
Qed.

End Loading.

(** X3. When something is at the path of the configuration file, loading
    only reads: the file system is left as it is and [open] is the one call
    made.  A value is returned only from a readable file, and it is the
    value the text of the file parses to.  A directory or a file that is not
    readable ends the load in the exception [open] raises, and a readable
    file whose text is not a JSON document in an exception of [json.load].
    No exception is handled: nothing is repaired or created. *)
Theorem load_present_outcomes env fs n :
  let file := (get_convid_config_dir_file env).2 in
  fs !! file = Some n ->
  exists o r,
    get_convid_configs env fs = (o, fs, [EvOpenRead file r])
    /\ (forall v, o = Return v ->
          r = None
          /\ exists mode text,
               n = File mode text /\ p_read mode = true /\ loads text = Some v)
    /\ ((forall mode text, n = File mode text -> p_read mode = false) ->
        exists e, o = Stop (Raise e) /\ r = Some e)
    /\ (forall mode text,
          n = File mode text -> p_read mode = true -> loads text = None ->
          r = None /\ exists e, o = Stop (Raise e)).
Proof.
  intros file Hf. rewrite (get_convid_configs_found env fs n Hf). fold file.
  eexists _, _. split; [reflexivity|].
  destruct n as [mode text|]; cbn [open_error].
  - destruct (p_read mode) eqn:Hr.
    + destruct (loads text) as [v|] eqn:Hv.
      * split; [|split].
        -- intros ? [= <-]. eauto 10.
        -- intros H. by rewrite (H mode text eq_refl) in Hr.
        -- intros ? ? [= <- <-] _ Hn. by rewrite Hn in Hv.
      * split; [done|]. split.
        -- intros H. by rewrite (H mode text eq_refl) in Hr.
        -- intros ? ? _ _ _. eauto.
    + split; [done|]. split; [by eauto|].
      intros ? ? [= <- <-] Hr'. by rewrite Hr' in Hr.
  - split; [done|]. split; [by eauto|]. done.
Qed.

Lemma load_present_outcomes_witness :
  exists o r,
    get_convid_configs Demo.env Demo.configured
    = (o, Demo.configured, [EvOpenRead (get_convid_config_dir_file Demo.env).2 r])
    /\ (forall v, o = Return v ->
          r = None
          /\ exists mode text,
               File Demo.rw (config_text (u "/usr/bin/ffmpeg")) = File mode text
               /\ p_read mode = true /\ loads text = Some v)
    /\ ((forall mode text,
            File Demo.rw (config_text (u "/usr/bin/ffmpeg")) = File mode text ->
            p_read mode = false) ->
        exists e, o = Stop (Raise e) /\ r = Some e)
    /\ (forall mode text,
          File Demo.rw (config_text (u "/usr/bin/ffmpeg")) = File mode text ->
          p_read mode = true -> loads text = None ->
          r = None /\ exists e, o = Stop (Raise e)).
Proof.
  exact (load_present_outcomes Demo.env Demo.configured
           (File Demo.rw (config_text (u "/usr/bin/ffmpeg"))) eq_refl).
Defined.

(** X4. The empty file that a first load leaves behind is not a JSON
    document: when loading without a configuration file has ended in the
    [TypeError] of the misplaced [json.dump], loading again ends in
    [JSONDecodeError], and changes nothing. *)
Theorem load_after_failed_creation env fs fs' t :
  let file := (get_convid_config_dir_file env).2 in
  fs !! file = None ->
  get_convid_configs env fs = (Stop (Raise TypeError), fs', t) ->
  get_convid_configs env fs'
  = (Stop (Raise JSONDecodeError), fs', [EvOpenRead file None]).
Proof.
  intros file Hf Hfirst.
  destruct (get_convid_configs_missing env fs Hf) as (e & fs1 & t1 & Hr & _ & Hnew).
  rewrite Hfirst in Hr. injection Hr as <- <- <-.
  by rewrite (get_convid_configs_found env fs' _ (Hnew eq_refl)).
Qed.

Lemma load_after_failed_creation_witness :
  get_convid_configs Demo.env (get_convid_configs Demo.env Demo.fresh).1.2
  = (Stop (Raise JSONDecodeError), (get_convid_configs Demo.env Demo.fresh).1.2,
     [EvOpenRead (u "/home/me/.config/convid.json") None]).
Proof.
  apply (load_after_failed_creation Demo.env Demo.fresh _
           (get_convid_configs Demo.env Demo.fresh).2); [reflexivity|].
  apply outcome_eq. vm_compute. reflexivity.
Defined.

(** ** The command, outcome by outcome *)

Section CommandOutcomes.

Variable env : environment.
Variable run_tool : value -> str -> str -> bool -> filesystem -> option exn * filesystem.

Let dir := (get_convid_config_dir_file env).1.
Let file := (get_convid_config_dir_file env).2.

(** The five ways the command line is dealt with: a value of [--ffmpeg]
    that click refuses, one that cannot be saved, one that is saved, a
    missing argument, and the body. *)
Lemma invoke_outcomes args answer fs :
  let r := invoke env run_tool args answer fs in
  (exists value,
      opt_ffmpeg args = Some value /\ click_path_ok value fs = false
      /\ r = (Stop (SysExit 2), fs, [EvEcho (MsgBadParameter value)]))
  \/ (exists value e,
         opt_ffmpeg args = Some value /\ click_path_ok value fs = true
         /\ r = (Stop (Raise e), fs, [EvOpenWrite file (Some e)]))
  \/ (exists value fs',
         opt_ffmpeg args = Some value /\ click_path_ok value fs = true
         /\ r = (Stop (CtxExit 0), fs', [EvOpenWrite file None; EvWrite file (config_text value)])
         /\ forall q, q ≠ file -> fs' !! q = fs !! q)
  \/ (exists name,
         (arg_video args = None \/ arg_ext args = None)
         /\ r = (Stop (SysExit 2), fs, [EvEcho (MsgMissingArgument name)]))
  \/ (exists video ext,
         arg_video args = Some video /\ arg_ext args = Some ext
         /\ r = convid env run_tool video ext (opt_remove args) (opt_verbose args)
                  (opt_ffmpeg args) answer fs).
Proof.
  intros r. subst r. unfold invoke.
  assert (Hbody : process_ffmpeg_option env args fs = (Return tt, fs, []) ->
    (exists name,
         (arg_video args = None \/ arg_ext args = None)
         /\ bind (process_ffmpeg_option env args) (fun _ => call_body env run_tool args answer) fs
            = (Stop (SysExit 2), fs, [EvEcho (MsgMissingArgument name)]))
    \/ (exists video ext,
         arg_video args = Some video /\ arg_ext args = Some ext
         /\ bind (process_ffmpeg_option env args) (fun _ => call_body env run_tool args answer) fs
            = convid env run_tool video ext (opt_remove args) (opt_verbose args)
                (opt_ffmpeg args) answer fs)).
  { intros E. rewrite (bind_return _ _ _ _ _ _ E). cbn [app]. unfold call_body.
    destruct (arg_video args) as [video|]; [|left; eexists; split; [by left|done]].
    destruct (arg_ext args) as [ext|]; [|left; eexists; split; [by right|done]].
    right. exists video, ext. by destruct (convid _ _ _ _ _ _ _ _ _) as [[? ?] ?]. }
  destruct (opt_ffmpeg args) as [value|] eqn:Hopt.
  - destruct (click_path_ok value fs) eqn:Hok.
    + assert (E : process_ffmpeg_option env args fs
                  = configure_ffmpeg env false (Some value) fs)
        by (unfold process_ffmpeg_option; by rewrite Hopt, Hok).
      destruct (decide (value = [])) as [->|Hval].
      { do 3 right. apply Hbody. by rewrite E. }
      destruct (configure_ffmpeg_outcomes env value fs Hval) as [[e He] | [fs' He]].
      * right. left. exists value, e. rewrite <- E in He.
        by rewrite (bind_stop _ _ _ _ _ _ He).
      * right. right. left.
        pose proof (configure_ffmpeg_saved env _ _ _ _ He) as (_ & _ & Hframe & _).
        exists value, fs'. rewrite <- E in He. by rewrite (bind_stop _ _ _ _ _ _ He).
    + left. exists value. split; [done|]. split; [done|].
      rewrite (bind_stop _ _ fs (SysExit 2) fs [EvEcho (MsgBadParameter value)]); [done|].
      unfold process_ffmpeg_option. by rewrite Hopt, Hok.
  - do 3 right. apply Hbody. unfold process_ffmpeg_option. by rewrite Hopt.
Qed.

End CommandOutcomes.

Section BodyOutcomes.

Variable env : environment.
Variable run_tool : value -> str -> str -> bool -> filesystem -> option exn * filesystem.
Variables (video ext : str) (remove verbose : bool) (ff : option str) (answer : option bool).
Variable fs : filesystem.

Let dir := (get_convid_config_dir_file env).1.
Let file := (get_convid_config_dir_file env).2.
Let f := Os.path_abspath env video.
Let new_file := derive_target env f (normalize_ext ext).
Let quiet_flag := if verbose then false else true.

(** The runs of [convid] with the configuration resolved: either the tool
    is not run, and then nothing but the configuration directory and file
    can have changed, or the configuration file was read as a dictionary
    and the tool was run once on the file system as it was. *)
Lemma convid_outcomes :
  let r := convid env run_tool video ext remove verbose ff answer fs in
  (quiet r.2
   /\ (r.1.1 = Stop (SysExit 1) \/ r.1.1 = Stop Abort)
   /\ forall q, q ≠ dir -> q ≠ file -> r.1.2 !! q = fs !! q)
  \/ exists mode text d pre fs2,
       fs !! file = Some (File mode text) /\ p_read mode = true
       /\ loads text = Some (JObj d)
       /\ prepared env video ext answer fs pre
       /\ ((exists e,
              run_tool (executable d) f new_file quiet_flag fs = (Some e, fs2)
              /\ r = (Stop (SysExit 1), fs2,
                      pre ++ [EvOpenRead file None;
                              EvRun (executable d) f new_file quiet_flag (Some e);
                              EvEcho (failure_message e)]))
           \/ (run_tool (executable d) f new_file quiet_flag fs = (None, fs2)
               /\ remove = false
               /\ r = (Stop (SysExit 0), fs2,
                       pre ++ [EvOpenRead file None;
                               EvRun (executable d) f new_file quiet_flag None;
                               EvEcho (MsgSuccess new_file)]))
           \/ (run_tool (executable d) f new_file quiet_flag fs = (None, fs2)
               /\ remove = true
               /\ (exists m c, fs2 !! f = Some (File m c))
               /\ r = (Stop (SysExit 0), delete f fs2,
                       pre ++ [EvOpenRead file None;
                               EvRun (executable d) f new_file quiet_flag None;
                               EvEcho (MsgSuccess new_file);
                               EvRemove f None; EvEcho MsgRemoved]))
           \/ (exists e,
                 run_tool (executable d) f new_file quiet_flag fs = (None, fs2)
                 /\ remove = true
                 /\ (forall m c, fs2 !! f ≠ Some (File m c))
                 /\ r = (Stop (SysExit 1), fs2,
                         pre ++ [EvOpenRead file None;
                                 EvRun (executable d) f new_file quiet_flag None;
                                 EvEcho (MsgSuccess new_file);
                                 EvRemove f (Some e); EvEcho (MsgRemoveFailed e)]))).
Proof.
  intros r. subst r.
  pose proof (convid_runs env run_tool video ext remove verbose ff answer fs) as H.
  cbn zeta in H. destruct (convid _ _ _ _ _ _ _ _ _) as [[o fs'] t]. cbn [fst snd] in *.
  assert (Hpre : forall pre o1 fs1 tc m,
             prepared env video ext answer fs pre ->
             get_convid_configs env fs = (o1, fs1, tc) ->
             quiet (pre ++ tc ++ [EvEcho m])).
  { intros pre o1 fs1 tc m [Hq _]%prepared_form Hcfg%get_convid_configs_quiet.
    repeat apply quiet_app; [done..|repeat constructor]. }
  destruct H as [t Hrej | Hacc Hsame Hans
                 | pre e fs1 tc Hprep Hcfg | pre config fs1 tc Hprep Hcfg Hnd
                 | pre d fs1 tc e fs2 Hprep Hcfg Htool
                 | pre d fs1 tc fs2 Hprep Hcfg Htool Hrm
                 | pre d fs1 tc fs2 mode c Hprep Hcfg Htool Hrm Hf
                 | pre d fs1 tc fs2 e Hprep Hcfg Htool Hrm Hf].
  - left. split; [|by auto]. constructor; [done|]. by eapply rejected_quiet.
  - left. split; [|by auto]. apply quiet_app; [apply checked_quiet | repeat constructor].
  - left. split; [by eapply Hpre|]. split; [by auto|].
    intros q Hd Hq. pose proof (get_convid_configs_frame env fs q Hd Hq) as Hfr.
    by rewrite Hcfg in Hfr.
  - left. split; [by eapply Hpre|]. split; [by auto|].
    by apply get_convid_configs_returns in Hcfg as (-> & _).
  - right. apply get_convid_configs_returns in Hcfg as (-> & -> & mode & text & ? & ? & ?).
    exists mode, text, d, pre, fs2. do 4 (split; [done|]). left. by exists e.
  - right. apply get_convid_configs_returns in Hcfg as (-> & -> & mode & text & ? & ? & ?).
    exists mode, text, d, pre, fs2. do 4 (split; [done|]). right. left. done.
  - right. apply get_convid_configs_returns in Hcfg as (-> & -> & mode' & text & ? & ? & ?).
    exists mode', text, d, pre, fs2. do 4 (split; [done|]). right. right. left. eauto 6.
  - right. apply get_convid_configs_returns in Hcfg as (-> & -> & mode & text & ? & ? & ?).
    exists mode, text, d, pre, fs2. do 4 (split; [done|]). right. right. right. by exists e.
Qed.

End BodyOutcomes.

Ltac elem_cases H :=
  rewrite ?elem_of_app, ?elem_of_cons, ?elem_of_nil in H;
  repeat match type of H with _ \/ _ => destruct H as [H|H] end;
  try done; try discriminate H.

Lemma standalone_step_elem r ev :
  is_step ev = true -> ev ∈ (standalone r).2 -> ev ∈ r.2.
Proof.
  intros Hev. destruct (standalone_trace r) as [-> | ->]; [done|].
  intros [H|H]%elem_of_app; [done|]. apply list_elem_of_singleton in H. by subst.
Qed.

Lemma prepared_no_step env video ext answer fs pre ev :
  prepared env video ext answer fs pre -> is_step ev = true -> ev ∉ pre.
Proof.
  intros [Hq _]%prepared_form Hev Hin. apply (quiet_no_step _ _ Hq) in Hin. congruence.
Qed.

(** X5. The tool is run only on a configuration that was read: whenever
    an invocation runs ffmpeg, both arguments were given, the configuration
    file existed, was readable and held a JSON object; the command run is
    the value of its key "ffmpeg", or "ffmpeg" when it has none; the input
    is the absolute source path, the output the derived target name, and
    the tool is quiet exactly when [--verbose] is off. *)
Theorem tool_run_uses_configuration env run_tool args answer fs
    cmd input output quiet_flag result :
  EvRun cmd input output quiet_flag result ∈ (main env run_tool args answer fs).2 ->
  exists video ext mode text d,
    arg_video args = Some video /\ arg_ext args = Some ext
    /\ fs !! (get_convid_config_dir_file env).2 = Some (File mode text)
    /\ p_read mode = true /\ loads text = Some (JObj d)
    /\ cmd = default (JStr (u "ffmpeg")) (dict_lookup (u "ffmpeg") d)
    /\ input = Os.path_abspath env video
    /\ output = derive_target env input (normalize_ext ext)
    /\ quiet_flag = negb (opt_verbose args).
Proof.
  unfold main. intros Hin%standalone_step_elem; [|done].
  destruct (invoke_outcomes env run_tool args answer fs)
    as [(v & _ & _ & E) | [(v & e & _ & _ & E) | [(v & fs' & _ & _ & E & _)
       | [(name & _ & E) | (video & ext & Hv & He & E)]]]];
    rewrite E in Hin; cbn [snd] in Hin; try by elem_cases Hin.
  clear E. exists video, ext.
  destruct (convid_outcomes env run_tool video ext (opt_remove args) (opt_verbose args)
              (opt_ffmpeg args) answer fs)
    as [(Hq & _) | (mode & text & d & pre & fs2 & Hf & Hr & Hl & Hprep & H)].
  { by apply (quiet_no_step _ _ Hq) in Hin. }
  exists mode, text, d. do 5 (split; [done|]).
  assert (Hpre : EvRun cmd input output quiet_flag result ∉ pre)
    by by eapply prepared_no_step.
  assert (Hflag : (if opt_verbose args then false else true) = negb (opt_verbose args))
    by by destruct (opt_verbose args).
  destruct H as [(e & _ & E) | [(_ & _ & E) | [(_ & _ & _ & E) | (e & _ & _ & _ & E)]]];
    rewrite E in Hin; cbn [snd] in Hin; apply elem_of_app in Hin as [Hin|Hin]; try done;
    elem_cases Hin; by injection Hin as -> -> -> -> ->.
Qed.

Lemma tool_run_uses_configuration_witness :
  exists video ext mode text d,
    arg_video Demo.convert_and_remove = Some video
    /\ arg_ext Demo.convert_and_remove = Some ext
    /\ Demo.configured !! (get_convid_config_dir_file Demo.env).2 = Some (File mode text)
    /\ p_read mode = true /\ loads text = Some (JObj d)
    /\ JStr (u "/usr/bin/ffmpeg") = default (JStr (u "ffmpeg")) (dict_lookup (u "ffmpeg") d)
    /\ u "/home/me/videos/clip.mov" = Os.path_abspath Demo.env video
    /\ u "/home/me/videos/clip.mp4"
       = derive_target Demo.env (u "/home/me/videos/clip.mov") (normalize_ext ext)
    /\ true = negb (opt_verbose Demo.convert_and_remove).
Proof.
  apply (tool_run_uses_configuration Demo.env Demo.tool_ok Demo.convert_and_remove None
           Demo.configured (JStr (u "/usr/bin/ffmpeg")) (u "/home/me/videos/clip.mov")
           (u "/home/me/videos/clip.mp4") true None).
  assert (E : (main Demo.env Demo.tool_ok Demo.convert_and_remove None Demo.configured).2
              = [EvEcho MsgStarting;
                 EvExists (u "/home/me/videos/clip.mov") true;
                 EvIsFile (u "/home/me/videos/clip.mov") true;
                 EvAccessR (u "/home/me/videos/clip.mov") true;
                 EvEcho MsgConversionStarting;
                 EvOpenRead (u "/home/me/.config/convid.json") None;
                 EvRun (JStr (u "/usr/bin/ffmpeg")) (u "/home/me/videos/clip.mov")
                   (u "/home/me/videos/clip.mp4") true None;
                 EvEcho (MsgSuccess (u "/home/me/videos/clip.mp4"));
                 EvRemove (u "/home/me/videos/clip.mov") None;
                 EvEcho MsgRemoved])
    by (vm_compute; reflexivity).
  rewrite E. do 6 apply list_elem_of_further. apply list_elem_of_here.
Defined.

Lemma convid_stops env run_tool video ext remove verbose ff answer fs :
  let o := (convid env run_tool video ext remove verbose ff answer fs).1.1 in
  o = Stop (SysExit 0) \/ o = Stop (SysExit 1) \/ o = Stop Abort.
Proof.
  intros o. subst o.
  destruct (convid_outcomes env run_tool video ext remove verbose ff answer fs)
    as [(_ & [-> | ->] & _) | (mode & text & d & pre & fs2 & _ & _ & _ & _ & H)]; [by auto..|].
  destruct H as [(e & _ & ->) | [(_ & _ & ->) | [(_ & _ & _ & ->) | (e & _ & _ & _ & ->)]]];
    by auto.
Qed.

(** ** The exits of the command *)

Section RemovedLemmas.

Variable env : environment.
Variable run_tool : value -> str -> str -> bool -> filesystem -> option exn * filesystem.

Let file := (get_convid_config_dir_file env).2.

(** With its working directory in place the process is the one of
    [convid] and [main]. *)
Lemma convid_at_present video ext remove verbose ff answer :
  convid_at env run_tool false video ext remove verbose ff answer
  = convid env run_tool video ext remove verbose ff answer.
Proof. done. Qed.

Lemma main_at_present args answer fs :
  main_at env run_tool false args answer fs = main env run_tool args answer fs.
Proof.
  unfold main_at, main, invoke, call_body_at, call_body.
  by destruct (arg_video args), (arg_ext args).
Qed.

(** What the eager option does before the body is called. *)
Lemma process_ffmpeg_option_outcomes args fs :
  let r := process_ffmpeg_option env args fs in
  r = (Return tt, fs, [])
  \/ (exists value,
         opt_ffmpeg args = Some value /\ click_path_ok value fs = false
         /\ r = (Stop (SysExit 2), fs, [EvEcho (MsgBadParameter value)]))
  \/ (exists value e,
         opt_ffmpeg args = Some value
         /\ r = (Stop (Raise e), fs, [EvOpenWrite file (Some e)]))
  \/ (exists value fs',
         opt_ffmpeg args = Some value
         /\ r = (Stop (CtxExit 0), fs',
                 [EvOpenWrite file None; EvWrite file (config_text value)])).
Proof.
  intros r. subst r. unfold process_ffmpeg_option.
  destruct (opt_ffmpeg args) as [value|]; [|by left].
  destruct (click_path_ok value fs) eqn:Hok; [|right; left; by exists value].
  destruct (decide (value = [])) as [->|Hval]; [by left|].
  destruct (configure_ffmpeg_outcomes env value fs Hval) as [[e He] | [fs' He]].
  - right. right. left. by exists value, e.
  - do 3 right. by exists value, fs'.
Qed.

Lemma convid_at_stops cwd_gone video ext remove verbose ff answer fs :
  let r := convid_at env run_tool cwd_gone video ext remove verbose ff answer fs in
  r.1.1 = Stop (SysExit 0) \/ r.1.1 = Stop (SysExit 1) \/ r.1.1 = Stop Abort
  \/ (abspath_fails env cwd_gone video = true
      /\ r = (Stop (Raise FileNotFoundError), fs, [EvEcho MsgStarting])).
Proof.
  intros r. subst r. unfold convid_at.
  destruct (abspath_fails env cwd_gone video); [by do 3 right|].
  pose proof (convid_stops env run_tool video ext remove verbose ff answer fs) as H.
  cbn zeta in H. tauto.
Qed.

End RemovedLemmas.

Section RemovedOutcomes.

Variable env : environment.
Variable run_tool : value -> str -> str -> bool -> filesystem -> option exn * filesystem.

Let file := (get_convid_config_dir_file env).2.

(** The ways an invocation goes, whether the working directory is there
    or not. *)
Lemma main_at_outcomes cwd_gone args answer fs :
  let r := main_at env run_tool cwd_gone args answer fs in
  (exists value,
      opt_ffmpeg args = Some value /\ click_path_ok value fs = false
      /\ r = (Exited 2, fs, [EvEcho (MsgBadParameter value)]))
  \/ (exists value e,
         opt_ffmpeg args = Some value /\ r = (Uncaught e, fs, [EvOpenWrite file (Some e)]))
  \/ (exists value fs',
         opt_ffmpeg args = Some value
         /\ r = (Exited 0, fs', [EvOpenWrite file None; EvWrite file (config_text value)]))
  \/ (exists name,
         (arg_video args = None \/ arg_ext args = None)
         /\ r = (Exited 2, fs, [EvEcho (MsgMissingArgument name)]))
  \/ (exists video ext,
         arg_video args = Some video /\ arg_ext args = Some ext
         /\ r = standalone (convid_at env run_tool cwd_gone video ext (opt_remove args)
                              (opt_verbose args) (opt_ffmpeg args) answer fs)).
Proof.
  intros r. subst r. unfold main_at.
  destruct (process_ffmpeg_option_outcomes env args fs)
    as [E | [(v & Hv & Hok & E) | [(v & e & Hv & E) | (v & fs' & Hv & E)]]];
    try (rewrite (bind_stop _ _ _ _ _ _ E); cbn [standalone]; by eauto 10).
  rewrite (bind_return _ _ _ _ _ _ E). cbn [app]. unfold call_body_at, call_body.
  destruct (arg_video args) as [video|]; [|do 3 right; left; eexists; split; [by left|done]].
  destruct (arg_ext args) as [ext|]; [|do 3 right; left; eexists; split; [by right|done]].
  do 4 right. exists video, ext. by destruct (convid_at _ _ _ _ _ _ _ _ _ _) as [[? ?] ?].
Qed.

End RemovedOutcomes.


(** [convid clip.mov mp4] from a working directory that has been removed. *)
Example removed_working_directory :
  main_at Demo.env Demo.tool_ok true Demo.convert_and_remove None Demo.configured
  = (Uncaught FileNotFoundError, Demo.configured, [EvEcho MsgStarting]).
Proof. reflexivity. Qed.




(** X8. Status 0 from the body means a conversion: when [convid] ends in
    [sys.exit(0)], the configuration file held a JSON object, the tool was
    run on the file system as it was, with the configured command, the
    absolute source path and the derived target, and succeeded; the file
    system left is the tool's, without the source file when [--remove] is
    on and unchanged otherwise. *)
Theorem successful_conversion env run_tool video ext remove verbose ff answer fs fs' t :
  convid env run_tool video ext remove verbose ff answer fs = (Stop (SysExit 0), fs', t) ->
  let f := Os.path_abspath env video in
  exists mode text d fs2,
    fs !! (get_convid_config_dir_file env).2 = Some (File mode text)
    /\ loads text = Some (JObj d)
    /\ run_tool (executable d) f (derive_target env f (normalize_ext ext))
         (if verbose then false else true) fs = (None, fs2)
    /\ fs' = (if remove then delete f fs2 else fs2).
Proof.
  intros E f. subst f.
  destruct (convid_outcomes env run_tool video ext remove verbose ff answer fs)
    as [(_ & Ho & _) | (mode & text & d & pre & fs2 & Hf & _ & Hl & _ & H)].
  { rewrite E in Ho. by destruct Ho. }
  exists mode, text, d, fs2. do 2 (split; [done|]).
  destruct H as [(e & _ & H) | [(Ht & -> & H) | [(Ht & -> & _ & H) | (e & _ & _ & _ & H)]]];
    rewrite E in H; by simplify_eq.
Qed.

Lemma successful_conversion_witness :
  exists mode text d fs2,
    Demo.configured !! (get_convid_config_dir_file Demo.env).2 = Some (File mode text)
    /\ loads text = Some (JObj d)
    /\ Demo.tool_ok (executable d) (Os.path_abspath Demo.env (u "clip.mov"))
         (derive_target Demo.env (Os.path_abspath Demo.env (u "clip.mov"))
            (normalize_ext (u "mp4")))
         true Demo.configured = (None, fs2)
    /\ (convid Demo.env Demo.tool_ok (u "clip.mov") (u "mp4") true false None None
          Demo.configured).1.2
       = delete (Os.path_abspath Demo.env (u "clip.mov")) fs2.
Proof.
  apply (successful_conversion Demo.env Demo.tool_ok (u "clip.mov") (u "mp4") true false None
           None Demo.configured _
           (convid Demo.env Demo.tool_ok (u "clip.mov") (u "mp4") true false None None
              Demo.configured).2).
  apply outcome_eq. vm_compute. reflexivity.
Defined.

(** X9. When the requested extension is the one the file has, the target
    name is the source path itself: the tool is asked to write onto its own
    input, and with [--remove] a run that ends with status 0 leaves no file
    at that path, the converted one included. *)
Theorem same_extension_overwrites env run_tool video ext verbose ff answer fs :
  same_extension env video ext ->
  let f := Os.path_abspath env video in
  derive_target env f (normalize_ext ext) = f
  /\ Forall (run_targets f f) (convid env run_tool video ext true verbose ff answer fs).2
  /\ ((convid env run_tool video ext true verbose ff answer fs).1.1 = Stop (SysExit 0) ->
      (convid env run_tool video ext true verbose ff answer fs).1.2 !! f = None).
Proof.
  intros Hsame f. unfold same_extension in Hsame. fold f in Hsame.
  assert (Htarget : derive_target env f (normalize_ext ext) = f).
  { rewrite derive_target_eq, <- Hsame. apply path_splitext_concat. }
  split; [done|].
  destruct (convid_outcomes env run_tool video ext true verbose ff answer fs)
    as [(Hq & Ho & _) | (mode & text & d & pre & fs2 & _ & _ & _ & [Hq _]%prepared_form & H)].
  { split.
    - eapply Forall_impl; [exact Hq|]. by intros [].
    - intros E. rewrite E in Ho. by destruct Ho. }
  fold f in H. rewrite Htarget in H.
  assert (Hpre : Forall (run_targets f f) pre)
    by (eapply Forall_impl; [exact Hq|]; by intros []).
  destruct H as [(e & _ & ->) | [(_ & ? & _) | [(_ & _ & _ & ->) | (e & _ & _ & _ & ->)]]];
    [|done| |]; cbn [fst snd]; (split; [|try done]).
  - apply Forall_app. split; [done|]. by repeat constructor.
  - apply Forall_app. split; [done|]. by repeat constructor.
  - intros _. apply lookup_delete_eq.
  - apply Forall_app. split; [done|]. by repeat constructor.
Qed.

Lemma same_extension_overwrites_witness :
  derive_target Demo.env (Os.path_abspath Demo.env (u "clip.mov")) (normalize_ext (u "mov"))
  = Os.path_abspath Demo.env (u "clip.mov")
  /\ Forall (run_targets (Os.path_abspath Demo.env (u "clip.mov"))
               (Os.path_abspath Demo.env (u "clip.mov")))
       (convid Demo.env Demo.tool_ok (u "clip.mov") (u "mov") true false None (Some true)
          Demo.configured).2
  /\ ((convid Demo.env Demo.tool_ok (u "clip.mov") (u "mov") true false None (Some true)
         Demo.configured).1.1 = Stop (SysExit 0) ->
      (convid Demo.env Demo.tool_ok (u "clip.mov") (u "mov") true false None (Some true)
         Demo.configured).1.2 !! Os.path_abspath Demo.env (u "clip.mov") = None).
Proof.
  apply (same_extension_overwrites Demo.env Demo.tool_ok (u "clip.mov") (u "mov") false None
           (Some true) Demo.configured).
  vm_compute. reflexivity.
Defined.

(** X10. A source path that exists but is a directory, or a file that is
    not readable, is refused after the checks that precede the failing
    one: [convid] says which check failed and ends in [sys.exit(1)] with
    the file system untouched. *)
Theorem unusable_video_rejected env run_tool video ext remove verbose ff answer fs n :
  let f := Os.path_abspath env video in
  fs !! f = Some n ->
  match n with File mode _ => p_read mode = false | Dir => True end ->
  convid env run_tool video ext remove verbose ff answer fs
  = (Stop (SysExit 1), fs,
     EvEcho MsgStarting :: EvExists f true ::
       match n with
       | Dir => [EvIsFile f false; EvEcho (MsgNotFile video)]
       | File _ _ => [EvIsFile f true; EvAccessR f false; EvEcho (MsgNotReadable video)]
       end).
Proof.
  intros f Hf Hn. subst f.
  pose proof (convid_runs env run_tool video ext remove verbose ff answer fs) as H.
  cbn zeta in H. destruct (convid _ _ _ _ _ _ _ _ _) as [[o fs'] t]. cbn [fst snd] in H.
  assert (Hna : ~ accepted env video fs).
  { intros (mode & c & Hf' & Hr). rewrite Hf in Hf'. injection Hf' as ->. congruence. }
  destruct H as [t Hrej | | | | | | | ];
    try (exfalso; apply Hna; done || by eapply prepared_accepted).
  destruct Hrej as [Hf' | Hf' | mode c Hf' Hr]; rewrite Hf in Hf'; by simplify_eq.
Qed.

Lemma unusable_video_rejected_witness :
  convid Demo.env Demo.tool_ok (u "/home/me") (u "mp4") true false None None Demo.configured
  = (Stop (SysExit 1), Demo.configured,
     [EvEcho MsgStarting; EvExists (Os.path_abspath Demo.env (u "/home/me")) true;
      EvIsFile (Os.path_abspath Demo.env (u "/home/me")) false;
      EvEcho (MsgNotFile (u "/home/me"))]).
Proof.
  apply (unusable_video_rejected Demo.env Demo.tool_ok (u "/home/me") (u "mp4") true false None
           None Demo.configured Dir); [vm_compute; reflexivity | exact I].
Defined.

(** X11. An invocation in which the tool is not run changes nothing
    outside the configuration: every path other than the configuration
    directory and the configuration file holds afterwards what it held
    before. *)
Theorem untouched_without_tool env run_tool args answer fs q :
  let r := main env run_tool args answer fs in
  Forall (fun ev => is_run ev = false) r.2 ->
  q ≠ (get_convid_config_dir_file env).1 ->
  q ≠ (get_convid_config_dir_file env).2 ->
  r.1.2 !! q = fs !! q.
Proof.
  intros r Hno Hd Hq. subst r. unfold main in *.
  destruct (invoke_outcomes env run_tool args answer fs)
    as [(v & _ & _ & E) | [(v & e & Hv & _ & E) | [(v & fs' & _ & _ & E & Hfr)
       | [(name & _ & E) | (video & ext & _ & _ & E)]]]];
    rewrite E in *; cbn [standalone fst snd] in *; [done..|by apply Hfr|done|].
  clear E.
  destruct (convid_outcomes env run_tool video ext (opt_remove args) (opt_verbose args)
              (opt_ffmpeg args) answer fs)
    as [(_ & Ho & Hfr) | (mode & text & d & pre & fs2 & _ & _ & _ & _ & H)].
  - destruct (convid _ _ _ _ _ _ _ _ _) as [[o fs'] t]. cbn [fst snd] in *.
    destruct Ho as [-> | ->]; cbn; by apply Hfr.
  - exfalso.
    destruct H as [(e & _ & E) | [(_ & _ & E) | [(_ & _ & _ & E) | (e & _ & _ & _ & E)]]];
      rewrite E in Hno; cbn [standalone fst snd] in Hno;
      apply Forall_app in Hno as [_ Hno];
      apply Forall_cons in Hno as [_ Hno]; by apply Forall_cons in Hno as [? _].
Qed.

Lemma untouched_without_tool_witness :
  (main Demo.env Demo.tool_ok Demo.convert_and_remove None Demo.fresh).1.2
    !! u "/home/me/videos/clip.mov"
  = Demo.fresh !! u "/home/me/videos/clip.mov".
Proof.
  apply (untouched_without_tool Demo.env Demo.tool_ok Demo.convert_and_remove None Demo.fresh).
  - assert (E : (main Demo.env Demo.tool_ok Demo.convert_and_remove None Demo.fresh).2
                = [EvEcho MsgStarting;
                   EvExists (u "/home/me/videos/clip.mov") true;
                   EvIsFile (u "/home/me/videos/clip.mov") true;
                   EvAccessR (u "/home/me/videos/clip.mov") true;
                   EvEcho MsgConversionStarting;
                   EvOpenRead (u "/home/me/.config/convid.json") (Some FileNotFoundError);
                   EvIsDir (u "/home/me/.config") false;
                   EvMkdir (u "/home/me/.config") None;
                   EvOpenWrite (u "/home/me/.config/convid.json") None;
                   EvEcho (MsgConversionFailed TypeError)])
      by (vm_compute; reflexivity).
    rewrite E. repeat constructor.
  - vm_compute. discriminate.
  - vm_compute. discriminate.
Defined.

(** X12. The confirmation is asked for in one situation only: whenever
    an invocation prompts, both arguments were given, the source file had
    passed the three checks and its extension equals the normalized target
    extension; the answer recorded is the one given. *)
Theorem confirmation_only_for_same_extension env run_tool args answer fs a :
  EvConfirm a ∈ (main env run_tool args answer fs).2 ->
  exists video ext,
    arg_video args = Some video /\ arg_ext args = Some ext
    /\ accepted env video fs /\ same_extension env video ext /\ a = answer.
Proof.
  unfold main. intros Hin.
  assert (Hin' : EvConfirm a ∈ (invoke env run_tool args answer fs).2).
  { destruct (standalone_trace (invoke env run_tool args answer fs)) as [E | E];
      rewrite E in Hin; [done|]. by elem_cases Hin. }
  clear Hin.
  destruct (invoke_outcomes env run_tool args answer fs)
    as [(v & _ & _ & E) | [(v & e & _ & _ & E) | [(v & fs' & _ & _ & E & _)
       | [(name & _ & E) | (video & ext & Hv & He & E)]]]];
    rewrite E in Hin'; cbn [snd] in Hin'; try by elem_cases Hin'.
  clear E. exists video, ext. do 2 (split; [done|]).
  pose proof (convid_runs env run_tool video ext (opt_remove args) (opt_verbose args)
                (opt_ffmpeg args) answer fs) as H.
  cbn zeta in H. destruct (convid _ _ _ _ _ _ _ _ _) as [[o fs'] t]. cbn [fst snd] in *.
  assert (Hprep : forall pre, prepared env video ext answer fs pre -> EvConfirm a ∈ pre ->
            accepted env video fs /\ same_extension env video ext /\ a = answer).
  { intros pre [Hacc Hns | Hacc Hsame ->] Hp; unfold checked in Hp; elem_cases Hp.
    by injection Hp as ->. }
  assert (Hcfg : forall o1 fs1 tc, get_convid_configs env fs = (o1, fs1, tc) ->
            EvConfirm a ∉ tc).
  { intros o1 fs1 tc Hc Hp.
    pose proof (proj1 (get_convid_configs_events env fs)) as Hev. rewrite Hc in Hev.
    by apply (proj1 (Forall_forall _ _) Hev) in Hp. }
  destruct H as [t Hrej | Hacc Hsame Hans
                 | pre e fs1 tc Hp Hc | pre config fs1 tc Hp Hc Hnd
                 | pre d fs1 tc e fs2 Hp Hc Htool
                 | pre d fs1 tc fs2 Hp Hc Htool Hrm
                 | pre d fs1 tc fs2 mode c Hp Hc Htool Hrm Hf
                 | pre d fs1 tc fs2 e Hp Hc Htool Hrm Hf].
  - destruct Hrej; by elem_cases Hin'.
  - unfold checked in Hin'. elem_cases Hin'. by injection Hin' as ->.
  - elem_cases Hin'; [by eapply Hprep | by eapply Hcfg in Hin'].
  - elem_cases Hin'; [by eapply Hprep | by eapply Hcfg in Hin'].
  - elem_cases Hin'; [by eapply Hprep | by eapply Hcfg in Hin'].
  - elem_cases Hin'; [by eapply Hprep | by eapply Hcfg in Hin'].
  - elem_cases Hin'; [by eapply Hprep | by eapply Hcfg in Hin'].
  - elem_cases Hin'; [by eapply Hprep | by eapply Hcfg in Hin'].
Qed.

Lemma confirmation_only_for_same_extension_witness :
  exists video ext,
    Some (u "clip.mov") = Some video /\ Some (u "mov") = Some ext
    /\ accepted Demo.env video Demo.fresh /\ same_extension Demo.env video ext
    /\ Some false = Some false.
Proof.
  apply (confirmation_only_for_same_extension Demo.env Demo.tool_ok
           {| arg_video := Some (u "clip.mov"); arg_ext := Some (u "mov"); opt_remove := true;
              opt_verbose := false; opt_ffmpeg := None |} (Some false) Demo.fresh (Some false)).
  assert (E : (main Demo.env Demo.tool_ok
                 {| arg_video := Some (u "clip.mov"); arg_ext := Some (u "mov");
                    opt_remove := true; opt_verbose := false; opt_ffmpeg := None |}
                 (Some false) Demo.fresh).2
              = [EvEcho MsgStarting;
                 EvExists (u "/home/me/videos/clip.mov") true;
                 EvIsFile (u "/home/me/videos/clip.mov") true;
                 EvAccessR (u "/home/me/videos/clip.mov") true;
                 EvConfirm (Some false); EvEcho MsgAborted])
    by (vm_compute; reflexivity).
  rewrite E. do 4 apply list_elem_of_further. apply list_elem_of_here.
Defined.

(** X13. Status 2 on a command line that click has parsed: when such an
    invocation ends with status 2, either the value of [--ffmpeg] is not an
    existing readable executable file, or one of the two arguments is
    missing; the one thing done is printing the error, and the file system
    is untouched.  (The usage errors of click's parser itself, which also
    give status 2, come before: see [cli_args].) *)
Theorem usage_errors env run_tool cwd_gone args answer fs :
  let r := main_at env run_tool cwd_gone args answer fs in
  r.1.1 = Exited 2 ->
  r.1.2 = fs
  /\ ((exists value,
          opt_ffmpeg args = Some value /\ click_path_ok value fs = false
          /\ r.2 = [EvEcho (MsgBadParameter value)])
      \/ (exists name,
             (arg_video args = None \/ arg_ext args = None)
             /\ r.2 = [EvEcho (MsgMissingArgument name)])).
Proof.
  intros r. subst r.
  destruct (main_at_outcomes env run_tool cwd_gone args answer fs)
    as [(v & Hv & Hok & ->) | [(v & e & _ & ->) | [(v & fs' & _ & ->)
       | [(name & Hm & ->) | (video & ext & _ & _ & ->)]]]]; cbn [fst snd];
    [by eauto 8|done|done|by eauto 8|].
  pose proof (convid_at_stops env run_tool cwd_gone video ext (opt_remove args)
                (opt_verbose args) (opt_ffmpeg args) answer fs) as E.
  cbn zeta in E. destruct (convid_at _ _ _ _ _ _ _ _ _ _) as [[o fs'] t]. cbn [fst snd] in E.
  by destruct E as [-> | [-> | [-> | [_ [= -> -> ->]]]]].
Qed.

Lemma usage_errors_witness :
  (main_at Demo.env Demo.tool_ok false
     {| arg_video := Some (u "clip.mov"); arg_ext := None; opt_remove := false;
        opt_verbose := false; opt_ffmpeg := None |} None Demo.configured).1.2
  = Demo.configured
  /\ ((exists value,
          None = Some value /\ click_path_ok value Demo.configured = false
          /\ (main_at Demo.env Demo.tool_ok false
                {| arg_video := Some (u "clip.mov"); arg_ext := None; opt_remove := false;
                   opt_verbose := false; opt_ffmpeg := None |} None Demo.configured).2
             = [EvEcho (MsgBadParameter value)])
      \/ (exists name,
             (Some (u "clip.mov") = None \/ @None str = None)
             /\ (main_at Demo.env Demo.tool_ok false
                   {| arg_video := Some (u "clip.mov"); arg_ext := None; opt_remove := false;
                      opt_verbose := false; opt_ffmpeg := None |} None Demo.configured).2
                = [EvEcho (MsgMissingArgument name)])).
Proof.
  apply (usage_errors Demo.env Demo.tool_ok false
           {| arg_video := Some (u "clip.mov"); arg_ext := None; opt_remove := false;
              opt_verbose := false; opt_ffmpeg := None |} None Demo.configured).
  reflexivity.
Defined.

Section Saving.

Variable env : environment.

Let file := (get_convid_config_dir_file env).2.

(** [--ffmpeg] step by step: what [open] decides, and the file left. *)
Lemma configure_ffmpeg_run p fs :
  p ≠ [] ->
  configure_ffmpeg env false (Some p) fs
  = match fs !! file with
    | Some (File mode _) =>
        if p_write mode
        then (Stop (CtxExit 0), <[file := File mode (config_text p)]> fs,
              [EvOpenWrite file None; EvWrite file (config_text p)])
        else (Stop (Raise PermissionError), fs, [EvOpenWrite file (Some PermissionError)])
    | Some Dir =>
        (Stop (Raise IsADirectoryError), fs, [EvOpenWrite file (Some IsADirectoryError)])
    | None =>
        match Os.parent_error env fs file with
        | None =>
            (Stop (CtxExit 0), <[file := File Os.new_file_mode (config_text p)]> fs,
             [EvOpenWrite file None; EvWrite file (config_text p)])
        | Some e => (Stop (Raise e), fs, [EvOpenWrite file (Some e)])
        end
    end.
Proof.
  intros Hp. unfold configure_ffmpeg. subst file.
  destruct (get_convid_config_dir_file env) as [d f]. cbn [snd].
  rewrite bool_decide_false by done. cbn [orb].
  unfold json_dump. rewrite iterencode_config.
  rewrite bool_decide_false by apply config_text_nonempty.
  unfold bind, Os.open_write, Os.file_write, ctx_exit, stop, ret.
  destruct (fs !! f) as [[mode c|]|] eqn:Hf.
  - destruct (p_write mode); [|done]. cbn. by rewrite alter_insert_eq.
  - done.
  - destruct (Os.parent_error env fs f); [done|]. cbn. by rewrite alter_insert_eq.
Qed.

End Saving.

(** X14. Saving replaces: once [--ffmpeg] has saved a path, saving
    another one succeeds as well, and the configuration file then holds
    the text for the second path alone, with the permissions it had; every
    other path is as it was before the first save. *)
Theorem configure_ffmpeg_overwrites env p1 p2 fs fs1 t1 :
  let file := (get_convid_config_dir_file env).2 in
  configure_ffmpeg env false (Some p1) fs = (Stop (CtxExit 0), fs1, t1) ->
  p2 ≠ [] ->
  exists fs2 mode,
    configure_ffmpeg env false (Some p2) fs1
    = (Stop (CtxExit 0), fs2, [EvOpenWrite file None; EvWrite file (config_text p2)])
    /\ fs1 !! file = Some (File mode (config_text p1))
    /\ fs2 !! file = Some (File mode (config_text p2))
    /\ forall q, q ≠ file -> fs2 !! q = fs !! q.
Proof.
  intros file H1 Hp2.
  assert (Hp1 : p1 ≠ []) by by apply configure_ffmpeg_saved in H1 as [? _].
  rewrite (configure_ffmpeg_run env p1 fs Hp1) in H1. fold file in H1.
  assert (exists mode, p_write mode = true /\ fs1 = <[file := File mode (config_text p1)]> fs)
    as (mode & Hw & ->).
  { destruct (fs !! file) as [[mode c|]|].
    - destruct (p_write mode) eqn:Hw; [|done]. exists mode. by injection H1 as <- _.
    - done.
    - destruct (Os.parent_error env fs file); [done|].
      exists Os.new_file_mode. by injection H1 as <- _. }
  rewrite (configure_ffmpeg_run env p2 _ Hp2). fold file.
  rewrite lookup_insert_eq, Hw. eexists _, mode. split; [done|]. split; [done|].
  split; [by rewrite lookup_insert_eq|].
  intros q Hq. by rewrite !lookup_insert_ne.
Qed.

Lemma configure_ffmpeg_overwrites_witness :
  exists fs2 mode,
    configure_ffmpeg Demo.env false (Some (u "/usr/bin/ffmpeg"))
      (configure_ffmpeg Demo.env false (Some (u "/opt/ffmpeg")) Demo.with_config_dir).1.2
    = (Stop (CtxExit 0), fs2,
       [EvOpenWrite (get_convid_config_dir_file Demo.env).2 None;
        EvWrite (get_convid_config_dir_file Demo.env).2 (config_text (u "/usr/bin/ffmpeg"))])
    /\ (configure_ffmpeg Demo.env false (Some (u "/opt/ffmpeg")) Demo.with_config_dir).1.2
         !! (get_convid_config_dir_file Demo.env).2
       = Some (File mode (config_text (u "/opt/ffmpeg")))
    /\ fs2 !! (get_convid_config_dir_file Demo.env).2
       = Some (File mode (config_text (u "/usr/bin/ffmpeg")))
    /\ forall q, q ≠ (get_convid_config_dir_file Demo.env).2 ->
                 fs2 !! q = Demo.with_config_dir !! q.
Proof.
  apply (configure_ffmpeg_overwrites Demo.env (u "/opt/ffmpeg") (u "/usr/bin/ffmpeg")
           Demo.with_config_dir _
           (configure_ffmpeg Demo.env false (Some (u "/opt/ffmpeg")) Demo.with_config_dir).2).
  - apply outcome_eq. vm_compute. reflexivity.
  - discriminate.
Defined.


Lemma hex_digit_printable d : (d < 16)%N -> printable (hex_digit d) = true.
Proof.
  unfold printable, hex_digit. intros. destruct (N.ltb_spec d 10); bool_cases; lia.
Qed.

Lemma hex4_printable n : forallb printable (hex4 n) = true.
Proof.
  unfold hex4. cbn [forallb].
  rewrite !hex_digit_printable; [done|apply N.mod_lt; lia..].
Qed.

Lemma u_escape_printable n : forallb printable (u_escape n) = true.
Proof. unfold u_escape. rewrite forallb_app, hex4_printable. done. Qed.

Lemma escape_char_printable c : forallb printable (escape_char c) = true.
Proof.
  unfold escape_char.
  repeat match goal with
         | |- forallb _ (if ?b then _ else _) = _ => destruct b eqn:?; [try done|]
         end.
  - cbn. unfold printable. by rewrite andb_true_r.
  - apply u_escape_printable.
  - cbn zeta. by rewrite forallb_app, !u_escape_printable.
Qed.

Lemma escaped_printable s : forallb printable (concat (map escape_char s)) = true.
Proof.
  induction s as [|c s IH]; [done|]. cbn. by rewrite forallb_app, escape_char_printable.
Qed.

(** X15. The configuration is saved as printable ASCII, whatever the
    code points of the executable path: after a successful [--ffmpeg], every
    character of the configuration file lies between the space and the
    tilde. *)
Theorem saved_configuration_is_ascii env p fs fs' t :
  configure_ffmpeg env false (Some p) fs = (Stop (CtxExit 0), fs', t) ->
  exists mode text,
    fs' !! (get_convid_config_dir_file env).2 = Some (File mode text)
    /\ forallb printable text = true.
Proof.
  intros (_ & _ & _ & mode & Hf & _)%configure_ffmpeg_saved.
  exists mode, (config_text p). split; [done|].
  unfold config_text. cbn [app u map list_ascii_of_string forallb].
  rewrite forallb_app, escaped_printable. done.
Qed.

Lemma saved_configuration_is_ascii_witness :
  exists mode text,
    (configure_ffmpeg Demo.env false (Some [233; 128512]%N) Demo.with_config_dir).1.2
      !! (get_convid_config_dir_file Demo.env).2 = Some (File mode text)
    /\ forallb printable text = true.
Proof.
  apply (saved_configuration_is_ascii Demo.env [233; 128512]%N Demo.with_config_dir _
           (configure_ffmpeg Demo.env false (Some [233; 128512]%N) Demo.with_config_dir).2).
  apply outcome_eq. vm_compute. reflexivity.
Defined.

(** ** A configuration that cannot be used *)

Lemma prepared_unique env video ext answer fs pre pre' :
  prepared env video ext answer fs pre -> prepared env video ext answer fs pre' -> pre = pre'.
Proof. by intros [? ? | ? ? ?] [? ? | ? ? ?]. Qed.

(** X16. A configuration file that is there but cannot be used stops
    every conversion before the tool is run: when the source has passed its
    checks (and the confirmation, where one is asked for) and what is at the
    path of the configuration file is a directory, an unreadable file, or a
    file whose text is not a JSON object, [convid] does nothing more than try
    to open it, prints the failure and ends in [sys.exit(1)], leaving the
    file system as it was. *)
Theorem unusable_configuration env run_tool video ext remove verbose ff answer fs pre n :
  prepared env video ext answer fs pre ->
  fs !! (get_convid_config_dir_file env).2 = Some n ->
  (forall mode text d, n = File mode text -> p_read mode = true -> loads text ≠ Some (JObj d)) ->
  exists m,
    convid env run_tool video ext remove verbose ff answer fs
    = (Stop (SysExit 1), fs,
       pre ++ [EvOpenRead (get_convid_config_dir_file env).2 (open_error n); EvEcho m]).
Proof.
  intros Hpre Hf Hbad.
  pose proof (get_convid_configs_found env fs n Hf) as Hcfg.
  pose proof (convid_runs env run_tool video ext remove verbose ff answer fs) as H.
  cbn zeta in H. destruct (convid _ _ _ _ _ _ _ _ _) as [[o fs'] t]. cbn [fst snd] in H.
  assert (Hobj : forall d fs1 tc, get_convid_configs env fs ≠ (Return (JObj d), fs1, tc)).
  { intros d fs1 tc E. apply get_convid_configs_returns in E as (_ & _ & mode & text & Hf' & Hr & Hl).
    rewrite Hf in Hf'. injection Hf' as ->. by eapply Hbad. }
  destruct H as [t Hrej | Hacc Hsame Hans
                 | pre' e fs1 tc Hp Hc | pre' config fs1 tc Hp Hc Hnd
                 | pre' d fs1 tc e fs2 Hp Hc Htool
                 | pre' d fs1 tc fs2 Hp Hc Htool Hrm
                 | pre' d fs1 tc fs2 mode c Hp Hc Htool Hrm Hf'
                 | pre' d fs1 tc fs2 e Hp Hc Htool Hrm Hf'];
    try (by apply Hobj in Hc).
  - exfalso. eapply accepted_not_rejected; [by eapply prepared_accepted|done].
  - exfalso. destruct Hpre as [? Hns | ? ? ->]; [by apply Hns|by apply Hans].
  - rewrite (prepared_unique _ _ _ _ _ _ _ Hp Hpre). rewrite Hcfg in Hc.
    injection Hc as _ <- <-. by eexists.
  - rewrite (prepared_unique _ _ _ _ _ _ _ Hp Hpre). rewrite Hcfg in Hc.
    injection Hc as _ <- <-. by eexists.
Qed.

Lemma unusable_configuration_witness :
  exists m,
    convid Demo.env Demo.tool_ok (u "clip.mov") (u "mp4") true false None None
      (get_convid_configs Demo.env Demo.fresh).1.2
    = (Stop (SysExit 1), (get_convid_configs Demo.env Demo.fresh).1.2,
       (checked Demo.env (u "clip.mov") ++ [EvEcho MsgConversionStarting])
         ++ [EvOpenRead (get_convid_config_dir_file Demo.env).2
               (open_error (File Os.new_file_mode []));
             EvEcho m]).
Proof.
  apply (unusable_configuration Demo.env Demo.tool_ok (u "clip.mov") (u "mp4") true false None
           None (get_convid_configs Demo.env Demo.fresh).1.2
           (checked Demo.env (u "clip.mov") ++ [EvEcho MsgConversionStarting])
           (File Os.new_file_mode [])).
  - apply PrepDirect.
    + exists Demo.rw, (u "MOV"). split; [vm_compute; reflexivity|reflexivity].
    + unfold same_extension. vm_compute. discriminate.
  - vm_compute. reflexivity.
  - intros mode text d [= <- <-] _. vm_compute. discriminate.
Defined.

(** ** The one writer *)

Lemma get_convid_configs_no_write env fs :
  Forall (fun ev => is_write ev = false) (get_convid_configs env fs).2.
Proof.
  unfold get_convid_configs.
  destruct (get_convid_config_dir_file env) as [d f].
  change (json_dump (PFile ?p) (PDict [])) with (@stop unit (Raise TypeError)).
  unfold try_except, bind, Os.open_read, json_load, Os.path_isdir, Os.mkdir, Os.open_write,
    ret, stop.
  repeat case_scrutinee; cbn; repeat constructor.
Qed.

(** X17. The one thing this program ever writes into a file is the
    configuration that [--ffmpeg] saves: whenever an invocation writes data,
    [--ffmpeg] was given, the file written is the configuration file and the
    data are the text for the given path.  Loading the configuration, which
    creates the file when it is missing, never puts anything in it. *)
Theorem only_ffmpeg_option_writes env run_tool args answer fs p data :
  EvWrite p data ∈ (main env run_tool args answer fs).2 ->
  exists value,
    opt_ffmpeg args = Some value
    /\ p = (get_convid_config_dir_file env).2
    /\ data = config_text value.
Proof.
  unfold main. intros Hin.
  assert (Hin' : EvWrite p data ∈ (invoke env run_tool args answer fs).2).
  { destruct (standalone_trace (invoke env run_tool args answer fs)) as [E | E];
      rewrite E in Hin; [done|]. by elem_cases Hin. }
  clear Hin.
  destruct (invoke_outcomes env run_tool args answer fs)
    as [(v & _ & _ & E) | [(v & e & _ & _ & E) | [(v & fs' & Hv & _ & E & _)
       | [(name & _ & E) | (video & ext & _ & _ & E)]]]];
    rewrite E in Hin'; cbn [snd] in Hin'; try by elem_cases Hin'.
  { elem_cases Hin'. injection Hin' as -> ->. by exists v. }
  exfalso. clear E.
  pose proof (convid_runs env run_tool video ext (opt_remove args) (opt_verbose args)
                (opt_ffmpeg args) answer fs) as H.
  cbn zeta in H. destruct (convid _ _ _ _ _ _ _ _ _) as [[o fs'] t]. cbn [fst snd] in *.
  assert (Hprep : forall pre, prepared env video ext answer fs pre -> EvWrite p data ∉ pre).
  { intros pre [Hacc Hns | Hacc Hsame ->] Hp; unfold checked in Hp; by elem_cases Hp. }
  assert (Hcfg : forall o1 fs1 tc, get_convid_configs env fs = (o1, fs1, tc) ->
            EvWrite p data ∉ tc).
  { intros o1 fs1 tc Hc Hp.
    pose proof (get_convid_configs_no_write env fs) as Hev. rewrite Hc in Hev.
    by apply (proj1 (Forall_forall _ _) Hev) in Hp. }
  destruct H as [t Hrej | Hacc Hsame Hans
                 | pre e fs1 tc Hp Hc | pre config fs1 tc Hp Hc Hnd
                 | pre d fs1 tc e fs2 Hp Hc Htool
                 | pre d fs1 tc fs2 Hp Hc Htool Hrm
                 | pre d fs1 tc fs2 mode c Hp Hc Htool Hrm Hf
                 | pre d fs1 tc fs2 e Hp Hc Htool Hrm Hf].
  - destruct Hrej; by elem_cases Hin'.
  - unfold checked in Hin'. by elem_cases Hin'.
  - elem_cases Hin'; [by eapply Hprep | by eapply Hcfg].
  - elem_cases Hin'; [by eapply Hprep | by eapply Hcfg].
  - elem_cases Hin'; [by eapply Hprep | by eapply Hcfg].
  - elem_cases Hin'; [by eapply Hprep | by eapply Hcfg].
  - elem_cases Hin'; [by eapply Hprep | by eapply Hcfg].
  - elem_cases Hin'; [by eapply Hprep | by eapply Hcfg].
Qed.

Lemma only_ffmpeg_option_writes_witness :
  exists value,
    opt_ffmpeg Demo.set_executable = Some value
    /\ u "/home/me/.config/convid.json" = (get_convid_config_dir_file Demo.env).2
    /\ config_text (u "/usr/bin/ffmpeg") = config_text value.
Proof.
  apply (only_ffmpeg_option_writes Demo.env Demo.tool_ok Demo.set_executable None
           Demo.with_config_dir).
  assert (E : (main Demo.env Demo.tool_ok Demo.set_executable None Demo.with_config_dir).2
              = [EvOpenWrite (u "/home/me/.config/convid.json") None;
                 EvWrite (u "/home/me/.config/convid.json")
                   (config_text (u "/usr/bin/ffmpeg"))])
    by (vm_compute; reflexivity).
  rewrite E. apply list_elem_of_further, list_elem_of_here.
Defined.

(** ** The extension [os.path.splitext] finds *)

Lemma rfind_from_last c s : forall i last,
  (rfind_from c s i last = last /\ c ∉ s)
  \/ exists k : nat,
       rfind_from c s i last = i + Z.of_nat k /\ s !! k = Some c /\ c ∉ drop (S k) s.
Proof.
  induction s as [|x r IH]; intros i last; simpl.
  - left. split; [done|]. apply not_elem_of_nil.
  - destruct (IH (i + 1) (if (x =? c)%N then i else last)) as [[E Hno] | (k & E & Hk & Hno)].
    + rewrite E. destruct (N.eqb_spec x c) as [->|Hx].
      * right. exists O. split; [lia|]. by rewrite drop_0.
      * left. split; [done|]. rewrite not_elem_of_cons. split; [congruence|done].
    + right. exists (S k). split; [lia|]. done.
Qed.

(** [s.rfind(c)] is -1 when [c] does not occur, and the index of its last
    occurrence when it does. *)
Lemma rfind_last c s :
  (rfind c s = -1 /\ c ∉ s)
  \/ exists k : nat, rfind c s = Z.of_nat k /\ s !! k = Some c /\ c ∉ drop (S k) s.
Proof.
  unfold rfind. destruct (rfind_from_last c s 0 (-1)) as [E | (k & E & Hk)]; [by left|].
  right. exists k. split; [lia | done].
Qed.

Lemma not_elem_of_drop_le {A} (x : A) (l : list A) n m :
  (n <= m)%nat -> x ∉ drop n l -> x ∉ drop m l.
Proof.
  intros Hle Hno Hin. apply Hno.
  replace m with (n + (m - n))%nat in Hin by lia. rewrite <- drop_drop in Hin.
  apply list_elem_of_lookup in Hin as [i Hi]. rewrite lookup_drop in Hi.
  by eapply list_elem_of_lookup_2.
Qed.

Lemma rfind_at c s k :
  s !! k = Some c -> c ∉ drop (S k) s -> rfind c s = Z.of_nat k.
Proof.
  intros Hk Hno. destruct (rfind_last c s) as [[_ Hc] | (k' & -> & Hk' & Hno')].
  - exfalso. apply Hc. by eapply list_elem_of_lookup_2.
  - f_equal. destruct (decide (k = k')) as [|Hne]; [done|]. exfalso.
    destruct (decide (k < k')%nat).
    + apply Hno. apply list_elem_of_lookup. exists (k' - S k)%nat.
      rewrite lookup_drop, <- Hk'. f_equal. lia.
    + apply Hno'. apply list_elem_of_lookup. exists (k - S k')%nat.
      rewrite lookup_drop, <- Hk. f_equal. lia.
Qed.

(** A character that does not occur after its last index does not occur
    after any later index. *)
Lemma rfind_none_after c s (k : nat) : rfind c s < Z.of_nat k -> c ∉ drop k s.
Proof.
  intros Hlt. destruct (rfind_last c s) as [[_ Hc] | (k' & E & _ & Hno)].
  - intros Hin. apply Hc. apply list_elem_of_lookup in Hin as [i Hi].
    rewrite lookup_drop in Hi. by eapply list_elem_of_lookup_2.
  - apply (not_elem_of_drop_le _ _ (S k')); [lia|done].
Qed.

Lemma splitext_loop_cases n : forall p e d i,
  splitext_loop p e d i n = (p, []) \/ splitext_loop p e d i n = (upto p d, from p d).
Proof.
  induction n as [|n IH]; intros p e d i; simpl; [by left|].
  case_bool_decide; [by right | apply IH].
Qed.

Lemma _splitext_shape p sep altsep e :
  (_splitext p sep altsep e).2 = []
  \/ exists x, (_splitext p sep altsep e).2 = e :: x
               /\ (e ∉ x) /\ (sep ∉ x) /\ (forall a, altsep = Some a -> a ∉ x).
Proof.
  unfold _splitext.
  destruct (Z.gtb_spec (rfind e p) (sep_index p sep altsep)) as [Hgt|]; [|by left].
  destruct (splitext_loop_cases
              (Z.to_nat (rfind e p - (sep_index p sep altsep + 1))) p e (rfind e p)
              (sep_index p sep altsep + 1)) as [-> | ->]; [by left|].
  right. pose proof (sep_index_lower p sep altsep).
  destruct (rfind_last e p) as [[E _] | (k & E & Hk & Hno)]; [lia|].
  rewrite E in *. unfold from. rewrite Nat2Z.id. cbn [snd].
  exists (drop (S k) p). split; [by apply drop_S|]. split; [done|].
  unfold sep_index in Hgt. split.
  - apply rfind_none_after. destruct altsep; lia.
  - intros a ->. apply rfind_none_after. lia.
Qed.

(** X18. The extension that [os.path.splitext] finds, and that [convid]
    compares with the requested one, is empty or a dot followed by
    characters among which there is no dot and no path separator. *)
Theorem splitext_extension_shape env p :
  let ext := (Os.path_splitext env p).2 in
  ext = []
  \/ exists x, ext = ord "." :: x
               /\ (ord "." ∉ x) /\ (ord "/" ∉ x) /\ (os_name env = Nt -> ord "\" ∉ x).
Proof.
  unfold Os.path_splitext, PosixPath.splitext, NtPath.splitext. destruct (os_name env).
  - destruct (_splitext_shape p PosixPath.sep None (ord "."))
      as [E | (x & E & ? & ? & _)]; [by left|].
    right. exists x. by repeat split.
  - destruct (_splitext_shape p NtPath.sep (Some NtPath.altsep) (ord "."))
      as [E | (x & E & ? & ? & Halt)]; [by left|].
    right. exists x. repeat split; [done..|by apply Halt|done].
Qed.

Lemma slice_one (p : str) (j : nat) c :
  p !! j = Some c -> slice p (Z.of_nat j) (Z.of_nat j + 1) = [c].
Proof.
  intros Hj. unfold slice. rewrite Nat2Z.id.
  replace (Z.to_nat (Z.of_nat j + 1) - j)%nat with 1%nat by lia.
  rewrite (drop_S _ _ _ Hj). by rewrite firstn_cons, take_0.
Qed.

Lemma splitext_loop_dots p e d n : forall j : nat,
  (forall i, (j <= i < j + n)%nat -> p !! i = Some e) ->
  splitext_loop p e d (Z.of_nat j) n = (p, []).
Proof.
  induction n as [|n IH]; intros j Hdots; simpl; [done|].
  rewrite (slice_one p j e) by (apply Hdots; lia).
  rewrite bool_decide_false by (intros H; by apply H).
  replace (Z.of_nat j + 1) with (Z.of_nat (S j)) by lia.
  apply IH. intros i Hi. apply Hdots. lia.
Qed.

(** Dots at the start of the last component do not start an extension. *)
Lemma _splitext_leading_dots p sep altsep e n w :
  final_component p sep altsep = replicate n e ++ w -> e ∉ w ->
  _splitext p sep altsep e = (p, []).
Proof.
  intros Hfc Hw. destruct n as [|n].
  { apply _splitext_no_dot. by rewrite Hfc. }
  unfold final_component, from in Hfc. pose proof (sep_index_lower p sep altsep) as Hlow.
  set (m := Z.to_nat (sep_index p sep altsep + 1)) in *.
  assert (Hp : p = take m p ++ replicate (S n) e ++ w) by by rewrite <- Hfc, take_drop.
  assert (Hm : length (take m p) = m).
  { rewrite length_take. apply Nat.min_l.
    assert (length (drop m p) <> 0)%nat by (rewrite Hfc; cbn; lia).
    rewrite length_drop in *. lia. }
  assert (Hdots : forall i, (i < S n)%nat -> p !! (m + i)%nat = Some e).
  { intros i Hi. rewrite Hp, lookup_app_r by lia. rewrite Hm.
    replace (m + i - m)%nat with i by lia.
    rewrite lookup_app_l by (rewrite length_replicate; lia).
    by apply lookup_replicate_2. }
  assert (Hdot : rfind e p = Z.of_nat (m + n)).
  { apply rfind_at; [apply Hdots; lia|].
    replace (S (m + n)) with (length (take m p ++ replicate (S n) e))
      by (rewrite length_app, Hm, length_replicate; lia).
    rewrite Hp at 2. by rewrite app_assoc, drop_app_length. }
  unfold _splitext. rewrite Hdot.
  destruct (Z.gtb_spec (Z.of_nat (m + n)) (sep_index p sep altsep)) as [_|]; [|done].
  replace (sep_index p sep altsep + 1) with (Z.of_nat m) by lia.
  apply splitext_loop_dots. intros i Hi.
  replace i with (m + (i - m))%nat by lia. apply Hdots. lia.
Qed.

(** X19. Dots at the start of a file name do not start an extension: when
    the last component of the source path is some dots followed by a name
    without a dot (".bashrc", "..hidden"), nothing is taken off, and the
    target name is the whole path followed by the normalized extension. *)
Theorem leading_dots_are_no_extension env f ext n w :
  Os.path_final_component env f = replicate n (ord ".") ++ w ->
  ord "." ∉ w ->
  Os.path_splitext env f = (f, []) /\ derive_target env f ext = f ++ ext.
Proof.
  intros Hfc Hw.
  assert (E : Os.path_splitext env f = (f, [])).
  { revert Hfc. unfold Os.path_final_component, Os.path_splitext,
      PosixPath.splitext, NtPath.splitext.
    destruct (os_name env); intros Hfc; by eapply _splitext_leading_dots. }
  split; [done|]. unfold derive_target. by rewrite E.
Qed.

Lemma leading_dots_are_no_extension_witness :
  Os.path_splitext Demo.env (u "/home/me/.bashrc") = (u "/home/me/.bashrc", [])
  /\ derive_target Demo.env (u "/home/me/.bashrc") (u ".mp4") = u "/home/me/.bashrc" ++ u ".mp4".
Proof.
  apply (leading_dots_are_no_extension Demo.env (u "/home/me/.bashrc") (u ".mp4") 1
           (u "bashrc")); [reflexivity|].
  apply (bool_decide_unpack _). vm_compute. exact I.
Defined.

Lemma rfind_absent c s : c ∉ s -> rfind c s = -1.
Proof.
  intros Hno. destruct (rfind_last c s) as [[E _] | (k & _ & Hk & _)]; [done|].
  exfalso. apply Hno. by eapply list_elem_of_lookup_2.
Qed.

Lemma rfind_upper c s : rfind c s < Z.of_nat (length s).
Proof.
  destruct (rfind_last c s) as [[-> _] | (k & -> & Hk & _)]; [lia|].
  apply lookup_lt_Some in Hk. lia.
Qed.

Lemma rfind_app_absent c a b : c ∉ b -> rfind c (a ++ b) = rfind c a.
Proof.
  intros Hb. destruct (rfind_last c a) as [[-> Ha] | (k & -> & Hk & Hno)].
  - apply rfind_absent. rewrite elem_of_app. tauto.
  - apply rfind_at.
    + by apply lookup_app_l_Some.
    + rewrite drop_app_le by (apply lookup_lt_Some in Hk; lia).
      rewrite elem_of_app. tauto.
Qed.

Lemma sep_index_app_absent a b sep altsep :
  sep ∉ b -> (forall x, altsep = Some x -> x ∉ b) ->
  sep_index (a ++ b) sep altsep = sep_index a sep altsep.
Proof.
  intros Hs Ha. unfold sep_index. rewrite (rfind_app_absent sep) by done.
  destruct altsep as [x|]; [|done]. by rewrite (rfind_app_absent x) by by apply Ha.
Qed.

Lemma slice_none (p : str) (j : nat) :
  p !! j = None -> slice p (Z.of_nat j) (Z.of_nat j + 1) = [].
Proof.
  intros Hj. unfold slice. rewrite Nat2Z.id.
  rewrite drop_ge by by apply lookup_ge_None. by rewrite take_nil.
Qed.

(** The loop stops at a character of the name that is not a dot. *)
Lemma splitext_loop_found p e d n : forall (i j : nat) c,
  (i <= j < i + n)%nat -> p !! j = Some c -> c ≠ e ->
  splitext_loop p e d (Z.of_nat i) n = (upto p d, from p d).
Proof.
  induction n as [|n IH]; intros i j c Hj Hc Hne; [lia|]. simpl.
  destruct (p !! i) as [c'|] eqn:Hi.
  - rewrite (slice_one p i c' Hi). case_bool_decide as Hd; [done|].
    replace (Z.of_nat i + 1) with (Z.of_nat (S i)) by lia.
    apply (IH _ j c); [|done..].
    destruct (decide (j = i)) as [->|]; [|lia].
    injection Hd as ->. congruence.
  - rewrite (slice_none p i Hi). by rewrite bool_decide_true.
Qed.

Lemma splitext_loop_stopped p e d n : forall i : nat,
  (splitext_loop p e d (Z.of_nat i) n).2 ≠ [] ->
  (i + n <= length p)%nat ->
  exists j c, (i <= j < i + n)%nat /\ p !! j = Some c /\ c ≠ e.
Proof.
  induction n as [|n IH]; intros i Hext Hlen; simpl in Hext; [done|].
  destruct (lookup_lt_is_Some_2 p i) as [c Hi]; [lia|].
  rewrite (slice_one p i c Hi) in Hext. case_bool_decide as Hd.
  - exists i, c. split; [lia|]. split; [done|]. intros ->. by apply Hd.
  - replace (Z.of_nat i + 1) with (Z.of_nat (S i)) in Hext by lia.
    destruct (IH (S i) Hext) as (j & c' & ? & ? & ?); [lia|].
    exists j, c'. split; [lia|done].
Qed.

(** Splitting the name that [convid] builds gives back the stem and the
    extension it was built from. *)
Lemma _splitext_target p sep altsep e x :
  e ≠ sep -> (forall a, altsep = Some a -> e ≠ a) ->
  e ∉ x -> sep ∉ x -> (forall a, altsep = Some a -> a ∉ x) ->
  (exists c, c ∈ final_component p sep altsep /\ c ≠ e) ->
  _splitext ((_splitext p sep altsep e).1 ++ e :: x) sep altsep e
  = ((_splitext p sep altsep e).1, e :: x).
Proof.
  intros Hes Hea Hx Hsx Hax (c & Hc & Hce).
  set (stem := (_splitext p sep altsep e).1).
  set (si := sep_index p sep altsep).
  pose proof (sep_index_lower p sep altsep) as Hlow. fold si in Hlow.
  (* the separators of [p] are in the stem *)
  assert (Hsi : sep_index stem sep altsep = si).
  { pose proof (_splitext_concat p sep altsep e) as Hcat. fold stem in Hcat.
    transitivity (sep_index (stem ++ (_splitext p sep altsep e).2) sep altsep);
      [|by rewrite Hcat].
    symmetry. apply sep_index_app_absent.
    - destruct (_splitext_shape p sep altsep e) as [-> | (y & -> & _ & Hy & _)].
      + apply not_elem_of_nil.
      + rewrite not_elem_of_cons. split; [congruence|done].
    - intros a Ha.
      destruct (_splitext_shape p sep altsep e) as [-> | (y & -> & _ & _ & Hy)].
      + apply not_elem_of_nil.
      + rewrite not_elem_of_cons. split; [intros ->; by eapply Hea|by apply Hy]. }
  (* a character of the name, in the stem, that is not a dot *)
  set (m := Z.to_nat (si + 1)).
  assert (Em : si + 1 = Z.of_nat m) by lia.
  assert (Hfinal : exists i, p !! (m + i)%nat = Some c).
  { apply list_elem_of_lookup in Hc as [i Hi]. unfold final_component, from in Hi.
    fold si m in Hi. rewrite lookup_drop in Hi. by exists i. }
  destruct Hfinal as [i0 Hi0]. apply lookup_lt_Some in Hi0 as Hlt0.
  assert (Hname : exists j c', (m <= j < length stem)%nat /\ stem !! j = Some c' /\ c' ≠ e).
  { subst stem. unfold _splitext. fold si. rewrite Em.
    destruct (Z.gtb_spec (rfind e p) si) as [Hgt|Hle];
      [|cbn [fst]; exists (m + i0)%nat, c; split; [lia|done]].
    destruct (rfind_last e p) as [[E _] | (k & E & Hk & _)]; [lia|].
    rewrite E in *. apply lookup_lt_Some in Hk.
    set (n := Z.to_nat (Z.of_nat k - Z.of_nat m)).
    destruct (splitext_loop_cases n p e (Z.of_nat k) (Z.of_nat m)) as [E' | E'].
    { rewrite E'. cbn [fst]. exists (m + i0)%nat, c. split; [lia|done]. }
    destruct (splitext_loop_stopped p e (Z.of_nat k) n m) as (j & c' & Hj & Hpj & Hne).
    { rewrite E'. cbn [snd]. unfold from. rewrite Nat2Z.id.
      intros Hnil. apply (f_equal length) in Hnil. rewrite length_drop in Hnil.
      cbn in Hnil. lia. }
    { subst n. lia. }
    rewrite E'. cbn [fst]. unfold upto. rewrite Nat2Z.id. exists j, c'.
    rewrite length_take, lookup_take_lt by (subst n; lia).
    split; [subst n; lia|done]. }
  destruct Hname as (j & c' & Hj & Hsj & Hne).
  unfold _splitext at 1.
  rewrite (sep_index_app_absent stem (e :: x) sep altsep), Hsi; cycle 1.
  { rewrite not_elem_of_cons. split; [congruence|done]. }
  { intros a Ha. rewrite not_elem_of_cons. split; [intros ->; by eapply Hea|by apply Hax]. }
  assert (Hdot : rfind e (stem ++ e :: x) = Z.of_nat (length stem)).
  { apply rfind_at; [by rewrite list_lookup_middle|].
    replace (S (length stem)) with (length stem + 1)%nat by lia.
    by rewrite drop_app_add. }
  rewrite Hdot.
  destruct (Z.gtb_spec (Z.of_nat (length stem)) si) as [_|]; [|lia].
  rewrite Em.
  rewrite (splitext_loop_found _ e _ _ m j c'); [|lia| |done].
  - unfold upto, from. rewrite Nat2Z.id. by rewrite take_app_length, drop_app_length.
  - by apply lookup_app_l_Some.
Qed.

(** X20. The name [convid] builds ends in the requested extension as
    [os.path.splitext] sees it: when the extension asked for is a dot
    followed by characters without a dot or a path separator, and the file
    name of the source has a character other than a dot, splitting the
    target gives the stem of the source and that extension.  Converting the
    converted file to the same extension therefore finds the two extensions
    equal, and derives the target itself as the new name. *)
Theorem target_has_requested_extension env f x c :
  ord "." ∉ x -> ord "/" ∉ x -> (os_name env = Nt -> ord "\" ∉ x) ->
  c ∈ Os.path_final_component env f -> c ≠ ord "." ->
  let ext := ord "." :: x in
  let new_file := derive_target env f ext in
  Os.path_splitext env new_file = ((Os.path_splitext env f).1, ext)
  /\ derive_target env new_file ext = new_file.
Proof.
  intros Hdot Hslash Hback Hc Hne ext new_file.
  assert (E : Os.path_splitext env new_file = ((Os.path_splitext env f).1, ext)).
  { subst new_file ext. rewrite derive_target_eq. revert Hc Hback.
    unfold Os.path_final_component, Os.path_splitext, PosixPath.splitext, NtPath.splitext.
    destruct (os_name env); intros Hc Hback.
    - apply _splitext_target; [done|done|done|done|done|by exists c].
    - apply _splitext_target; [done| |done|by apply Hback| |by exists c].
      + by intros a [= <-].
      + by intros a [= <-]. }
  split; [done|]. rewrite (derive_target_eq env new_file), E. cbn [fst].
  subst new_file. by rewrite derive_target_eq.
Qed.

Lemma target_has_requested_extension_witness :
  Os.path_splitext Demo.env (derive_target Demo.env (u "/home/me/videos/clip.mov") (u ".mp4"))
  = ((Os.path_splitext Demo.env (u "/home/me/videos/clip.mov")).1, u ".mp4")
  /\ derive_target Demo.env
       (derive_target Demo.env (u "/home/me/videos/clip.mov") (u ".mp4")) (u ".mp4")
     = derive_target Demo.env (u "/home/me/videos/clip.mov") (u ".mp4").
Proof.
  apply (target_has_requested_extension Demo.env (u "/home/me/videos/clip.mov") (u "mp4")
           (ord "c")).
  - apply (bool_decide_unpack _). vm_compute. exact I.
  - apply (bool_decide_unpack _). vm_compute. exact I.
  - discriminate.
  - apply (bool_decide_unpack _). vm_compute. exact I.
  - discriminate.
Defined.

(** ** The absolute path of the source *)

Section Normpath.

Import PosixPath.

Lemma normpath_unfold path :
  path ≠ [] ->
  normpath path
  = let r := repeat sep (initial_slashes path) ++ PyStr.join [sep] (normal_components path) in
    if bool_decide (r = []) then u "." else r.
Proof. intros Hp. unfold normpath. by rewrite bool_decide_false. Qed.

Lemma split_nonempty c s : PyStr.split c s ≠ [].
Proof. destruct s as [|x r]; cbn; [done|]. destruct (x =? c)%N; [done|]. by destruct (PyStr.split c r). Qed.

Lemma split_absent c s : c ∉ s -> PyStr.split c s = [s].
Proof.
  induction s as [|x r IH]; [done|]. rewrite not_elem_of_cons. intros [Hx Hr]. cbn.
  destruct (N.eqb_spec x c) as [->|_]; [done|]. by rewrite IH.
Qed.

Lemma split_app c a b : PyStr.split c (a ++ c :: b) = PyStr.split c a ++ PyStr.split c b.
Proof.
  induction a as [|x a IH]; cbn.
  - by rewrite N.eqb_refl.
  - destruct (x =? c)%N; [by rewrite IH|]. rewrite IH.
    pose proof (split_nonempty c a). by destruct (PyStr.split c a).
Qed.

Lemma split_no_sep c s : Forall (fun w => c ∉ w) (PyStr.split c s).
Proof.
  induction s as [|x r IH]; cbn.
  - repeat constructor. apply not_elem_of_nil.
  - destruct (N.eqb_spec x c) as [->|Hx].
    + constructor; [apply not_elem_of_nil|done].
    + destruct (PyStr.split c r) as [|w ws].
      { repeat constructor. rewrite not_elem_of_cons. split; [congruence|apply not_elem_of_nil]. }
      apply Forall_cons in IH as [Hw Hws]. constructor; [|done].
      rewrite not_elem_of_cons. split; [congruence|done].
Qed.

Lemma join_snoc (s : str) ws w :
  ws ≠ [] -> PyStr.join s (ws ++ [w]) = PyStr.join s ws ++ s ++ w.
Proof.
  induction ws as [|v ws IH]; [done|]. intros _. destruct ws as [|v' ws]; [done|].
  change (PyStr.join s ((v :: v' :: ws) ++ [w]))
    with (v ++ s ++ PyStr.join s ((v' :: ws) ++ [w])).
  rewrite IH by done. change (PyStr.join s (v :: v' :: ws)) with (v ++ s ++ PyStr.join s (v' :: ws)).
  by rewrite <- !app_assoc.
Qed.


Lemma normpath_step_kept k comps comp :
  Forall kept comps -> sep ∉ comp -> Forall kept (normpath_step k comps comp).
Proof.
  intros Hc Hs. unfold normpath_step.
  destruct (bool_decide (comp = [])) eqn:He; cbn [orb]; [done|].
  destruct (bool_decide (comp = u ".")); cbn [orb]; [done|].
  apply bool_decide_eq_false in He.
  destruct (_ || _ || _).
  - apply Forall_app. split; [done|]. by repeat constructor.
  - case_bool_decide; [|done]. rewrite removelast_firstn_len. by apply Forall_take.
Qed.

Lemma fold_normpath_step_kept k comps acc :
  Forall kept acc -> Forall (fun w => sep ∉ w) comps ->
  Forall kept (fold_left (normpath_step k) comps acc).
Proof.
  revert acc. induction comps as [|w ws IH]; intros acc Hacc Hws; [done|]. cbn.
  apply Forall_cons in Hws as [Hw Hws]. apply IH; [|done]. by apply normpath_step_kept.
Qed.

Lemma normal_components_kept path : Forall kept (normal_components path).
Proof. apply fold_normpath_step_kept; [done|apply split_no_sep]. Qed.

Lemma normpath_step_plain k comps name :
  plain_name name -> normpath_step k comps name = comps ++ [name].
Proof.
  intros (Hne & _ & Hdot & Hdd). unfold normpath_step.
  rewrite !bool_decide_false by done. cbn [orb].
  by rewrite bool_decide_true.
Qed.

Lemma initial_slashes_leading k c rest :
  (1 <= k <= 2)%nat -> c ≠ sep -> initial_slashes (repeat sep k ++ c :: rest) = k.
Proof.
  intros Hk Hc. unfold initial_slashes, PyStr.startswith.
  destruct k as [|[|[|k]]]; [lia| | |lia]; cbn.
  - rewrite bool_decide_true by done. rewrite bool_decide_false; [done|]. by intros [= ?].
  - rewrite !bool_decide_true by done. rewrite bool_decide_false; [done|]. by intros [= ?].
Qed.

Lemma initial_slashes_abs path : isabs path = true -> (1 <= initial_slashes path <= 2)%nat.
Proof.
  unfold isabs, initial_slashes. intros ->. destruct (_ && _); lia.
Qed.

Lemma join_kept_head ws :
  ws ≠ [] -> Forall kept ws ->
  exists c rest, PyStr.join [sep] ws = c :: rest /\ c ≠ sep.
Proof.
  destruct ws as [|w ws]; [done|]. intros _ [[Hw Hs] _]%Forall_cons.
  destruct w as [|c w]; [done|]. apply not_elem_of_cons in Hs as [Hc _].
  destruct ws; cbn; eauto.
Qed.

Lemma join_kept_last ws :
  ws ≠ [] -> Forall kept ws ->
  exists c, last (PyStr.join [sep] ws) = Some c /\ c ≠ sep.
Proof.
  destruct ws as [|w ws _] using rev_ind; [done|]. intros _ [_ Hw]%Forall_app.
  apply Forall_cons in Hw as [[Hw Hs] _].
  destruct w as [|c w _] using rev_ind; [done|].
  exists c. split.
  - destruct ws as [|v ws].
    + cbn. by rewrite last_snoc.
    + rewrite join_snoc by done. by rewrite !app_assoc, last_snoc.
  - intros ->. apply Hs. apply elem_of_app. right. left.
Qed.

Lemma split_leading c k s :
  PyStr.split c (repeat c k ++ s) = repeat [] k ++ PyStr.split c s.
Proof. induction k as [|k IH]; [done|]. cbn. by rewrite N.eqb_refl, IH. Qed.

Lemma fold_normpath_step_empty k n acc :
  fold_left (normpath_step k) (repeat [] n) acc = acc.
Proof. induction n as [|n IH]; [done|]. cbn. by rewrite IH. Qed.

(** A normalized absolute path is its leading slashes followed by its
    components. *)
Lemma is_cwd_form cwd :
  is_cwd cwd ->
  cwd = repeat sep (initial_slashes cwd) ++ PyStr.join [sep] (normal_components cwd)
  /\ (1 <= initial_slashes cwd <= 2)%nat.
Proof.
  intros [Habs Hnorm]. pose proof (initial_slashes_abs cwd Habs) as Hk. split; [|done].
  assert (Hne : cwd ≠ []) by (by intros ->).
  rewrite (normpath_unfold cwd Hne) in Hnorm. cbn zeta in Hnorm.
  rewrite bool_decide_false in Hnorm; [done|].
  destruct (initial_slashes cwd); [lia|done].
Qed.

(** The absolute path of a plain file name. *)
Lemma abspath_plain cwd name :
  is_cwd cwd -> plain_name name -> abspath cwd name = join cwd name.
Proof.
  intros Hcwd Hname. destruct (is_cwd_form cwd Hcwd) as [Hform Hk].
  destruct Hcwd as [Habs _]. pose proof Hname as (Hne & Hsep & _).
  assert (Hrel : isabs name = false).
  { unfold isabs, PyStr.startswith. apply bool_decide_eq_false.
    destruct name as [|c name]; [done|]. cbn. intros [= ->]. apply Hsep. left. }
  unfold abspath. rewrite Hrel.
  assert (Hkept : Forall kept (normal_components cwd)) by apply normal_components_kept.
  assert (Hcomps : fold_left (normpath_step (initial_slashes cwd)) (PyStr.split sep cwd) []
                   = normal_components cwd) by done.
  set (k := initial_slashes cwd) in *. set (comps := normal_components cwd) in *.
  clearbody k comps.
  destruct name as [|c name]; [done|].
  assert (Hc : c ≠ sep) by (intros ->; apply Hsep; left).
  assert (Hcwd : cwd ≠ []) by (intros ->; by destruct k as [|[|[|?]]]).
  unfold join. change (PyStr.startswith (c :: name) [sep]) with (bool_decide ([c] = [sep])).
  rewrite bool_decide_false by (by intros [= ?]).
  rewrite (bool_decide_false (cwd = [])) by done. cbn [orb].
  rewrite endswith_last.
  destruct (decide (comps = [])) as [E|E].
  - (* the working directory is the root *)
    rewrite E in Hform, Hcomps. cbn [PyStr.join] in Hform. rewrite app_nil_r in Hform.
    assert (Hlast : last cwd = Some sep).
    { rewrite Hform. destruct k as [|[|[|?]]]; [lia|done|done|lia]. }
    rewrite bool_decide_true by done.
    assert (Hpath : cwd ++ c :: name ≠ []) by by destruct cwd.
    rewrite (normpath_unfold _ Hpath). cbn zeta. unfold normal_components.
    subst cwd. rewrite initial_slashes_leading by done.
    rewrite split_leading, fold_left_app, fold_normpath_step_empty.
    rewrite (split_absent _ _ Hsep). cbn [fold_left]. rewrite normpath_step_plain by done.
    cbn [app PyStr.join].
    rewrite bool_decide_false; [done|by destruct k].
  - (* the working directory has components *)
    destruct (join_kept_head comps E Hkept) as (c0 & rest & Hj & Hc0).
    destruct (join_kept_last comps E Hkept) as (cl & Hl & Hcl).
    assert (Hlast : last cwd = Some cl).
    { rewrite Hform, Hj. rewrite Hj in Hl. by rewrite last_app, Hl. }
    rewrite bool_decide_false by (rewrite Hlast; congruence).
    assert (Hpath : cwd ++ [sep] ++ c :: name ≠ []) by by destruct cwd.
    rewrite (normpath_unfold _ Hpath). cbn zeta.
    assert (Hk' : initial_slashes (cwd ++ [sep] ++ c :: name) = k).
    { rewrite Hform, Hj, <- app_assoc. cbn [app]. by apply initial_slashes_leading. }
    unfold normal_components. rewrite Hk'.
    change (cwd ++ [sep] ++ c :: name) with (cwd ++ sep :: c :: name).
    rewrite split_app, fold_left_app, Hcomps.
    rewrite (split_absent _ _ Hsep). cbn [fold_left]. rewrite normpath_step_plain by done.
    rewrite join_snoc by done. rewrite app_assoc, <- Hform.
    rewrite bool_decide_false; [done|by destruct cwd].
Qed.

End Normpath.

Lemma isabs_cons p : PosixPath.isabs p = true -> exists r, p = PosixPath.sep :: r.
Proof.
  unfold PosixPath.isabs, startswith. intros H%bool_decide_eq_true.
  destruct p as [|c r]; [done|]. cbn in H. injection H as ->. by exists r.
Qed.

(** X21. For a plain file name (not empty, no slash, neither "." nor
    "..") and a working directory as [os.getcwd] returns it, the absolute
    path [convid] works on is the working directory joined with the name:
    the name directly after a working directory that ends in a slash (the
    root), and after one more slash otherwise. *)
Theorem abspath_of_plain_name env video :
  os_name env = Posix -> is_cwd (getcwd env) -> plain_name video ->
  Os.path_abspath env video
  = if bool_decide (last (getcwd env) = Some (ord "/")) then getcwd env ++ video
    else getcwd env ++ u "/" ++ video.
Proof.
  intros Hos Hcwd Hname. unfold Os.path_abspath. rewrite Hos.
  rewrite (abspath_plain _ _ Hcwd Hname). unfold PosixPath.join.
  destruct Hname as (Hne & Hsep & _). destruct Hcwd as [Habs _].
  rewrite endswith_last.
  replace (startswith video [PosixPath.sep]) with false.
  - rewrite (bool_decide_false (getcwd env = [])); [done|]. intros E. by rewrite E in Habs.
  - symmetry. apply bool_decide_eq_false. destruct video as [|c video]; [done|].
    cbn. intros [= ->]. apply Hsep. left.
Qed.

Lemma abspath_of_plain_name_witness :
  Os.path_abspath Demo.env (u "clip.mov")
  = if bool_decide (last (getcwd Demo.env) = Some (ord "/"))
    then getcwd Demo.env ++ u "clip.mov"
    else getcwd Demo.env ++ u "/" ++ u "clip.mov".
Proof.
  apply (abspath_of_plain_name Demo.env (u "clip.mov")).
  - reflexivity.
  - split; vm_compute; reflexivity.
  - repeat split; [discriminate| |discriminate..].
    apply (bool_decide_unpack _). vm_compute. exact I.
Defined.

Lemma abspath_is_absolute_posix env video :
  os_name env = Posix -> PosixPath.isabs (getcwd env) = true ->
  PosixPath.isabs (Os.path_abspath env video) = true.
Proof.
  intros Hos Hcwd. unfold Os.path_abspath, PosixPath.abspath. rewrite Hos.
  set (p := if PosixPath.isabs video then video else PosixPath.join (getcwd env) video).
  assert (Hp : PosixPath.isabs p = true).
  { subst p. destruct (PosixPath.isabs video) eqn:Hv; [done|].
    unfold PosixPath.join. unfold PosixPath.isabs in Hv. rewrite Hv.
    destruct (isabs_cons _ Hcwd) as [r ->]. by destruct (_ || _). }
  assert (Hne : p ≠ []) by (by intros E; rewrite E in Hp).
  rewrite (normpath_unfold p Hne). cbn zeta.
  pose proof (initial_slashes_abs p Hp) as Hk.
  destruct (initial_slashes p) as [|k]; [lia|]. cbn [repeat app].
  by rewrite bool_decide_false.
Qed.

(** X22. With an absolute working directory, the path [convid] checks,
    converts and removes is absolute, whatever was given on the command
    line, and not empty. *)
Theorem abspath_is_absolute env video :
  os_name env = Posix -> PosixPath.isabs (getcwd env) = true ->
  PosixPath.isabs (Os.path_abspath env video) = true
  /\ Os.path_abspath env video ≠ [].
Proof.
  intros Hos Hcwd. pose proof (abspath_is_absolute_posix env video Hos Hcwd) as H.
  split; [done|]. intros E. by rewrite E in H.
Qed.

Lemma abspath_is_absolute_witness :
  PosixPath.isabs (Os.path_abspath Demo.env (u "../clip.mov")) = true
  /\ Os.path_abspath Demo.env (u "../clip.mov") ≠ [].
Proof. exact (abspath_is_absolute Demo.env (u "../clip.mov") eq_refl eq_refl). Defined.

(** ** Normalizing twice *)

Section Idempotence.

Import PosixPath.

Lemma normalized_nil k : normalized k [].
Proof. repeat split; try done. by exists O, []. Qed.

Lemma normalized_snoc_inv k acc c :
  normalized k (acc ++ [c]) -> normalized k acc.
Proof.
  intros (Hk & Hd & n & rest & E & Hr & Hn).
  apply Forall_app in Hk as [Hk _]. apply Forall_app in Hd as [Hd _].
  split; [done|]. split; [done|].
  destruct rest as [|r rest _] using rev_ind.
  - rewrite app_nil_r in E. destruct n as [|n]; [by destruct acc|].
    rewrite replicate_S_end in E. apply app_inj_tail in E as [-> _].
    exists n, []. rewrite app_nil_r. repeat split; [done|]. intros H. by specialize (Hn H).
  - rewrite app_assoc in E. apply app_inj_tail in E as [-> _].
    apply Forall_app in Hr as [Hr _]. by exists n, rest.
Qed.

(** A step of [normpath] keeps the components normalized. *)
Lemma normpath_step_normalized k acc comp :
  normalized k acc -> sep ∉ comp -> normalized k (normpath_step k acc comp).
Proof.
  intros Hacc Hs. unfold normpath_step.
  destruct (bool_decide (comp = [])) eqn:He; cbn [orb]; [done|].
  destruct (bool_decide (comp = u ".")) eqn:Hd; cbn [orb]; [done|].
  apply bool_decide_eq_false in He, Hd.
  destruct Hacc as (Hk & Hdot & n & rest & -> & Hr & Hn).
  destruct (decide (comp = u "..")) as [->|Hdd].
  - (* ".." *)
    rewrite (bool_decide_false (u ".." ≠ u "..")) by (intros H; by apply H). cbn [orb].
    destruct rest as [|r rest _] using rev_ind.
    + (* only ".." so far, or nothing: it is kept in a relative path *)
      rewrite app_nil_r in *. destruct n as [|n].
      * cbn [replicate]. rewrite (bool_decide_true ([] = [])) by done.
        rewrite (bool_decide_false ([] ≠ [])) by (intros H; by apply H). cbn [andb orb].
        destruct k as [|k].
        -- rewrite bool_decide_true by done. cbn [app].
           split; [by repeat constructor|]. split; [by repeat constructor|].
           exists 1%nat, []. by repeat split.
        -- rewrite bool_decide_false by done. apply normalized_nil.
      * assert (Hlast : last (replicate (S n) (u "..")) = Some (u ".."))
          by (by rewrite replicate_S_end, last_snoc).
        rewrite Hlast. rewrite (bool_decide_true (_ ≠ [])) by done.
        rewrite (bool_decide_true (Some _ = Some _)) by done. rewrite orb_true_r.
        split; [apply Forall_app; split; [done|by repeat constructor]|].
        split; [apply Forall_app; split; [done|by repeat constructor]|].
        exists (S (S n)), []. rewrite app_nil_r. split; [by rewrite <- replicate_S_end|].
        split; [done|]. intros H. by specialize (Hn H).
    + (* a name: it is removed *)
      apply Forall_app in Hr as [Hr Hr1]. apply Forall_cons in Hr1 as [Hr1 _].
      rewrite !app_assoc in *.
      rewrite (bool_decide_false (_ = [])) by (by destruct (replicate n _ ++ rest)).
      rewrite andb_false_r. cbn [orb]. rewrite last_snoc.
      rewrite (bool_decide_false (Some r = Some (u ".."))) by congruence.
      rewrite andb_false_r. rewrite bool_decide_true by (by destruct (replicate n _ ++ rest)).
      rewrite removelast_last.
      apply Forall_app in Hk as [Hk _]. apply Forall_app in Hdot as [Hdot _].
      split; [done|]. split; [done|]. by exists n, rest.
  - (* a name *)
    rewrite (bool_decide_true (comp ≠ u "..")) by done. cbn [orb].
    split; [apply Forall_app; split; [done|by repeat constructor]|].
    split; [apply Forall_app; split; [done|by repeat constructor]|].
    exists n, (rest ++ [comp]). rewrite app_assoc. split; [done|]. split; [|done].
    apply Forall_app. split; [done|by repeat constructor].
Qed.

Lemma fold_normpath_step_normalized k comps acc :
  normalized k acc -> Forall (fun w => sep ∉ w) comps ->
  normalized k (fold_left (normpath_step k) comps acc).
Proof.
  revert acc. induction comps as [|w ws IH]; intros acc Hacc Hws; [done|]. cbn.
  apply Forall_cons in Hws as [Hw Hws]. apply IH; [|done]. by apply normpath_step_normalized.
Qed.

Lemma normal_components_normalized path :
  normalized (initial_slashes path) (normal_components path).
Proof. apply fold_normpath_step_normalized; [apply normalized_nil|apply split_no_sep]. Qed.

(** Normalized components are kept as they are. *)
Lemma fold_normpath_step_id k comps : forall acc,
  normalized k (acc ++ comps) -> fold_left (normpath_step k) comps acc = acc ++ comps.
Proof.
  induction comps as [|c comps IH]; intros acc Hn; [by rewrite app_nil_r|].
  cbn [fold_left]. replace (acc ++ c :: comps) with ((acc ++ [c]) ++ comps) in *
    by by rewrite <- app_assoc.
  rewrite <- IH; [f_equal|].
  - destruct Hn as (Hk & Hdot & n & rest & E & Hr & Hn0).
    apply Forall_app in Hk as [Hk _]. apply Forall_app in Hk as [_ Hk].
    apply Forall_cons in Hk as [[Hne _] _].
    apply Forall_app in Hdot as [Hdot _]. apply Forall_app in Hdot as [_ Hdot].
    apply Forall_cons in Hdot as [Hd _].
    unfold normpath_step. rewrite !bool_decide_false by done. cbn [orb].
    destruct (decide (c = u "..")) as [->|Hdd]; [|by rewrite bool_decide_true].
    (* ".." is in the leading block, so whatever precedes it is ".." too *)
    rewrite (bool_decide_false (u ".." ≠ u "..")) by (intros H; by apply H). cbn [orb].
    assert (acc = replicate (length acc) (u "..") /\ k = O) as [Hacc ->].
    { assert (Hlen : (length acc < n)%nat).
      { destruct (decide (length acc < n)%nat) as [|Hge]; [done|]. exfalso.
        assert (Hin : u ".." ∈ rest).
        { apply (f_equal (drop n)) in E.
          rewrite (drop_app_length' (replicate n (u "..")) rest n) in E
            by by rewrite length_replicate.
          rewrite <- E. apply list_elem_of_lookup. exists (length acc - n)%nat.
          rewrite lookup_drop, <- app_assoc.
          replace (n + (length acc - n))%nat with (length acc) by lia.
          cbn [app]. by rewrite list_lookup_middle. }
        by apply (proj1 (Forall_forall _ _) Hr) in Hin. }
      split.
      - transitivity (take (length acc) ((acc ++ [u ".."]) ++ comps));
          [by rewrite <- app_assoc, take_app_length|].
        rewrite E, take_app_le by (rewrite length_replicate; lia).
        rewrite take_replicate. f_equal. lia.
      - destruct k; [done|]. rewrite Hn0 in Hlen by done. lia. }
    clear E Hr Hn0. remember (length acc) as m eqn:Hm. clear Hm. subst acc.
    destruct m as [|m].
    + by rewrite !bool_decide_true by done.
    + assert (Hlast : last (replicate (S m) (u "..")) = Some (u ".."))
        by (by rewrite replicate_S_end, last_snoc).
      rewrite Hlast. rewrite (bool_decide_true (_ ≠ [])) by done.
      rewrite (bool_decide_true (Some _ = Some _)) by done. by rewrite orb_true_r.
  - done.
Qed.

Lemma split_join ws :
  ws ≠ [] -> Forall kept ws -> PyStr.split sep (PyStr.join [sep] ws) = ws.
Proof.
  induction ws as [|w ws IH]; [done|]. intros _ [[_ Hw] Hws]%Forall_cons.
  destruct ws as [|w' ws]; [by apply split_absent|].
  change (PyStr.join [sep] (w :: w' :: ws)) with (w ++ sep :: PyStr.join [sep] (w' :: ws)).
  rewrite split_app, (split_absent _ _ Hw), IH by done. done.
Qed.

Lemma initial_slashes_le path : (initial_slashes path <= 2)%nat.
Proof.
  unfold initial_slashes. destruct (PyStr.startswith path [sep]); [destruct (_ && _)|]; lia.
Qed.

Lemma initial_slashes_root k : (1 <= k <= 2)%nat -> initial_slashes (repeat sep k) = k.
Proof. intros Hk. by destruct k as [|[|[|k]]]; [lia| | |lia]. Qed.

Lemma initial_slashes_relative c rest : c ≠ sep -> initial_slashes (c :: rest) = O.
Proof.
  intros Hc. unfold initial_slashes, PyStr.startswith. cbn.
  rewrite bool_decide_false; [done|]. by intros [= ?].
Qed.

Lemma normpath_dot : normpath (u ".") = u ".".
Proof. by vm_compute. Qed.

(** [posixpath.normpath] normalizes once and for all. *)
Lemma normpath_idempotent path : normpath (normpath path) = normpath path.
Proof.
  destruct (decide (path = [])) as [->|Hne]; [by vm_compute|].
  rewrite (normpath_unfold path Hne). cbn zeta.
  pose proof (normal_components_normalized path) as Hnorm.
  pose proof (initial_slashes_le path) as Hk.
  set (k := initial_slashes path) in *. set (comps := normal_components path) in *.
  clearbody k comps.
  case_bool_decide as Hr; [apply normpath_dot|].
  rewrite (normpath_unfold _ Hr). cbn zeta.
  pose proof Hnorm as (Hkept & _).
  assert (Hk' : initial_slashes (repeat sep k ++ PyStr.join [sep] comps) = k).
  { destruct (decide (comps = [])) as [->|Hc].
    - cbn [PyStr.join] in *. rewrite app_nil_r in *. apply initial_slashes_root.
      destruct k; [done|lia].
    - destruct (join_kept_head comps Hc Hkept) as (c & rest & -> & Hc0).
      destruct k as [|k]; [by apply initial_slashes_relative|].
      apply initial_slashes_leading; [lia|done]. }
  assert (Hcomps : normal_components (repeat sep k ++ PyStr.join [sep] comps) = comps).
  { unfold normal_components. rewrite Hk', split_leading, fold_left_app,
      fold_normpath_step_empty.
    destruct (decide (comps = [])) as [->|Hc]; [done|].
    rewrite split_join by done. by apply (fold_normpath_step_id k comps []). }
  rewrite Hk', Hcomps. by rewrite bool_decide_false.
Qed.

End Idempotence.

(** X23. The absolute path [convid] computes is a fixed point: with an
    absolute working directory, taking [os.path.abspath] of the path it
    works on gives that path again, so a second run that is handed the
    absolute path works on the same file, from whatever directory. *)
Theorem abspath_idempotent env env' video :
  os_name env = Posix -> os_name env' = Posix ->
  PosixPath.isabs (getcwd env) = true ->
  Os.path_abspath env' (Os.path_abspath env video) = Os.path_abspath env video.
Proof.
  intros Hos Hos' Hcwd.
  pose proof (abspath_is_absolute_posix env video Hos Hcwd) as Habs.
  unfold Os.path_abspath in *. rewrite Hos, Hos' in *.
  unfold PosixPath.abspath at 1. rewrite Habs.
  unfold PosixPath.abspath. apply normpath_idempotent.
Qed.

Lemma abspath_idempotent_witness :
  Os.path_abspath Demo.env_elsewhere (Os.path_abspath Demo.env (u "../clip.mov"))
  = Os.path_abspath Demo.env (u "../clip.mov").
Proof.
  exact (abspath_idempotent Demo.env Demo.env_elsewhere (u "../clip.mov")
           eq_refl eq_refl eq_refl).
Defined.

(** ** The round trip of [json.dump] and [json.load] *)

Lemma pyobj_nested_ind (P : pyobj -> Prop) :
  (forall s, P (PStr s)) ->
  (forall items, Forall (fun kv => P kv.2) items -> P (PDict items)) ->
  (forall path, P (PFile path)) ->
  forall o, P o.
Proof.
  intros Hs Hd Hf. fix IH 1. intros [s|items|path]; [apply Hs| |apply Hf].
  apply Hd. induction items as [|[k v] items IHitems]; constructor; [apply IH|done].
Qed.

Lemma serializable_items items :
  fold_right (fun kv rest => no_surrogate_pair kv.1 = true /\ serializable kv.2 /\ rest) True items
  <-> Forall (fun kv => no_surrogate_pair kv.1 = true /\ serializable kv.2) items.
Proof.
  induction items as [|kv items IH]; cbn.
  - split; [constructor|done].
  - rewrite Forall_cons, <- IH. tauto.
Qed.

(** The text of a dictionary whose values are encoded without failure. *)
Lemma iterencode_items_text items :
  Forall (fun kv => (iterencode kv.2).2 = true) items ->
  forall first,
    (fix iterencode_items (first : bool) (items : list (str * pyobj)) : str * bool :=
       match items with
       | [] => (u "}", true)
       | (key, value) :: rest =>
           let head :=
             (if first then [] else u ", ") ++ encode_basestring_ascii key ++ u ": " in
           let '(cv, okv) := iterencode value in
           if okv then
             let '(cr, okr) := iterencode_items false rest in
             (head ++ cv ++ cr, okr)
           else (head ++ cv, false)
       end) first items
    = (items_text first (map (fun kv => (kv.1, (iterencode kv.2).1)) items), true).
Proof.
  induction 1 as [|[k v] items Hv _ IH]; intros first; [done|].
  cbn [map items_text fst snd] in *.
  destruct (iterencode v) as [cv okv]. cbn [fst snd] in *. subst okv.
  rewrite IH. by rewrite <- !app_assoc.
Qed.

Lemma iterencode_dict kv items :
  Forall (fun kv => (iterencode kv.2).2 = true) (kv :: items) ->
  iterencode (PDict (kv :: items))
  = (u "{" ++ items_text true (map (fun kv => (kv.1, (iterencode kv.2).1)) (kv :: items)),
     true).
Proof.
  intros [Hv H]%Forall_cons. destruct kv as [k v]. cbn [iterencode map items_text fst snd] in *.
  destruct (iterencode v) as [cv okv]. cbn [fst snd] in *. subst okv.
  match goal with
  | |- context [?f false items] =>
      rewrite (iterencode_items_text items H false : f false items = _)
  end.
  by rewrite <- !app_assoc.
Qed.

Lemma dict_set_fresh k v d : k ∉ map fst d -> dict_set k v d = d ++ [(k, v)].
Proof.
  induction d as [|[k' v'] d IH]; [done|]. cbn. rewrite not_elem_of_cons. intros [Hk Hd].
  rewrite bool_decide_false by congruence. by rewrite IH.
Qed.

Lemma dict_of_pairs_distinct pairs : NoDup (map fst pairs) -> dict_of_pairs pairs = pairs.
Proof.
  unfold dict_of_pairs.
  enough (forall acc, NoDup (map fst (acc ++ pairs)) ->
                      fold_left (fun d kv => dict_set kv.1 kv.2 d) pairs acc = acc ++ pairs)
    as H by apply (H []).
  induction pairs as [|[k v] pairs IH]; intros acc Hnd; cbn.
  - by rewrite app_nil_r.
  - rewrite dict_set_fresh.
    + rewrite IH; rewrite <- app_assoc; done.
    + rewrite map_app in Hnd. apply NoDup_app in Hnd as (_ & Hnd & _).
      intros Hin. apply (Hnd k Hin). left.
Qed.

Lemma skip_ws_head c s : is_ws c = false -> skip_ws (c :: s) = c :: s.
Proof. intros H. cbn. by rewrite H. Qed.

Lemma skip_ws_ws c s : is_ws c = true -> skip_ws (c :: s) = skip_ws s.
Proof. intros H. cbn. by rewrite H. Qed.

(** The text of a serializable object starts with a quote or a brace. *)
Lemma iterencode_head o :
  serializable o -> exists c s, (iterencode o).1 = c :: s /\ is_ws c = false.
Proof.
  destruct o as [s|[|[k v] items]|path]; cbn [serializable]; [| | |done].
  - intros _. by eexists _, _.
  - intros _. by eexists _, _.
  - intros _. cbn [iterencode]. destruct (iterencode v) as [cv []].
    + match goal with |- context [let '(_, _) := ?x in _] => destruct x end. by eexists _, _.
    + by eexists _, _.
Qed.

Lemma skip_ws_text o rest :
  serializable o -> skip_ws ((iterencode o).1 ++ rest) = (iterencode o).1 ++ rest.
Proof.
  intros (c & s & -> & Hc)%iterencode_head. by rewrite <- app_comm_cons, skip_ws_head.
Qed.

Section RoundTrip.

(** What the induction gives for the values of a dictionary. *)
Let loads_back (o : pyobj) : Prop :=
  serializable o ->
  (iterencode o).2 = true
  /\ forall rest n,
       (length ((iterencode o).1 ++ rest) <= n)%nat ->
       scan_once n ((iterencode o).1 ++ rest) = Some (to_value o, rest).

(** One item of a dictionary: the key, the colon and the value. *)
Lemma object_loop_item n k text tail pairs v :
  no_surrogate_pair k = true ->
  (forall m, (length (text ++ tail) <= m)%nat -> scan_once m (text ++ tail) = Some (v, tail)) ->
  skip_ws (text ++ tail) = text ++ tail ->
  (length (concat (map escape_char k) ++ dquote :: u ": " ++ text ++ tail) <= n)%nat ->
  object_loop (S n) (concat (map escape_char k) ++ dquote :: u ": " ++ text ++ tail) pairs
  = match skip_ws tail with
    | nextchar :: s0 =>
        if (nextchar =? ord "}")%N then Some (JObj (dict_of_pairs (pairs ++ [(k, v)])), s0)
        else if negb (nextchar =? ord ",")%N then None
        else match skip_ws s0 with
             | q :: s1 => if (q =? dquote)%N then object_loop n s1 (pairs ++ [(k, v)]) else None
             | [] => None
             end
    | [] => None
    end.
Proof.
  intros Hk Hscan Hws Hn. cbn [object_loop].
  rewrite scanstring_encoded; [|done|rewrite length_app; pose proof (escaped_length k); lia].
  change (u ": " ++ text ++ tail) with (ord ":" :: ord " " :: text ++ tail).
  rewrite (skip_ws_head (ord ":")) by done. rewrite N.eqb_refl. cbn [negb].
  rewrite (skip_ws_ws (ord " ")) by done. rewrite Hws, Hscan; [done|].
  rewrite !length_app in *. cbn [length] in *. rewrite ?length_app in *. lia.
Qed.

Lemma object_loop_items items :
  Forall (fun kv => loads_back kv.2) items ->
  Forall (fun kv => no_surrogate_pair kv.1 = true /\ serializable kv.2) items ->
  forall k v pairs rest n,
    no_surrogate_pair k = true -> serializable v -> loads_back v ->
    let s := concat (map escape_char k) ++ dquote :: u ": " ++ (iterencode v).1
             ++ items_text false (map (fun kv => (kv.1, (iterencode kv.2).1)) items) ++ rest in
    (S (length s) <= n)%nat ->
    object_loop n s pairs
    = Some (JObj (dict_of_pairs
                    (pairs ++ (k, to_value v)
                       :: map (fun kv => (kv.1, to_value kv.2)) items)), rest).
Proof.
  induction 1 as [|[k2 v2] items Hv2 _ IH]; intros Hok k v pairs rest n Hk Hv Hback s Hn;
    subst s; (destruct n as [|n]; [lia|]); destruct (Hback Hv) as [_ Hscan].
  - (* the last item *)
    rewrite (object_loop_item n k _ _ pairs (to_value v) Hk);
      [|intros m Hm; by apply Hscan|by apply skip_ws_text|lia].
    done.
  - (* an item followed by another *)
    apply Forall_cons in Hok as [[Hk2 Hs2] Hok].
    rewrite (object_loop_item n k _ _ pairs (to_value v) Hk);
      [|intros m Hm; by apply Hscan|by apply skip_ws_text|lia].
    cbn [map items_text fst snd encode_basestring_ascii].
    change (u ", " ++ ?x) with (ord "," :: ord " " :: x).
    cbn [app]. rewrite (skip_ws_head (ord ",")) by done.
    change (ord "," =? ord "}")%N with false. rewrite N.eqb_refl. cbn [negb].
    rewrite (skip_ws_ws (ord " ")) by done.
    unfold encode_basestring_ascii. rewrite <- !app_assoc. cbn [app].
    rewrite (skip_ws_head dquote) by done. rewrite N.eqb_refl.
    rewrite (IH Hok k2 v2 _ rest n Hk2 Hs2 Hv2); [by rewrite <- app_assoc|].
    cbn [map items_text fst snd] in Hn. unfold encode_basestring_ascii in Hn.
    rewrite !length_app in *. cbn [length app] in *. rewrite !length_app in *.
    cbn [length app] in *. rewrite ?length_app in *. cbn [length] in *. lia.
Qed.

Lemma iterencode_loads_back o : loads_back o.
Proof.
  induction o as [s|items IH|path] using pyobj_nested_ind; unfold loads_back at 1.
  - intros Hs. split; [done|]. intros rest [|n] Hn; [cbn in Hn; lia|].
    cbn [iterencode fst encode_basestring_ascii app]. rewrite <- app_assoc.
    by apply scan_once_string.
  - cbn [serializable]. intros [Hnd Hitems]. apply serializable_items in Hitems.
    assert (Hok : Forall (fun kv => (iterencode kv.2).2 = true) items).
    { apply Forall_forall. intros kv Hin.
      apply (proj1 (Forall_forall _ _) IH kv Hin), (proj1 (Forall_forall _ _) Hitems kv Hin). }
    destruct items as [|[k v] items].
    + split; [done|]. intros rest [|n] Hn; [cbn in Hn; lia|]. done.
    + rewrite (iterencode_dict _ _ Hok). split; [done|]. cbn [fst].
      intros rest [|n] Hn; [cbn in Hn; lia|].
      apply Forall_cons in IH as [Hv IH]. apply Forall_cons in Hitems as [[Hk Hs] Hitems].
      cbn [map items_text fst snd encode_basestring_ascii u list_ascii_of_string app scan_once].
      change (N_of_ascii "{" =? dquote)%N with false.
      change (N_of_ascii "{" =? ord "{")%N with true. cbv iota.
      rewrite skip_ws_head by done. change (dquote =? ord "}")%N with false.
      rewrite N.eqb_refl. cbv iota.
      rewrite <- !app_assoc. cbn [app]. rewrite <- !app_assoc.
      etransitivity; [apply (object_loop_items items IH Hitems k v [] rest n Hk Hs Hv)|].
      * cbn [map items_text fst snd] in Hn. unfold encode_basestring_ascii in Hn.
        rewrite <- !app_assoc in Hn. cbn [app u map list_ascii_of_string length] in *.
        rewrite !length_app in *. cbn [length] in *. rewrite ?length_app in *.
        cbn [length] in *. lia.
      * cbn [app to_value map fst snd]. do 3 f_equal.
        apply (dict_of_pairs_distinct
                 ((k, to_value v) :: map (fun kv => (kv.1, to_value kv.2)) items)).
        cbn [map fst] in *. by rewrite map_map.
  - done.
Qed.

End RoundTrip.

(** X24. [json.load] undoes [json.dump] on the dictionaries of strings,
    which is what [--ffmpeg] saves, with any number of keys: when the keys
    are distinct and no key or value has a high surrogate directly followed
    by a low one, encoding succeeds and loading the text returns the same
    keys, in the same order, bound to the same strings. *)
Theorem json_round_trip (items : list (str * str)) :
  NoDup (map fst items) ->
  Forall (fun kv => no_surrogate_pair kv.1 = true /\ no_surrogate_pair kv.2 = true) items ->
  let o := PDict (map (fun kv => (kv.1, PStr kv.2)) items) in
  (iterencode o).2 = true
  /\ loads (iterencode o).1 = Some (JObj (map (fun kv => (kv.1, JStr kv.2)) items)).
Proof.
  intros Hnd Hstr o.
  assert (Hs : serializable o).
  { subst o. cbn [serializable]. rewrite map_map. split; [done|].
    apply serializable_items, Forall_map. eapply Forall_impl; [exact Hstr|].
    by intros [k s] [? ?]. }
  destruct (iterencode_loads_back o Hs) as [Hok Hscan]. split; [done|].
  destruct (iterencode_head o Hs) as (c & t & Ht & Hc).
  unfold loads. rewrite Ht, (skip_ws_head c t Hc), <- Ht.
  specialize (Hscan [] (S (length (iterencode o).1))). rewrite app_nil_r in Hscan.
  rewrite Hscan by lia. rewrite bool_decide_true by done.
  subst o. cbn [to_value]. by rewrite map_map.
Qed.

Lemma json_round_trip_witness :
  (iterencode (PDict [(u "ffmpeg", PStr (u "/usr/bin/ffmpeg"));
                      (u "player", PStr [233; 128512]%N)])).2 = true
  /\ loads (iterencode (PDict [(u "ffmpeg", PStr (u "/usr/bin/ffmpeg"));
                               (u "player", PStr [233; 128512]%N)])).1
     = Some (JObj [(u "ffmpeg", JStr (u "/usr/bin/ffmpeg"));
                   (u "player", JStr [233; 128512]%N)]).
Proof.
  apply (json_round_trip [(u "ffmpeg", u "/usr/bin/ffmpeg"); (u "player", [233; 128512]%N)]).
  - apply (bool_decide_unpack _). vm_compute. exact I.
  - repeat constructor.
Defined.

(** ** Where the round trip stops *)

Lemma escape_char_surrogate c :
  (0xd800 <= c <= 0xdfff)%N -> escape_char c = u_escape c.
Proof.
  intros Hc. unfold escape_char, backslash, dquote, ord. cbn [u map list_ascii_of_string].
  cbn [N_of_ascii N_of_digits]. cbn. bool_cases; try lia; done.
Qed.

Lemma scanstring_surrogates fuel hi lo tail :
  is_high_surrogate hi = true -> is_low_surrogate lo = true ->
  scanstring (S fuel) (u_escape hi ++ u_escape lo ++ tail)
  = push (join_surrogates hi lo) (scanstring fuel tail).
Proof.
  intros Hhi Hlo.
  assert (hi < 65536 /\ lo < 65536)%N as [? ?].
  { unfold is_high_surrogate, is_low_surrogate in *.
    apply andb_true_iff in Hhi as [_ ?%N.leb_le]. apply andb_true_iff in Hlo as [_ ?%N.leb_le].
    lia. }
  unfold u_escape at 1. cbn [app scanstring].
  change (backslash =? dquote)%N with false. change (backslash =? backslash)%N with true.
  change (ord "u" =? ord "u")%N with true. cbv iota.
  rewrite decode_hex4 by done. rewrite Hhi.
  unfold u_escape. cbn [app]. rewrite startswith_u_prefix. cbn [andb skipn]. rewrite drop_0.
  rewrite decode_hex4 by done. by rewrite Hlo.
Qed.

Lemma loads_config_surrogates hi lo :
  is_high_surrogate hi = true -> is_low_surrogate lo = true ->
  loads (config_text [hi; lo]) = Some (JObj [(u "ffmpeg", JStr [join_surrogates hi lo])]).
Proof.
  intros Hhi Hlo. unfold loads.
  change (skip_ws (config_text [hi; lo])) with (config_text [hi; lo]).
  assert (exists fuel, length (config_text [hi; lo]) = S (S fuel)) as [fuel ->]
    by (unfold config_text; cbn; eauto).
  unfold config_text.
  rewrite (scan_once_config fuel _ (JStr [join_surrogates hi lo])); [done|].
  cbn [scan_once map concat]. change (dquote =? dquote)%N with true. cbv iota.
  assert (Hr : (0xd800 <= hi <= 0xdfff /\ 0xd800 <= lo <= 0xdfff)%N).
  { unfold is_high_surrogate, is_low_surrogate in *.
    apply andb_true_iff in Hhi as [?%N.leb_le ?%N.leb_le].
    apply andb_true_iff in Hlo as [?%N.leb_le ?%N.leb_le]. lia. }
  rewrite !escape_char_surrogate by tauto.
  rewrite app_nil_r, <- !app_assoc.
  destruct (length _) as [|n] eqn:E; [by rewrite !length_app in E; cbn in E; lia|].
  rewrite scanstring_surrogates by done.
  destruct n; [by rewrite !length_app in E; cbn in E; lia|]. done.
Qed.

(** X25. The round trip of the configuration needs its hypothesis: a
    path made of a lone high surrogate directly followed by a lone low
    surrogate is saved by [--ffmpeg] as two escapes, which [json.load]
    reads as the escapes of one code point.  Loading after such a save
    returns a one-character path, which is not the path that was saved. *)
Theorem adjacent_surrogates_are_joined env hi lo fs fs' t :
  is_high_surrogate hi = true -> is_low_surrogate lo = true ->
  configure_ffmpeg env false (Some [hi; lo]) fs = (Stop (CtxExit 0), fs', t) ->
  (forall mode c, fs !! (get_convid_config_dir_file env).2 = Some (File mode c) ->
                  p_read mode = true) ->
  get_convid_configs env fs'
  = (Return (JObj [(u "ffmpeg", JStr [join_surrogates hi lo])]), fs',
     [EvOpenRead (get_convid_config_dir_file env).2 None])
  /\ [join_surrogates hi lo] ≠ [hi; lo].
Proof.
  intros Hhi Hlo Hsave Hread. split; [|done].
  apply configure_ffmpeg_saved in Hsave as (_ & _ & _ & mode & Hf & Hmode).
  apply (get_convid_configs_present env fs' mode (config_text [hi; lo]));
    [done| |by apply loads_config_surrogates].
  destruct Hmode as [[_ ->] | [c Hc]]; [done | by eapply Hread].
Qed.

Lemma adjacent_surrogates_are_joined_witness :
  get_convid_configs Demo.env
    (configure_ffmpeg Demo.env false (Some [0xd83d; 0xde00]%N) Demo.with_config_dir).1.2
  = (Return (JObj [(u "ffmpeg", JStr [join_surrogates 0xd83d 0xde00])]),
     (configure_ffmpeg Demo.env false (Some [0xd83d; 0xde00]%N) Demo.with_config_dir).1.2,
     [EvOpenRead (get_convid_config_dir_file Demo.env).2 None])
  /\ [join_surrogates 0xd83d 0xde00] ≠ [0xd83d; 0xde00]%N.
Proof.
  apply (adjacent_surrogates_are_joined Demo.env 0xd83d 0xde00 Demo.with_config_dir _
           (configure_ffmpeg Demo.env false (Some [0xd83d; 0xde00]%N) Demo.with_config_dir).2).
  - reflexivity.
  - reflexivity.
  - apply outcome_eq. vm_compute. reflexivity.
  - intros mode c H. vm_compute in H. discriminate.
Defined.

(** ** Repeated keys *)

Lemma dict_lookup_set k v d : dict_lookup k (dict_set k v d) = Some v.
Proof.
  induction d as [|[k' v'] d IH]; cbn; [by rewrite bool_decide_true|].
  case_bool_decide as E; cbn.
  - by rewrite bool_decide_true.
  - by rewrite bool_decide_false.
Qed.

Lemma dict_lookup_set_ne k k' v d :
  k ≠ k' -> dict_lookup k (dict_set k' v d) = dict_lookup k d.
Proof.
  intros Hne. induction d as [|[k2 v2] d IH]; cbn.
  - by rewrite bool_decide_false.
  - case_bool_decide as E; cbn.
    + subst k2. by rewrite !bool_decide_false by done.
    + case_bool_decide; [done|apply IH].
Qed.

(** X26. In the dictionary [json.load] builds for an object, a key that
    is written more than once is bound to the value written last: looking a
    key up gives the value of the last pair that has it, and nothing when no
    pair has it.  So of several "ffmpeg" members of a configuration the last
    one is the executable that is run, and "ffmpeg" when there is none. *)
Theorem last_member_wins pairs k :
  dict_lookup k (dict_of_pairs pairs)
  = snd <$> last (List.filter (fun kv => bool_decide (kv.1 = k)) pairs)
  /\ executable (dict_of_pairs pairs)
     = default (JStr (u "ffmpeg"))
         (snd <$> last (List.filter (fun kv => bool_decide (kv.1 = u "ffmpeg")) pairs)).
Proof.
  assert (H : forall k acc,
             dict_lookup k (fold_left (fun d kv => dict_set kv.1 kv.2 d) pairs acc)
             = match last (List.filter (fun kv => bool_decide (kv.1 = k)) pairs) with
               | Some kv => Some kv.2
               | None => dict_lookup k acc
               end).
  { clear k. intros k. induction pairs as [|[k' v'] pairs IH]; intros acc; [done|].
    cbn [fold_left List.filter fst snd]. rewrite IH. case_bool_decide as E.
    - subst k'. destruct (List.filter _ pairs) as [|kv l] eqn:Ef.
      + cbn. apply dict_lookup_set.
      + change (last ((k, v') :: kv :: l)) with (last (kv :: l)).
        destruct (last (kv :: l)) eqn:El; [done|]. by apply last_None in El.
    - destruct (last _); [done|]. by apply dict_lookup_set_ne. }
  assert (Hk : forall k, dict_lookup k (dict_of_pairs pairs)
                         = snd <$> last (List.filter (fun kv => bool_decide (kv.1 = k)) pairs)).
  { intros k'. unfold dict_of_pairs. rewrite (H k' []). by destruct (last _). }
  split; [apply Hk|]. unfold executable. by rewrite Hk.
Qed.

(** ** The narration of [--verbose] *)

Lemma events_app t1 t2 : events (t1 ++ t2) = events t1 ++ events t2.
Proof. apply omap_app. Qed.

Lemma events_map_Event t : events (map Event t) = t.
Proof. unfold events. induction t as [|ev t IH]; [done|]. cbn. by rewrite IH. Qed.

Section NarrationLemmas.

Context {A B : Type}.

Lemma narrates_lift verbose (m : M A) : narrates verbose (lift m) m.
Proof.
  intros fs. unfold unnarrated, lift. destruct (m fs) as [[o fs'] t]. cbn -[events].
  by rewrite events_map_Event.
Qed.

Lemma narrates_vret verbose (a : A) : narrates verbose (vret a) (ret a).
Proof. done. Qed.

Lemma narrates_vstop verbose (s : signal) : narrates verbose (@vstop A s) (stop s).
Proof. done. Qed.

Lemma narrates_vbind verbose (v : V A) (m : M A) (kv : A -> V B) (km : A -> M B) :
  narrates verbose v m -> (forall a, narrates verbose (kv a) (km a)) ->
  narrates verbose (vbind v kv) (bind m km).
Proof.
  intros Hv Hk fs. destruct (Hv fs) as [E1 F1]. unfold unnarrated, vbind, bind in *.
  destruct (v fs) as [[o fs1] t1]. destruct (m fs) as [[o' fs1'] t1'].
  cbn [fst snd] in *. injection E1 as -> -> <-.
  destruct o' as [a|s]; [|by split].
  destruct (Hk a fs1') as [E2 F2]. unfold unnarrated in E2.
  destruct (kv a fs1') as [[o2 fs2] t2]. destruct (km a fs1') as [[o2' fs2'] t2'].
  cbn [fst snd] in *. injection E2 as -> -> <-. split.
  - by rewrite events_app.
  - intros Hq. by rewrite map_app, <- (F1 Hq), <- (F2 Hq).
Qed.

Lemma narrates_vecho_bind verbose message (kv : unit -> V B) (m : M B) :
  narrates verbose (kv tt) m -> narrates verbose (vbind (vecho message verbose) kv) m.
Proof.
  intros Hk fs. destruct (Hk fs) as [E F]. unfold unnarrated, vbind, vecho in *.
  destruct (kv tt fs) as [[o fs1] t1]. cbn [fst snd] in *. split.
  - by destruct verbose.
  - intros ->. by apply F.
Qed.

End NarrationLemmas.

Lemma narrates_vtry_except {A} verbose (body : V A) (bodym : M A) handler handlerm :
  narrates verbose body bodym ->
  (forall e, match handler e, handlerm e with
             | Some h, Some hm => narrates verbose h hm
             | None, None => True
             | _, _ => False
             end) ->
  narrates verbose (vtry_except body handler) (try_except bodym handlerm).
Proof.
  intros Hb Hh fs. destruct (Hb fs) as [E1 F1]. unfold unnarrated, vtry_except, try_except in *.
  destruct (body fs) as [[o fs1] t1]. destruct (bodym fs) as [[o' fs1'] t1'].
  cbn [fst snd] in *. injection E1 as -> -> <-.
  destruct o' as [a|[e| | |]]; try by split.
  specialize (Hh e). destruct (handler e) as [h|], (handlerm e) as [hm|]; try done.
  destruct (Hh fs1') as [E2 F2]. unfold unnarrated in E2.
  destruct (h fs1') as [[o2 fs2] t2]. destruct (hm fs1') as [[o2' fs2'] t2'].
  cbn [fst snd] in *. injection E2 as -> -> <-. split.
  - by rewrite events_app.
  - intros Hq. by rewrite map_app, <- (F1 Hq), <- (F2 Hq).
Qed.

Ltac narr :=
  repeat first
    [ apply narrates_vecho_bind
    | apply narrates_lift
    | apply narrates_vret
    | apply narrates_vstop
    | apply narrates_vbind; [|intros ?]
    | match goal with
      | |- narrates _ (if ?b then _ else _) (if ?b then _ else _) => destruct b
      end ].

Section NarrationProofs.

Variable env : environment.
Variable run_tool : value -> str -> str -> bool -> filesystem -> option exn * filesystem.
Variable format_exc : exn -> str.

Lemma narrated_check_video_file_narrates video f verbose :
  narrates verbose (narrated_check_video_file video f verbose) (check_video_file video f).
Proof. unfold narrated_check_video_file, check_video_file. narr. Qed.

Lemma narrated_check_extension_narrates ext old_ext answer verbose :
  narrates verbose (narrated_check_extension ext old_ext answer verbose)
    (check_extension ext old_ext answer).
Proof. unfold narrated_check_extension, check_extension. narr. Qed.

Lemma narrated_convert_video_narrates f new_file verbose :
  narrates verbose (narrated_convert_video env run_tool format_exc f new_file verbose)
    (convert_video env run_tool f new_file verbose).
Proof.
  unfold narrated_convert_video, convert_video. apply narrates_vtry_except; [narr|].
  intros e. unfold narrated_conversion_failure. destruct e; narr.
Qed.

Lemma narrated_remove_old_video_narrates f remove verbose :
  narrates verbose (narrated_remove_old_video env format_exc f remove verbose)
    (remove_old_video env f remove).
Proof.
  unfold narrated_remove_old_video, remove_old_video. apply narrates_vecho_bind.
  destruct remove; [|narr]. apply narrates_vtry_except; [narr|]. intros e. narr.
Qed.


End NarrationProofs.


Lemma vbind_return {A B} (m : V A) (k : A -> V B) fs a fs1 t1 :
  m fs = (Return a, fs1, t1) ->
  vbind m k fs = ((k a fs1).1.1, (k a fs1).1.2, t1 ++ (k a fs1).2).
Proof. unfold vbind. intros ->. by destruct (k a fs1) as [[? ?] ?]. Qed.

Lemma vbind_trace {A B} (m : V A) (k : A -> V B) fs a fs1 t1 :
  m fs = (Return a, fs1, t1) -> (vbind m k fs).2 = t1 ++ (k a fs1).2.
Proof. intros E. by rewrite (vbind_return m k fs a fs1 t1 E). Qed.

Lemma vbind_assoc {A B C} (m : V A) (k1 : A -> V B) (k2 : B -> V C) fs :
  vbind (vbind m k1) k2 fs = vbind m (fun a => vbind (k1 a) k2) fs.
Proof.
  unfold vbind. destruct (m fs) as [[[a|s] fs1] t1]; [|done].
  destruct (k1 a fs1) as [[[b|s] fs2] t2]; [|done].
  destruct (k2 b fs2) as [[o fs3] t3]. by rewrite app_assoc.
Qed.

(** A run that ends in [sys.exit(0)] ends with the last line of its last
    piece. *)
Lemma vbind_closes {A B} (m : V A) (k : A -> V B) fs l :
  (m fs).1.1 ≠ Stop (SysExit 0) ->
  (forall a fs1, (k a fs1).1.1 = Stop (SysExit 0) -> last (k a fs1).2 = Some l) ->
  (vbind m k fs).1.1 = Stop (SysExit 0) -> last (vbind m k fs).2 = Some l.
Proof.
  intros Hm Hk. destruct (m fs) as [[[a|s] fs1] t1] eqn:E.
  - rewrite (vbind_return m k fs a fs1 t1 E). cbn [fst snd]. intros H0.
    by rewrite last_app, (Hk a fs1 H0).
  - unfold vbind. rewrite E. cbn in *. congruence.
Qed.

Section Closing.

Variable env : environment.
Variable run_tool : value -> str -> str -> bool -> filesystem -> option exn * filesystem.
Variable format_exc : exn -> str.

Lemma narrates_outcome {A} verbose (v : V A) (m : M A) fs :
  narrates verbose v m -> (v fs).1.1 = (m fs).1.1.
Proof. intros H. destruct (H fs) as [E _]. by rewrite <- E. Qed.

Lemma vecho_returns message verbose fs :
  (vecho message verbose fs).1.1 ≠ Stop (SysExit 0).
Proof. done. Qed.

Lemma check_video_file_no_exit_0 video fs :
  (check_video_file video (Os.path_abspath env video) fs).1.1 ≠ Stop (SysExit 0).
Proof.
  destruct (check_video_file_cases env video fs) as [[_ E] | (t & _ & E)];
    cbn zeta in E; by rewrite E.
Qed.

Lemma check_extension_no_exit_0 ext old_ext answer fs :
  (check_extension ext old_ext answer fs).1.1 ≠ Stop (SysExit 0).
Proof.
  destruct (check_extension_cases ext old_ext answer fs)
    as [[_ E] | [(_ & _ & E) | (_ & _ & E)]]; by rewrite E.
Qed.

Lemma convert_video_no_exit_0 f new_file verbose fs :
  (convert_video env run_tool f new_file verbose fs).1.1 ≠ Stop (SysExit 0).
Proof.
  destruct (convert_video_cases env run_tool f new_file verbose fs)
    as [(? & ? & ? & _ & E) | [(? & ? & ? & _ & _ & E)
       | [(? & ? & ? & ? & ? & _ & _ & E) | (? & ? & ? & ? & _ & _ & E)]]]; by rewrite E.
Qed.

Lemma remove_old_video_no_exit_0 f remove fs :
  (remove_old_video env f remove fs).1.1 ≠ Stop (SysExit 0).
Proof.
  destruct (remove_old_video_cases env f remove fs)
    as [[_ E] | [(? & ? & _ & _ & E) | (? & _ & _ & E)]]; by rewrite E.
Qed.

End Closing.

(** X28. With [--verbose] a run opens with the start message and the
    recap of its arguments (the two arguments as given, the flag, and the
    absolute path), all printed before the file system is looked at for the
    first time; and a run that ends in [sys.exit(0)] closes with the
    farewell. *)
Theorem narrated_run_opens_and_closes env run_tool format_exc video ext remove ff answer fs :
  let r := narrated_convid env run_tool format_exc video ext remove true ff answer fs in
  let f := Os.path_abspath env video in
  (exists found rest,
      r.2 = Event (EvEcho MsgStarting) :: map Narrated (recap env video ext remove)
            ++ Narrated (u "[*] Check if video " ++ video ++ u " exists")
            :: Event (EvExists f found) :: rest)
  /\ (r.1.1 = Stop (SysExit 0) ->
      last r.2 = Some (Narrated (u "[*] Thank you and have a nice day :)"))).
Proof.
  intros r f. subst r. split.
  - unfold narrated_convid. cbn zeta. fold f.
    destruct (Os.path_splitext env f) as [name old_ext].
    rewrite (vbind_trace _ _ fs tt fs [Event (EvEcho MsgStarting)]) by done.
    do 5 (rewrite (vbind_trace (vecho _ true) _ fs tt fs [Narrated _]) by done).
    unfold narrated_check_video_file. rewrite vbind_assoc.
    rewrite (vbind_trace (vecho _ true) _ fs tt fs [Narrated _]) by done.
    rewrite vbind_assoc.
    rewrite (vbind_trace (lift (Os.path_exists f)) _ fs (bool_decide (is_Some (fs !! f))) fs
               [Event (EvExists f (bool_decide (is_Some (fs !! f))))]) by done.
    by eexists _, _.
  - unfold narrated_convid. cbn zeta. fold f.
    destruct (Os.path_splitext env f) as [name old_ext].
    apply vbind_closes; [done|]. intros _ fs1.
    do 5 (apply vbind_closes; [apply vecho_returns|]; intros _ ?).
    apply vbind_closes.
    { rewrite (narrates_outcome true _ _ _ (narrated_check_video_file_narrates video f true)).
      apply check_video_file_no_exit_0. }
    intros _ ?. apply vbind_closes; [apply vecho_returns|]. intros _ ?.
    apply vbind_closes.
    { rewrite (narrates_outcome true _ _ _
                 (narrated_check_extension_narrates (normalize_ext ext) old_ext answer true)).
      apply check_extension_no_exit_0. }
    intros _ ?. do 2 (apply vbind_closes; [apply vecho_returns|]; intros _ ?).
    apply vbind_closes; [done|]. intros _ ?.
    apply vbind_closes.
    { rewrite (narrates_outcome true _ _ _
                 (narrated_convert_video_narrates env run_tool format_exc f _ true)).
      apply convert_video_no_exit_0. }
    intros _ ?. apply vbind_closes.
    { rewrite (narrates_outcome true _ _ _
                 (narrated_remove_old_video_narrates env format_exc f remove true)).
      apply remove_old_video_no_exit_0. }
    intros _ ? _. done.
Qed.
